(** * Ultrasonic-testing report filler: a shallow embedding of its core

    The program reads an inspection report and a measurement sheet and
    fills a report template.  This file embeds the data-transformation
    functions of [探伤excel填表.py] (date parsing, label-driven field
    extraction, temperature estimate, basis-code dispatch, probe selection
    and day segmentation) and states the properties of its specification
    over them. *)

From Stdlib Require Import ZArith NArith QArith List Ascii String Lia Bool.
From Stdlib Require Import Sorting.Sorted Lqa DecimalString.
From stdpp Require Import gmap strings.

Import ListNotations.
Local Open Scope Z_scope.

(** ** Python values: text *)

(** A Python [str] is a sequence of Unicode code points. *)
Definition codepoint := N.
Definition text := list codepoint.

Module Text.

(** Source literals are written as UTF-8 string literals and decoded to
    code points, so that the tables below read like the source. *)
Fixpoint utf8_decode (bs : list N) : text :=
  match bs with
  | [] => []
  | b0 :: r =>
      if (b0 <? 128)%N then b0 :: utf8_decode r
      else if (b0 <? 224)%N then
        match r with
        | b1 :: r1 => ((b0 - 192) * 64 + (b1 - 128))%N :: utf8_decode r1
        | _ => []
        end
      else if (b0 <? 240)%N then
        match r with
        | b1 :: b2 :: r2 =>
            ((b0 - 224) * 4096 + (b1 - 128) * 64 + (b2 - 128))%N :: utf8_decode r2
        | _ => []
        end
      else
        match r with
        | b1 :: b2 :: b3 :: r3 =>
            ((b0 - 240) * 262144 + (b1 - 128) * 4096 + (b2 - 128) * 64 + (b3 - 128))%N
              :: utf8_decode r3
        | _ => []
        end
  end.

Definition u (s : string) : text :=
  utf8_decode (map N_of_ascii (list_ascii_of_string s)).

(** [str.isspace], which is also the class [\s] of [re] on [str] patterns
    (Unicode 14.0, CPython 3.11). *)
Definition is_space (c : codepoint) : bool :=
  ((9 <=? c) && (c <=? 13) || (28 <=? c) && (c <=? 32) || (c =? 133) || (c =? 160)
   || (c =? 5760) || (8192 <=? c) && (c <=? 8202) || (c =? 8232) || (c =? 8233)
   || (c =? 8239) || (c =? 8287) || (c =? 12288))%N.

(** First code point of every run of ten decimal digits (category Nd,
    Unicode 14.0, CPython 3.11): the class [\d] of [re], and the digits
    accepted by [int] and [float]. *)
Definition decimal_zeros : list N :=
  [0x30; 0x660; 0x6f0; 0x7c0; 0x966; 0x9e6; 0xa66; 0xae6; 0xb66; 0xbe6; 0xc66;
   0xce6; 0xd66; 0xde6; 0xe50; 0xed0; 0xf20; 0x1040; 0x1090; 0x17e0; 0x1810;
   0x1946; 0x19d0; 0x1a80; 0x1a90; 0x1b50; 0x1bb0; 0x1c40; 0x1c50; 0xa620;
   0xa8d0; 0xa900; 0xa9d0; 0xa9f0; 0xaa50; 0xabf0; 0xff10; 0x104a0; 0x10d30;
   0x11066; 0x110f0; 0x11136; 0x111d0; 0x112f0; 0x11450; 0x114d0; 0x11650;
   0x116c0; 0x11730; 0x118e0; 0x11950; 0x11c50; 0x11d50; 0x11da0; 0x16a60;
   0x16ac0; 0x16b50; 0x1d7ce; 0x1d7d8; 0x1d7e2; 0x1d7ec; 0x1d7f6; 0x1e140;
   0x1e2f0; 0x1e950; 0x1fbf0]%N.

Fixpoint decimal_in (zs : list N) (c : codepoint) : option N :=
  match zs with
  | [] => None
  | z :: zs' => if ((z <=? c) && (c <? z + 10))%N then Some (c - z)%N
                else decimal_in zs' c
  end.

(** The decimal value of a code point, when it is a decimal digit. *)
Definition decimal_value (c : codepoint) : option N := decimal_in decimal_zeros c.

Definition is_digit (c : codepoint) : bool :=
  match decimal_value c with Some _ => true | None => false end.

Fixpoint drop_while (p : codepoint -> bool) (s : text) : text :=
  match s with
  | [] => []
  | c :: s' => if p c then drop_while p s' else s
  end.

Fixpoint take_while (p : codepoint -> bool) (s : text) : text :=
  match s with
  | [] => []
  | c :: s' => if p c then c :: take_while p s' else []
  end.

(** [str.strip()] *)
Definition strip (s : text) : text :=
  rev (drop_while is_space (rev (drop_while is_space s))).

Fixpoint starts_with (pre s : text) : bool :=
  match pre, s with
  | [], _ => true
  | x :: pre', y :: s' => (x =? y)%N && starts_with pre' s'
  | _ :: _, [] => false
  end.

(** [sub in s] *)
Fixpoint contains (sub s : text) : bool :=
  starts_with sub s ||
  match s with
  | [] => false
  | _ :: s' => contains sub s'
  end.

(** [s.replace(old, new)]: occurrences of [old] are replaced from left to
    right without overlap; [skip] counts the code points of an occurrence
    still to be passed over. *)
Fixpoint replace_from (old new s : text) (skip : nat) : text :=
  match s with
  | [] => []
  | c :: s' =>
      match skip with
      | S n => replace_from old new s' n
      | O => if starts_with old s
             then new ++ replace_from old new s' (Nat.pred (List.length old))
             else c :: replace_from old new s' O
      end
  end.

Definition replace (old new s : text) : text :=
  match old with
  | [] => flat_map (fun c => new ++ [c]) s ++ new
  | _ => replace_from old new s O
  end.

(** [str.upper] restricted to the letters of ASCII: what [str.upper] does on
    a text whose cased letters are all ASCII.  The functions below take the
    interpreter's case mapping as a parameter; this instance runs them. *)
Definition upper_ascii (s : text) : text :=
  map (fun c => if ((97 <=? c) && (c <=? 122))%N then (c - 32)%N else c) s.

(** [sep.join(parts)] *)
Fixpoint join (sep : text) (parts : list text) : text :=
  match parts with
  | [] => []
  | [p] => p
  | p :: rest => p ++ sep ++ join sep rest
  end.

Fixpoint of_uint (d : Decimal.uint) : text :=
  match d with
  | Decimal.Nil => []
  | Decimal.D0 d' => 48%N :: of_uint d'
  | Decimal.D1 d' => 49%N :: of_uint d'
  | Decimal.D2 d' => 50%N :: of_uint d'
  | Decimal.D3 d' => 51%N :: of_uint d'
  | Decimal.D4 d' => 52%N :: of_uint d'
  | Decimal.D5 d' => 53%N :: of_uint d'
  | Decimal.D6 d' => 54%N :: of_uint d'
  | Decimal.D7 d' => 55%N :: of_uint d'
  | Decimal.D8 d' => 56%N :: of_uint d'
  | Decimal.D9 d' => 57%N :: of_uint d'
  end.

(** [str(z)] for an [int]. *)
Definition of_int (z : Z) : text :=
  if z <? 0 then 45%N :: of_uint (N.to_uint (Z.to_N (- z)))
  else of_uint (N.to_uint (Z.to_N z)).

(** Value of a run of decimal digits read from the left, [None] when a
    code point is not a digit. *)
Fixpoint digits_value (acc : N) (s : text) : option N :=
  match s with
  | [] => Some acc
  | c :: s' =>
      match decimal_value c with
      | Some v => digits_value (acc * 10 + v)%N s'
      | None => None
      end
  end.

(** [int(s)] on a captured run of digits: [None] stands for [ValueError].
    Only captures of [\d] repetitions reach it, so the sign, blank and
    underscore forms of [int] are left out. *)
Definition to_int (s : text) : option Z :=
  match s with
  | [] => None
  | _ => option_map Z.of_N (digits_value 0%N s)
  end.

End Text.

Definition u := Text.u.

(** The code point of a one-character literal. *)
Definition chr (s : string) : codepoint := hd 0%N (u s).

(** ** Regular expressions

    The fragment of [re] the program uses: literals, classes, greedy
    bounded or unbounded repetition of a class, greedy optional parts,
    concatenation and capturing groups.  [matches r s] lists every way
    [r] matches a prefix of [s], in the order a backtracking matcher
    tries them; an entry is (matched text, remaining text, captures). *)

Module Re.

Inductive regex :=
| RChar (c : codepoint)
| RSet (p : codepoint -> bool)
| RRep (p : codepoint -> bool) (lo : nat) (hi : option nat)
| ROpt (r : regex)
| RCat (r1 r2 : regex)
| RGroup (r : regex).

Definition result : Type := text * text * list text.

Definition can_take (hi : option nat) : bool :=
  match hi with Some O => false | _ => true end.

Fixpoint rep_matches (p : codepoint -> bool) (lo : nat) (hi : option nat)
    (s : text) : list (text * text) :=
  let stop := match lo with O => [([], s)] | S _ => [] end in
  match s with
  | c :: s' =>
      if p c && can_take hi
      then map (fun wr => (c :: fst wr, snd wr))
               (rep_matches p (Nat.pred lo) (option_map Nat.pred hi) s') ++ stop
      else stop
  | [] => stop
  end.

Fixpoint matches (r : regex) (s : text) : list result :=
  match r with
  | RChar c =>
      match s with
      | x :: s' => if (x =? c)%N then [([x], s', [])] else []
      | [] => []
      end
  | RSet p =>
      match s with
      | x :: s' => if p x then [([x], s', [])] else []
      | [] => []
      end
  | RRep p lo hi => map (fun wr => (fst wr, snd wr, [])) (rep_matches p lo hi s)
  | ROpt r1 => matches r1 s ++ [([], s, [])]
  | RCat r1 r2 =>
      flat_map (fun m1 : result =>
                  let '(w1, s1, g1) := m1 in
                  map (fun m2 : result =>
                         let '(w2, s2, g2) := m2 in (w1 ++ w2, s2, g1 ++ g2))
                      (matches r2 s1))
               (matches r1 s)
  | RGroup r1 =>
      map (fun m : result => let '(w, s1, g) := m in (w, s1, w :: g)) (matches r1 s)
  end.

(** [re.match]: the first alternative at the start of the text. *)
Definition match_here (r : regex) (s : text) : option result :=
  match matches r s with
  | m :: _ => Some m
  | [] => None
  end.

(** [re.search]: the first position where the pattern matches. *)
Fixpoint search (r : regex) (s : text) : option result :=
  match match_here r s with
  | Some m => Some m
  | None => match s with
            | [] => None
            | _ :: s' => search r s'
            end
  end.

Definition groups (m : result) : list text := snd m.
Definition matched (m : result) : text := fst (fst m).

(** [re.findall] for a pattern with several groups: the captures of the
    matches found from left to right without overlap. [skip] counts the
    code points of the last match still to be passed over. *)
Fixpoint findall_from (r : regex) (s : text) (skip : nat) : list (list text) :=
  match skip with
  | S n => match s with
           | [] => []
           | _ :: s' => findall_from r s' n
           end
  | O =>
      match match_here r s with
      | Some m =>
          groups m :: match s with
                      | [] => []
                      | _ :: s' => findall_from r s' (Nat.pred (List.length (matched m)))
                      end
      | None => match s with
                | [] => []
                | _ :: s' => findall_from r s' O
                end
      end
  end.

Definition findall (r : regex) (s : text) : list (list text) := findall_from r s O.

(** [re.split] for a pattern that matches no empty text: the pieces
    between the matches. [cur] is the piece being read, reversed. *)
Fixpoint split_from (r : regex) (s : text) (skip : nat) (cur : text) : list text :=
  match s with
  | [] => [rev cur]
  | c :: s' =>
      match skip with
      | S n => split_from r s' n cur
      | O =>
          match match_here r s with
          | Some m =>
              match List.length (matched m) with
              | O => split_from r s' O (c :: cur)
              | S n => rev cur :: split_from r s' n []
              end
          | None => split_from r s' O (c :: cur)
          end
      end
  end.

Definition split (r : regex) (s : text) : list text := split_from r s O [].

End Re.

Import Re.

(** ** Exceptions *)

Inductive exn := ValueError | KeyError | OverflowError.

Inductive py (A : Type) :=
| Return (a : A)
| Raise (e : exn).
Arguments Return {A} a.
Arguments Raise {A} e.

#[global] Instance py_ret : MRet py := fun A a => Return a.
#[global] Instance py_bind : MBind py := fun A B k c =>
  match c with
  | Return a => k a
  | Raise e => Raise e
  end.

(** [try: c  except ValueError: h] *)
Definition try_except {A} (c : py A) (h : py A) : py A :=
  match c with
  | Return a => Return a
  | Raise ValueError => h
  | Raise e => Raise e
  end.

(** [int(s)] as a computation. *)
Definition int (s : text) : py Z :=
  match Text.to_int s with
  | Some z => Return z
  | None => Raise ValueError
  end.

(** ** Calendar dates: [datetime.datetime] with the time of day at zero *)

Record datetime := mkdatetime { year : Z; month : Z; day : Z }.

Definition is_leap (y : Z) : bool :=
  (y mod 4 =? 0) && (negb (y mod 100 =? 0) || (y mod 400 =? 0)).

Definition days_in_month (y m : Z) : Z :=
  if (m =? 2) && is_leap y then 29
  else nth (Z.to_nat m) [0; 31; 28; 31; 30; 31; 30; 31; 31; 30; 31; 30; 31] 0.

Definition days_before_year (y : Z) : Z :=
  let y1 := y - 1 in y1 * 365 + y1 / 4 - y1 / 100 + y1 / 400.

Definition days_before_month (y m : Z) : Z :=
  nth (Z.to_nat m) [0; 0; 31; 59; 90; 120; 151; 181; 212; 243; 273; 304; 334] 0
  + (if (2 <? m) && is_leap y then 1 else 0).

Definition toordinal (dt : datetime) : Z :=
  days_before_year (year dt) + days_before_month (year dt) (month dt) + day dt.

Definition valid_date (y m d : Z) : bool :=
  (1 <=? y) && (y <=? 9999) && (1 <=? m) && (m <=? 12) && (1 <=? d)
  && (d <=? days_in_month y m).

(** The constructor [datetime(y, m, d)]: [ValueError] outside the calendar. *)
Definition datetime_new (y m d : Z) : py datetime :=
  if valid_date y m d then Return (mkdatetime y m d) else Raise ValueError.

(** [(a - b).days] *)
Definition days_between (a b : datetime) : Z := toordinal a - toordinal b.

Definition datetime_leb (a b : datetime) : bool :=
  (year a <? year b)
  || (year a =? year b) && ((month a <? month b)
                           || (month a =? month b) && (day a <=? day b)).

(** ** DateLexicon *)

(** [(\d{4})年(\d{1,2})月(\d{1,2})日] *)
Definition cn_date_re : regex :=
  RCat (RGroup (RRep Text.is_digit 4 (Some 4%nat)))
  (RCat (RChar (chr "年"))
  (RCat (RGroup (RRep Text.is_digit 1 (Some 2%nat)))
  (RCat (RChar (chr "月"))
  (RCat (RGroup (RRep Text.is_digit 1 (Some 2%nat)))
        (RChar (chr "日")))))).

(** [s or ""] for an optional text. *)
Definition or_empty (s : option text) : text := default [] s.

(** [y, m, d = map(int, groups)]; unpacking another number of values
    raises [ValueError] too. *)
Definition ymd_of_groups (g : list text) : py (Z * Z * Z) :=
  match g with
  | [gy; gm; gd] =>
      y ← int gy; m ← int gm; d ← int gd; Return (y, m, d)
  | _ => Raise ValueError
  end.

Definition parse_cn_date (s : option text) : py (option datetime) :=
  match search cn_date_re (or_empty s) with
  | None => Return None
  | Some m =>
      '(y, mo, d) ← ymd_of_groups (groups m);
      try_except (dt ← datetime_new y mo d; Return (Some dt)) (Return None)
  end.

Definition parse_cn_date_range (txt : option text)
    : py (option datetime * option datetime) :=
  match findall cn_date_re (or_empty txt) with
  | [] => Return (None, None)
  | [p] =>
      '(y, m, d) ← ymd_of_groups p;
      dt ← datetime_new y m d;
      Return (Some dt, None)
  | p1 :: p2 :: _ =>
      '(y1, m1, d1) ← ymd_of_groups p1;
      dt1 ← datetime_new y1 m1 d1;
      '(y2, m2, d2) ← ymd_of_groups p2;
      dt2 ← datetime_new y2 m2 d2;
      Return (Some dt1, Some dt2)
  end.

Definition format_cn_date (dt : datetime) : text :=
  Text.of_int (year dt) ++ u "年" ++ Text.of_int (month dt) ++ u "月"
  ++ Text.of_int (day dt) ++ u "日".

(** ** Python values: float

    A [float] is an IEEE 754 binary64 number.  A finite one is kept as the
    rational it denotes (the two zeros are not told apart: both are false
    and compare equal); every operation rounds the exact result to the
    nearest representable number, ties to even. *)

Inductive float :=
| Finite (q : Q)
| Infinite (negative : bool)
| NaN.

Module Float.

(** Nearest integer to [n / d] for [0 < d], ties to even. *)
Definition round_half_even (n d : Z) : Z :=
  let q := n / d in
  let r := n mod d in
  if 2 * r <? d then q
  else if d <? 2 * r then q + 1
  else if Z.even q then q else q + 1.

(** Rounding of an exact rational to binary64: 53 significant bits,
    exponents down to the subnormal step 2^-1074, overflow to infinity. *)
Definition binary64 (q : Q) : float :=
  let n := Qnum q in
  let d := Z.pos (Qden q) in
  if n =? 0 then Finite 0
  else
    let a := Z.abs n in
    let e0 := Z.log2 a - Z.log2 d in
    let e := if (if 0 <=? e0 then d * 2 ^ e0 <=? a else d <=? a * 2 ^ (- e0))
             then e0 else e0 - 1 in
    let sh := Z.max (e - 52) (-1074) in
    let m := if 0 <=? sh then round_half_even a (d * 2 ^ sh)
             else round_half_even (a * 2 ^ (- sh)) d in
    if 1024 <=? Z.log2 m + sh then Infinite (n <? 0)
    else Finite (Qred (Qmake (Z.sgn n * m * 2 ^ Z.max sh 0)
                             (Z.to_pos (2 ^ Z.max (- sh) 0)))).

(** [float(z)] for an [int] within the range of a double. *)
Definition of_int (z : Z) : float := binary64 (inject_Z z).

(** [a / b] on [int]s, [b] not zero. *)
Definition div_int (a b : Z) : float := binary64 (Qmake a 1 / Qmake b 1).

Definition add (x y : float) : float :=
  match x, y with
  | Finite a, Finite b => binary64 (a + b)
  | NaN, _ | _, NaN => NaN
  | Infinite s, Finite _ => Infinite s
  | Finite _, Infinite s => Infinite s
  | Infinite s1, Infinite s2 => if Bool.eqb s1 s2 then Infinite s1 else NaN
  end.

Definition is_zero (x : float) : bool :=
  match x with
  | Finite q => Qnum q =? 0
  | _ => false
  end.

Definition is_negative (x : float) : bool :=
  match x with
  | Finite q => Qnum q <? 0
  | Infinite s => s
  | NaN => false
  end.

Definition mul (x y : float) : float :=
  match x, y with
  | Finite a, Finite b => binary64 (a * b)
  | NaN, _ | _, NaN => NaN
  | _, _ => if is_zero x || is_zero y then NaN
            else Infinite (xorb (is_negative x) (is_negative y))
  end.

(** [x >= n] and [x < n] against an exact bound. *)
Definition geb (x : float) (n : Q) : bool :=
  match x with
  | Finite q => Qle_bool n q
  | Infinite s => negb s
  | NaN => false
  end.

Definition ltb (x : float) (n : Q) : bool :=
  match x with
  | Finite q => negb (Qle_bool n q)
  | Infinite s => s
  | NaN => false
  end.

(** [round(x)]: nearest [int], ties to even. *)
Definition round (x : float) : py Z :=
  match x with
  | Finite q => Return (round_half_even (Qnum q) (Z.pos (Qden q)))
  | Infinite _ => Raise OverflowError
  | NaN => Raise ValueError
  end.

(** [float(s)] on a text of the shape [-?\d+(\.\d+)?]; [None] stands for
    [ValueError].  The exponent, blank and named forms of [float] are left
    out: only captures of that shape reach it. *)
Definition of_text (s : text) : option float :=
  let '(neg, body) := match s with
                      | 45%N :: r => (true, r)
                      | _ => (false, s)
                      end in
  let ip := Text.take_while Text.is_digit body in
  let rest := Text.drop_while Text.is_digit body in
  match ip with
  | [] => None
  | _ =>
      match Text.digits_value 0%N ip with
      | None => None
      | Some iv =>
          let sgn := if neg then (-1) else 1 in
          match rest with
          | [] => Some (binary64 (inject_Z (sgn * Z.of_N iv)))
          | 46%N :: fp =>
              match fp, Text.digits_value 0%N fp with
              | _ :: _, Some fv =>
                  let k := 10 ^ Z.of_nat (List.length fp) in
                  Some (binary64 (Qmake (sgn * (Z.of_N iv * k + Z.of_N fv)) (Z.to_pos k)))
              | _, _ => None
              end
          | _ => None
          end
      end
  end.

End Float.

(** ** TemperatureEstimator *)

Definition month_mean : gmap Z Z :=
  list_to_map [(1, -3); (2, 0); (3, 6); (4, 14); (5, 20); (6, 24); (7, 26);
               (8, 25); (9, 20); (10, 13); (11, 5); (12, -1)].

(** [d[k]] on a dict: [KeyError] when the key is missing. *)
Definition getitem `{Countable K} {V} (d : gmap K V) (k : K) : py V :=
  match d !! k with
  | Some v => Return v
  | None => Raise KeyError
  end.

Definition beijing_temp_guess_number (dt : option datetime) : py text :=
  match dt with
  | None => Return []
  | Some dt =>
      let month := month dt in
      let year := year dt in
      '(days_in_month, next_month) ←
        (if month =? 12 then
           a ← datetime_new (year + 1) 1 1;
           b ← datetime_new year 12 1;
           Return (days_between a b, 1)
         else
           a ← datetime_new year (month + 1) 1;
           b ← datetime_new year month 1;
           Return (days_between a b, month + 1));
      let frac := Float.div_int (day dt - 1) (Z.max (days_in_month - 1) 1) in
      mean ← getitem month_mean month;
      mean_next ← getitem month_mean next_month;
      mean' ← getitem month_mean month;
      let base := Float.add (Float.of_int mean)
                            (Float.mul frac (Float.of_int (mean_next - mean'))) in
      let wiggle := ((day dt * 37) mod 5) - 2 in
      n ← Float.round (Float.add base (Float.of_int wiggle));
      Return (Text.of_int n)
  end.

(** ** FieldExtractor: labels and the value after a label *)

Definition label_tokens : list text :=
  map u ["超声波探伤报告"; "编号"; "试验编号"; "委托编号"; "工程名称及"; "施工部位";
         "委托单位"; "施工单位"; "监理单位"; "构件名称"; "检测部位"; "材质"; "板厚";
         "仪器型号"; "试块"; "耦合剂"; "表面补偿"; "表面状况"; "执行处理"; "探头型号";
         "探伤日期"; "批准"; "审核"; "试验"; "检测单位"; "报告日期"; "检测单位名称"].

(** Truth of a [str]: it is not empty. *)
Definition nonempty (t : text) : bool :=
  match t with [] => false | _ => true end.

Definition is_label (txt : option text) : bool :=
  let t := Text.strip (or_empty txt) in
  negb (nonempty t) || existsb (fun tok => Text.contains tok t) label_tokens.

(** [enumerate(l)] *)
Definition enumerate {A} (l : list A) : list (nat * A) :=
  combine (seq 0 (List.length l)) l.

(** The loop [for k in range(j + 1, len(row_cells))] of [value_after_label],
    over the cells it visits. *)
Fixpoint first_value (cells : list (option text)) : option text :=
  match cells with
  | [] => None
  | c :: rest =>
      let t := Text.strip (or_empty c) in
      if nonempty t && negb (is_label (Some t)) then Some t
      else first_value rest
  end.

Definition value_after_label (row_cells : list (option text)) (label_sub : text)
    : option text :=
  let indices :=
    map fst (List.filter (fun it => Text.contains label_sub (or_empty (snd it)))
                         (enumerate row_cells)) in
  match indices with
  | [] => None
  | j :: _ => first_value (skipn (S j) row_cells)
  end.

(** ** The spreadsheet collaborator

    A template sheet is written by range address.  [put_value] writes the
    merge area of the first cell of the range, the range itself, or, when
    that fails, its first cell: in each case the value ends up at the
    address, which is all the model keeps. *)

Definition put_value (sheet : gmap string text) (rng : string) (value : text)
    : gmap string text :=
  <[rng := value]> sheet.

(** A data sheet is read cell by cell.  [cell_value r c] is [None] for an
    empty cell and otherwise the [str()] rendering of its value;
    [end_up_row c] is the row that [Cells(Rows.Count, c).End(xlUp).Row]
    answers for column [c]. *)
Record worksheet := mkworksheet {
  cell_value : Z -> Z -> option text;
  end_up_row : Z -> Z
}.

(** [range(a, b)] *)
Definition range (a b : Z) : list Z :=
  map (fun i => a + Z.of_nat i) (seq 0 (Z.to_nat (b - a))).

Section Cased.

(** [str.upper], the Unicode case mapping of the interpreter. *)
Variable str_upper : text -> text.

(** ** BasisCodeDispatcher *)

Definition normalize_code (s : option text) : text :=
  Text.replace (u "－") (u "-")
    (Text.replace (u "—") (u "-")
       (Text.replace (u " ") (u "") (str_upper (or_empty s)))).

Definition address_map : gmap text string :=
  list_to_map
    [(u "GB50205-2020",   "B12:B12"%string);
     (u "GB50661-2011",   "C12:C12"%string);
     (u "JG/T203-2007",   "D12:D12"%string);
     (u "GB/T50621-2010", "E12:E12"%string);
     (u "GB/T11345-2023", "F12:F12"%string);
     (u "GB/T29712-2023", "G12:G12"%string);
     (u "GB/T29711-2023", "H12:H12"%string)].

Definition basis_slots : list string :=
  ["B12:B12"; "C12:C12"; "D12:D12"; "E12:E12"; "F12:F12"; "G12:G12"; "H12:H12";
   "I12:J12"]%string.

Definition catch_all : string := "I12:J12".

(** [[、，,;；\s]+] *)
Definition basis_sep_re : regex :=
  RRep (fun c => existsb (N.eqb c) (u "、，,;；") || Text.is_space c) 1 None.

Definition basis_tokens (basis_str : text) : list text :=
  List.filter (fun t => nonempty (Text.strip t)) (split basis_sep_re basis_str).

(** The state of the dispatch loop: the sheet, [unknown_list] and [used]. *)
Record dispatch_state := mkdispatch {
  ds_sheet : gmap string text;
  ds_unknown : list text;
  ds_used : gset text
}.

(** [norm] of the dispatch loop: the code a token is looked up under. *)
Definition token_code (token : text) : text :=
  Text.replace (u "GBT") (u "GB/T") (normalize_code (Some token)).

Definition dispatch_token (st : dispatch_state) (token : text) : dispatch_state :=
  let norm := token_code token in
  match address_map !! norm with
  | Some addr =>
      if decide (norm ∈ ds_used st)
      then mkdispatch (ds_sheet st) (ds_unknown st ++ [Text.strip token]) (ds_used st)
      else mkdispatch (put_value (ds_sheet st) addr (Text.strip token))
                      (ds_unknown st) ({[norm]} ∪ ds_used st)
  | None =>
      mkdispatch (ds_sheet st) (ds_unknown st ++ [Text.strip token]) (ds_used st)
  end.

Definition dispatch_loop (sheet : gmap string text) (tokens : list text)
    : dispatch_state :=
  fold_left dispatch_token tokens (mkdispatch sheet [] ∅).

Definition clear_slots (sheet : gmap string text) : gmap string text :=
  fold_left (fun sh addr => put_value sh addr (u "")) basis_slots sheet.

Definition write_detection_basis (sheet : gmap string text) (basis_str : option text)
    : gmap string text :=
  let sheet := clear_slots sheet in
  if negb (nonempty (or_empty basis_str)) then sheet
  else
    let st := dispatch_loop sheet (basis_tokens (or_empty basis_str)) in
    match ds_unknown st with
    | [] => ds_sheet st
    | _ => put_value (ds_sheet st) catch_all (Text.join (u ", ") (ds_unknown st))
    end.

(** ** ProbeSelector *)

Definition probe_rule : Type := Q * Q * list text.

Definition PROBE_RULES : gmap text (list probe_rule) :=
  list_to_map
    [(u "D",
      [(8, 15, map u ["A2.5P9×9A70°"]);
       (15, 25, map u ["A2.5P9×9A70°"]);
       (25, 40, map u ["A2.5P9×9A70°"; "A2.5P9×9A45°"]);
       (40, 50, map u ["A2.5P9×9A60°"; "A2.5P9×9A45°"]);
       (50, 75, map u ["A2.5P13×13A70°"; "A2.5P13×13A45°"]);
       (75, 100, map u ["A2.5P13×13A60°"; "A2.5P13×13A45°"]);
       (100, 1000000000, map u ["A2.5P13×13A60°"; "A2.5P13×13A45°"])]%Q);
     (u "JD",
      [(8, 15, map u ["A2.5P9×9A70°"]);
       (15, 25, map u ["A2.5P9×9A70°"]);
       (25, 40, map u ["A2.5P9×9A60°"; "A2.5P9×9A45°"]);
       (40, 50, map u ["A2.5P9×9A70°"; "A2.5P9×9A60°"]);
       (50, 75, map u ["A2.5P13×13A70°"; "A2.5P13×13A60°"; "A2.5P13×13A45°"]);
       (75, 100, map u ["A2.5P13×13A70°"; "A2.5P13×13A60°"; "A2.5P13×13A45°"]);
       (100, 1000000000,
        map u ["A2.5P9×9A70°"; "A2.5P13×13A70°"; "A2.5P13×13A60°"; "A2.5P13×13A45°"])]%Q)].

(** [(-?\d+(?:\.\d+)?)] *)
Definition number_re : regex :=
  RGroup (RCat (ROpt (RChar (chr "-")))
         (RCat (RRep Text.is_digit 1 None)
               (ROpt (RCat (RChar (chr ".")) (RRep Text.is_digit 1 None))))).

Definition _to_float (x : option text) : option float :=
  match x with
  | None => None
  | Some x =>
      let s := Text.strip x in
      match search number_re s with
      | None => None
      | Some m =>
          match groups m with
          | g :: _ => Float.of_text g
          | [] => None
          end
      end
  end.

Definition _pick_weld_type (cell_c cell_alt : option text) : option text :=
  if existsb (fun c => Text.contains (u "JD") (str_upper (or_empty c)))
             [cell_c; cell_alt]
  then Some (u "JD")
  else if existsb (fun c => Text.contains (u "D") (str_upper (or_empty c)))
                  [cell_c; cell_alt]
  then Some (u "D")
  else None.

(** [a or b] on optional floats: [None] and zero are false. *)
Definition float_or (a b : option float) : option float :=
  match a with
  | Some x => if Float.is_zero x then b else Some x
  | None => b
  end.

(** The inner loop over a rule table: the models of the first interval
    with [low <= thickness < high], if any. *)
Fixpoint match_rule (rules : list probe_rule) (thickness : float)
    : option (list text) :=
  match rules with
  | [] => None
  | (low, high, models) :: rest =>
      if Float.geb thickness low && Float.ltb thickness high then Some models
      else match_rule rest thickness
  end.

(** [picked] and [seen] *)
Definition picks : Type := list text * gset text.

Definition add_models (st : picks) (models : list text) : picks :=
  fold_left (fun st m => if decide (m ∈ snd st) then st
                         else (fst st ++ [m], {[m]} ∪ snd st))
            models st.

(** The thickness read for row [r]: column D, then column E. *)
Definition row_thickness (ws : worksheet) (r : Z) : option float :=
  float_or (_to_float (cell_value ws r 4)) (_to_float (cell_value ws r 5)).

Definition scan_row (ws : worksheet) (st : picks) (r : Z) : picks :=
  match _pick_weld_type (cell_value ws r 3) None with
  | None => st
  | Some weld_type =>
      match PROBE_RULES !! weld_type with
      | None => st
      | Some rules =>
          match row_thickness ws r with
          | None => st
          | Some thickness =>
              match match_rule rules thickness with
              | Some models => add_models st models
              | None => st
              end
          end
      end
  end.

Definition scan_segment (ws : worksheet) (last_row : Z) (st : picks) (seg : Z * Z)
    : picks :=
  let s := Z.max (fst seg) 2 in
  let e := Z.min (snd seg) last_row in
  fold_left (scan_row ws) (range s (e + 1)) st.

(** The data file is [None] when the path does not exist. *)
Definition choose_probes_for_segments (data_excel : option worksheet)
    (segments : option (list (Z * Z))) : list text :=
  match data_excel with
  | None => []
  | Some ws =>
      let last_row := end_up_row ws 2 in
      let segments := default [(2, last_row)] segments in
      let st := fold_left (scan_segment ws last_row) segments ([], ∅) in
      firstn 8 (fst st)
  end.

End Cased.

(** ** DaySegmenter *)

(** [(\d{1,2})\s*[./月]\s*(\d{1,2})] *)
Definition marker_re : regex :=
  RCat (RGroup (RRep Text.is_digit 1 (Some 2%nat)))
  (RCat (RRep Text.is_space 0 None)
  (RCat (RSet (fun c => existsb (N.eqb c) (u "./月")))
  (RCat (RRep Text.is_space 0 None)
        (RGroup (RRep Text.is_digit 1 (Some 2%nat)))))).

(** The marker read in one cell of column F: [None] when the cell is empty
    or its text does not match, else the month and the day. *)
Definition marker_of (val : option text) : py (option (Z * Z)) :=
  match val with
  | None => Return None
  | Some v =>
      let txt := Text.replace (u "。") (u ".")
                   (Text.replace (u "．") (u ".") (Text.strip v)) in
      match search marker_re txt with
      | None => Return None
      | Some m =>
          match groups m with
          | [g1; g2] => month ← int g1; day ← int g2; Return (Some (month, day))
          | _ => Raise ValueError
          end
      end
  end.

(** [markers]: (row, month, day) for the marker rows among [rows]. *)
Fixpoint scan_markers (ws : worksheet) (rows : list Z) : py (list (Z * Z * Z)) :=
  match rows with
  | [] => Return []
  | r :: rest =>
      mk ← marker_of (cell_value ws r 6);
      tl ← scan_markers ws rest;
      Return (match mk with
              | Some (month, day) => (r, month, day) :: tl
              | None => tl
              end)
  end.

(** [ranges_per_day]: the rows from the previous marker to this one. *)
Fixpoint split_ranges (prev_row : Z) (markers : list (Z * Z * Z))
    : list ((Z * Z) * (Z * Z)) :=
  match markers with
  | [] => []
  | (row, month, day) :: rest =>
      ((month, day), (prev_row + 1, row)) :: split_ranges row rest
  end.

(** [d.setdefault(key, []).append(rng)] on a dict that keeps the order in
    which its keys were first inserted. *)
Fixpoint setdefault_append (d : list ((Z * Z) * list (Z * Z))) (key : Z * Z)
    (rng : Z * Z) : list ((Z * Z) * list (Z * Z)) :=
  match d with
  | [] => [(key, [rng])]
  | (k, rs) :: d' =>
      if decide (k = key) then (k, rs ++ [rng]) :: d'
      else (k, rs) :: setdefault_append d' key rng
  end.

Definition group_by_day (ranges_per_day : list ((Z * Z) * (Z * Z)))
    : list ((Z * Z) * list (Z * Z)) :=
  fold_left (fun d kr => setdefault_append d (fst kr) (snd kr)) ranges_per_day [].

(** The loop that builds [out]: a day that is no calendar date is left out. *)
Fixpoint dated (year_hint : Z) (d : list ((Z * Z) * list (Z * Z)))
    : py (list (datetime * list (Z * Z))) :=
  match d with
  | [] => Return []
  | ((month, day), ranges) :: d' =>
      o ← try_except (dt ← datetime_new year_hint month day; Return (Some dt))
                     (Return None);
      tl ← dated year_hint d';
      Return (match o with
              | Some dt => (dt, ranges) :: tl
              | None => tl
              end)
  end.

(** [list.sort(key=lambda x: x[0])]: a stable sort on the date. *)
Fixpoint insert_by_date (x : datetime * list (Z * Z))
    (l : list (datetime * list (Z * Z))) : list (datetime * list (Z * Z)) :=
  match l with
  | [] => [x]
  | y :: l' => if datetime_leb (fst x) (fst y) then x :: l
               else y :: insert_by_date x l'
  end.

Definition sort_by_date (l : list (datetime * list (Z * Z)))
    : list (datetime * list (Z * Z)) :=
  fold_right insert_by_date [] l.

(** [now_year] is the year [datetime.now()] answers; the data file is
    [None] when the path does not exist. *)
Definition parse_day_ranges_from_source (now_year : Z) (data_excel : option worksheet)
    (year_hint : option Z) : py (list (datetime * list (Z * Z))) :=
  match data_excel with
  | None => Return []
  | Some sheet =>
      let last_row := end_up_row sheet 6 in
      if last_row <? 2 then Return []
      else
        markers ← scan_markers sheet (range 2 (last_row + 1));
        match markers with
        | [] => Return []
        | _ =>
            let ranges_per_day := split_ranges 1 markers in
            let day_to_ranges := group_by_day ranges_per_day in
            let year_hint := default now_year year_hint in
            out ← dated year_hint day_to_ranges;
            Return (sort_by_date out)
        end
  end.

(** ** Notions used by the statements *)

(** A non-empty run of decimal digits: what a group of the date and marker
    patterns captures. *)
Definition digit_run (g : text) : Prop :=
  g <> [] /\ forallb Text.is_digit g = true.

(** The decimal writing of [n] has between [len_lo] and [len_hi] digits and
    reads back as [n]. *)
Definition written_ok (len_lo len_hi : nat) (n : Z) : bool :=
  let s := Text.of_int n in
  forallb Text.is_digit s && (len_lo <=? List.length s)%nat
  && (List.length s <=? len_hi)%nat
  && match Text.to_int s with Some z => z =? n | None => false end.


(** A sheet of one data row: weld type, primary and secondary thickness. *)
Definition one_row_sheet (c d e : option text) : worksheet :=
  mkworksheet (fun r col => if r =? 2 then
                              if col =? 3 then c
                              else if col =? 4 then d
                              else if col =? 5 then e
                              else if col =? 2 then Some (u "1")
                              else None
                            else None)
              (fun _ => 2).

(** A marker column with "3.31" at row 5 and "4/4" at row 9, and its last
    filled row at 9. *)
Definition two_marker_sheet : worksheet :=
  mkworksheet (fun r c => if c =? 6 then
                            if r =? 5 then Some (u "3.31")
                            else if r =? 9 then Some (u "4/4")
                            else None
                          else if c =? 2 then Some (u "1")
                          else None)
              (fun c => if c =? 6 then 9 else 12).

(** * Further functions of the program *)

(** ** DateLexicon: the first date of a text *)

(** [(\d{4}年\d{1,2}月\d{1,2}日)] *)
Definition first_date_re : regex :=
  RGroup
    (RCat (RRep Text.is_digit 4 (Some 4%nat))
    (RCat (RChar (chr "年"))
    (RCat (RRep Text.is_digit 1 (Some 2%nat))
    (RCat (RChar (chr "月"))
    (RCat (RRep Text.is_digit 1 (Some 2%nat))
          (RChar (chr "日"))))))).

(** [match.group(1)] of a pattern that has a group. *)
Definition group1 (m : result) : text := hd [] (groups m).

Definition first_date_str (date_range : option text) : text :=
  match search first_date_re (or_empty date_range) with
  | Some m => group1 m
  | None => Text.strip (or_empty date_range)
  end.

(** ** Notions used by the further statements *)

(** A pattern without its capturing groups. *)
Fixpoint erase (r : regex) : regex :=
  match r with
  | RGroup r1 => erase r1
  | ROpt r1 => ROpt (erase r1)
  | RCat r1 r2 => RCat (erase r1) (erase r2)
  | _ => r
  end.

(** The text of a written date: year, month and day in digits between the
    three date characters. *)
Definition written_date (ys ms ds : text) : text :=
  ys ++ u "年" ++ ms ++ u "月" ++ ds ++ u "日".

Definition date_digits (ys ms ds : text) : Prop :=
  forallb Text.is_digit ys = true /\ List.length ys = 4%nat /\
  forallb Text.is_digit ms = true /\ (1 <= List.length ms <= 2)%nat /\
  forallb Text.is_digit ds = true /\ (1 <= List.length ds <= 2)%nat.


(** The estimate as a function of the month, the day and the length of the
    month: what [beijing_temp_guess_number] computes once the length of the
    month is known. *)
Definition estimate_number (month day days_in_month : Z) : py Z :=
  let next_month := if month =? 12 then 1 else month + 1 in
  let frac := Float.div_int (day - 1) (Z.max (days_in_month - 1) 1) in
  mean ← getitem month_mean month;
  mean_next ← getitem month_mean next_month;
  mean' ← getitem month_mean month;
  let base := Float.add (Float.of_int mean)
                        (Float.mul frac (Float.of_int (mean_next - mean'))) in
  let wiggle := ((day * 37) mod 5) - 2 in
  Float.round (Float.add base (Float.of_int wiggle)).

Definition estimate_within (lo hi : Z) (mdl : Z * Z * Z) : bool :=
  let '(m, d, l) := mdl in
  match estimate_number m d l with
  | Return n => (lo <=? n) && (n <=? hi)
  | Raise _ => false
  end.


(** What the selector keeps true of [picked] and [seen]: no model twice,
    [seen] is the set of the models picked, and every model picked
    satisfies [J]. *)
Definition picks_ok (J : text -> Prop) (st : picks) : Prop :=
  NoDup (fst st) /\ (forall m, m ∈ snd st <-> In m (fst st)) /\
  (forall m, In m (fst st) -> J m).

(** Model [m] is selected by data row [r] of the sheet: the row has a weld
    type with a rule table, a thickness, and [m] is a model of the
    interval the thickness falls in. *)
Definition selected_by (str_upper : text -> text) (ws : worksheet) (r : Z) (m : text)
    : Prop :=
  exists weld rules thickness models,
    _pick_weld_type str_upper (cell_value ws r 3) None = Some weld /\
    PROBE_RULES !! weld = Some rules /\
    row_thickness ws r = Some thickness /\
    match_rule rules thickness = Some models /\
    In m models.


(** The row of a marker. *)
Definition marker_row (m : Z * Z * Z) : Z := fst (fst m).

(** Rows that go up from [prev], each one after the one before. *)
Fixpoint increasing (prev : Z) (rows : list Z) : Prop :=
  match rows with
  | [] => True
  | r :: rest => prev < r /\ increasing r rest
  end.

(** Row [r] lies in a range of an entry of the segmenter's result. *)
Definition row_in_day (out : list (datetime * list (Z * Z))) (r : Z)
    (dt : datetime) (s e : Z) : Prop :=
  exists ranges, In (dt, ranges) out /\ In (s, e) ranges /\ s <= r <= e.

(** Row [r] of the sheet carries a marker in column F. *)
Definition is_marker_row (ws : worksheet) (r : Z) (mo d : Z) : Prop :=
  2 <= r <= end_up_row ws 6 /\ marker_of (cell_value ws r 6) = Return (Some (mo, d)).


(** ** FieldExtractor: the fields of a report *)

(** What the document collaborator gives: the texts of the paragraphs and,
    for every table, the texts of the cells of its rows. *)
Record document := mkdocument {
  doc_paragraphs : list text;
  doc_tables : list (list (list text))
}.

(** [s.split(sep)] for a separator that is not empty; [skip] counts the
    code points of a separator still to be passed over and [cur] is the
    piece being read, reversed. *)
Fixpoint split_on (sep s : text) (skip : nat) (cur : text) : list text :=
  match s with
  | [] => [rev cur]
  | c :: s' =>
      match skip with
      | S n => split_on sep s' n cur
      | O => if Text.starts_with sep s
             then rev cur :: split_on sep s' (Nat.pred (List.length sep)) []
             else split_on sep s' O (c :: cur)
      end
  end.

Definition str_split (sep s : text) : list text := split_on sep s O [].

(** A pattern that is the text [s] followed by the pattern [k]. *)
Definition lit_then (s : text) (k : regex) : regex :=
  fold_right (fun c r => RCat (RChar c) r) k s.

(** A pattern that is the text [c :: s]. *)
Fixpoint literal (c : codepoint) (s : text) : regex :=
  match s with
  | [] => RChar c
  | c' :: s' => RCat (RChar c) (literal c' s')
  end.

Definition one_of (chars : text) (c : codepoint) : bool := existsb (N.eqb c) chars.

(** [本次检测共测试([一二])级焊缝] *)
Definition grade_re : regex :=
  lit_then (u "本次检测共测试")
    (RCat (RGroup (RSet (one_of (u "一二")))) (literal (chr "级") (u "焊缝"))).

(** [探伤日期[:：]?\s*([0-9年月日～\-\s]+)] *)
Definition date_field_re : regex :=
  lit_then (u "探伤日期")
    (RCat (ROpt (RSet (one_of (u ":："))))
    (RCat (RRep Text.is_space 0 None)
          (RGroup (RRep (fun c => (48 <=? c)%N && (c <=? 57)%N
                                  || one_of (u "年月日～-") c || Text.is_space c)
                        1 None)))).

(** [执行处理[:：]?\s*([A-Za-z0-9/—、，,;；\s-]+)] *)
Definition basis_field_re : regex :=
  lit_then (u "执行处理")
    (RCat (ROpt (RSet (one_of (u ":："))))
    (RCat (RRep Text.is_space 0 None)
          (RGroup (RRep (fun c => (65 <=? c)%N && (c <=? 90)%N
                                  || (97 <=? c)%N && (c <=? 122)%N
                                  || (48 <=? c)%N && (c <=? 57)%N
                                  || one_of (u "/—、，,;；-") c || Text.is_space c)
                        1 None)))).

(** The fields read from the tables: (target, label). *)
Definition table_fields : list (text * text) :=
  [(u "委托编号", u "委托编号");
   (u "工程名称", u "工程名称及");
   (u "检测部位", u "检测部位");
   (u "材质", u "材质");
   (u "探头型号", u "探头型号");
   (u "探伤日期", u "探伤日期");
   (u "执行处理", u "执行处理")].

(** The body of the loop over the fields, for one row. *)
Definition extract_field (cells : list text) (result : gmap text text)
    (field : text * text) : gmap text text :=
  match result !! fst field with
  | Some _ => result
  | None =>
      match value_after_label (map Some cells) (snd field) with
      | Some v => if nonempty v then <[fst field := v]> result else result
      | None => result
      end
  end.

(** The body of the loop over the rows: [table_texts] and [result]. *)
Definition extract_row (st : list text * gmap text text) (cells : list text)
    : list text * gmap text text :=
  (fst st ++ List.filter nonempty (map Text.strip cells),
   fold_left (extract_field cells) table_fields (snd st)).

Definition extract_tables (doc : document) : list text * gmap text text :=
  fold_left extract_row (concat (doc_tables doc)) ([], ∅).

(** Truth of [result.get(key)]: the key is there with a text that is not
    empty. *)
Definition has_field (result : gmap text text) (key : text) : bool :=
  match result !! key with
  | Some v => nonempty v
  | None => false
  end.

Definition add_grade (full_text : text) (result : gmap text text) : gmap text text :=
  match search grade_re full_text with
  | Some m => <[u "质量等级" := group1 m ++ u "级"]> result
  | None =>
      if Text.contains (u "一级") full_text then <[u "质量等级" := u "一级"]> result
      else if Text.contains (u "二级") full_text then <[u "质量等级" := u "二级"]> result
      else result
  end.

Definition add_date (full_text : text) (result : gmap text text) : gmap text text :=
  if has_field result (u "探伤日期") then result
  else match search date_field_re full_text with
       | Some m => <[u "探伤日期" := Text.strip (group1 m)]> result
       | None => result
       end.

Definition cut_date (result : gmap text text) : gmap text text :=
  if has_field result (u "探伤日期")
  then <[u "探伤日期" := first_date_str (result !! u "探伤日期")]> result
  else result.

Definition add_basis (full_text : text) (result : gmap text text) : gmap text text :=
  if has_field result (u "执行处理") then result
  else match search basis_field_re full_text with
       | Some m => <[u "执行处理" := Text.strip (group1 m)]> result
       | None => result
       end.

Definition add_raw_date (full_text : text) (result : gmap text text)
    : gmap text text :=
  <[u "_原始探伤日期串" :=
      if Text.contains (u "探伤日期") full_text
      then List.last (str_split (u "探伤日期") full_text) []
      else default [] (result !! u "探伤日期")]> result.

Definition extract_data_from_word (doc : document) : gmap text text :=
  let paragraph_texts := List.filter nonempty (map Text.strip (doc_paragraphs doc)) in
  let '(table_texts, result) := extract_tables doc in
  let full_text := Text.join [10%N] (table_texts ++ paragraph_texts) in
  add_raw_date full_text
    (add_basis full_text (cut_date (add_date full_text (add_grade full_text result)))).

(** The keys a field map can hold. *)
Definition field_keys : list text :=
  map u ["委托编号"; "工程名称"; "检测部位"; "材质"; "探头型号"; "探伤日期"; "执行处理";
         "质量等级"; "_原始探伤日期串"].

(** The value of the first row, in the order of the document, in which
    [value_after_label] finds one for the label. *)
Fixpoint first_hit (label : text) (rows : list (list text)) : option text :=
  match rows with
  | [] => None
  | cells :: rest =>
      match value_after_label (map Some cells) label with
      | Some v => Some v
      | None => first_hit label rest
      end
  end.


(** A pattern has no capturing group. *)
Fixpoint groupless (r : regex) : bool :=
  match r with
  | RGroup _ => false
  | ROpt r1 => groupless r1
  | RCat r1 r2 => groupless r1 && groupless r2
  | _ => true
  end.

(** What a row yields for a label: the value after the label, when there
    is one. *)
Definition row_hit (cells : list text) (label : text) : option text :=
  match value_after_label (map Some cells) label with
  | Some v => if nonempty v then Some v else None
  | None => None
  end.


(** ** ReportAssembler: the basic-information sheet

    [fill_sheet_basic] takes the sheet of the workbook named for the basic
    information, or else its first sheet, and writes it by range address,
    through [put_value] or through [Range(addr).Value]; the addresses it
    writes denote cell ranges that do not overlap, so the model takes the
    sheet itself and keeps, as for [put_value], the value last written at
    each address. *)

(** [data.get(key) or ""] and [data.get(key, "")] *)
Definition get_text (data : gmap text text) (key : text) : text :=
  default [] (data !! key).

Definition cols : list (text * string) :=
  [(u "工程名称", "B2:D2"); (u "委托编号", "F2:J2"); (u "仪器编号", "B3:D3");
   (u "检测环境", "B4:D4"); (u "探伤日期", "F3:J3"); (u "测试人", "B5:D5");
   (u "K值角度", "F5:J5"); (u "材质", "B6:D6"); (u "表面补偿", "F7:J7");
   (u "检测灵敏度", "F8:J8"); (u "表面状况", "B9:D9"); (u "质量等级", "F9:G9");
   (u "焊接方式", "B10:D10"); (u "检测时机", "F10:J10"); (u "坡口形式", "F11:J11");
   (u "备注", "B21:J21")]%string.

(** [cols[key]] for a key of the table. *)
Definition col (key : text) : string :=
  match List.find (fun kv => bool_decide (fst kv = key)) cols with
  | Some kv => snd kv
  | None => ""%string
  end.

(** [if v := data.get(key): put_value(sheet, cols[key], v)] *)
Definition put_field (data : gmap text text) (key : text) (sheet : gmap string text)
    : gmap string text :=
  if has_field data key then put_value sheet (col key) (get_text data key) else sheet.

(** The instrument number, the estimate and the fixed values. *)
Definition write_header (instrument temp_number : text) (sheet : gmap string text)
    : gmap string text :=
  let sheet := put_value sheet (col (u "仪器编号")) instrument in
  let sheet := if nonempty temp_number
               then put_value sheet (col (u "检测环境")) temp_number else sheet in
  let sheet := put_value sheet (col (u "测试人")) (u "于征") in
  let sheet := put_value sheet (col (u "K值角度")) (u "角度") in
  let sheet := put_value sheet (col (u "表面补偿")) (u "4dB") in
  let sheet := put_value sheet (col (u "检测灵敏度")) (u "DAC-14dB") in
  let sheet := put_value sheet (col (u "表面状况")) (u "磨光") in
  let sheet := put_value sheet (col (u "焊接方式")) (u "气保") in
  let sheet := put_value sheet (col (u "检测时机")) (u "焊后24h") in
  put_value sheet (col (u "坡口形式")) (u "L").

(** The fields taken from the report. *)
Definition write_word_fields (data : gmap text text) (chosen_date : option datetime)
    (sheet : gmap string text) : gmap string text :=
  let sheet := put_field data (u "工程名称") sheet in
  let sheet := put_field data (u "委托编号") sheet in
  let sheet := put_field data (u "材质") sheet in
  let sheet := match chosen_date with
               | Some dt => put_value sheet (col (u "探伤日期")) (format_cn_date dt)
               | None => sheet
               end in
  put_field data (u "质量等级") sheet.

(** The scanning mode and the remark, from the inspected part. *)
Definition write_scan (data : gmap text text) (sheet : gmap string text)
    : gmap string text :=
  let part := get_text data (u "检测部位") in
  let has_corner := Text.contains (u "角对接焊缝") part in
  let has_butt := Text.contains (u "对接焊缝") part in
  if has_corner && has_butt then
    put_value (<["C11"%string := u "单面双侧"]> (<["B11"%string := u "单面单侧"]> sheet))
              (col (u "备注")) (u "注：D表示对接、JD表示角对接")
  else if has_corner then
    put_value (<["B11"%string := u "单面单侧"]> sheet) (col (u "备注")) (u "注：JD表示角对接")
  else
    put_value (<["B11"%string := u "单面双侧"]> sheet) (col (u "备注")) (u "注：D表示对接").

(** The test blocks and the couplant. *)
Definition write_blocks (sheet : gmap string text) : gmap string text :=
  let sheet := <["F6"%string := u "CSK-IA"]> sheet in
  let sheet := <["H6"%string := u "RB-1"]> sheet in
  let sheet := <["I6"%string := u "RB-2"]> sheet in
  let sheet := put_value sheet "B7:D7" (u "化学浆糊") in
  put_value sheet "B8:D8" (u "化学浆糊").

(** The address [f"B{n}"]. *)
Definition b_cell (n : nat) : string :=
  String "B" (NilEmpty.string_of_uint (Nat.to_uint n)).

(** [[、,，;；\s]+] *)
Definition probe_sep_re : regex :=
  RRep (fun c => one_of (u "、,，;；") c || Text.is_space c) 1 None.

(** The probe models to write: the override when there is one, else the
    pieces of the field of the report. *)
Definition probes_to_write (data : gmap text text) (override_probes : option (list text))
    : list text :=
  match override_probes with
  | Some probes => firstn 8 probes
  | None =>
      firstn 8 (List.filter nonempty
                  (split probe_sep_re (Text.strip (get_text data (u "探头型号")))))
  end.

Definition write_probes (data : gmap text text) (override_probes : option (list text))
    (sheet : gmap string text) : gmap string text :=
  let sheet := fold_left (fun sh i => <[b_cell i := u ""]> sh) (seq 13 8) sheet in
  fold_left (fun sh ip => <[b_cell (13 + fst ip) := snd ip]> sh)
            (enumerate (probes_to_write data override_probes)) sheet.

(** [override_date or date_from_word] *)
Definition date_or (override_date date_from_word : option datetime) : option datetime :=
  match override_date with
  | Some d => Some d
  | None => date_from_word
  end.

Section Assembler.

Variable str_upper : text -> text.

Definition fill_sheet_basic (sheet : gmap string text) (data : gmap text text)
    (override_date : option datetime) (override_probes : option (list text))
    : py (gmap string text) :=
  date_from_word ← parse_cn_date (Some (get_text data (u "探伤日期")));
  let chosen_date := date_or override_date date_from_word in
  window_start ← datetime_new 2025 3 12;
  window_end ← datetime_new 2025 4 9;
  let instrument :=
    if match chosen_date with
       | Some d => datetime_leb window_start d && datetime_leb d window_end
       | None => false
       end
    then u "13-27" else u "22-72" in
  temp_number ← beijing_temp_guess_number chosen_date;
  let sheet := write_header instrument temp_number sheet in
  let sheet := write_word_fields data chosen_date sheet in
  let sheet := write_scan data sheet in
  let sheet := write_blocks sheet in
  let sheet := write_detection_basis str_upper sheet
                 (Some (get_text data (u "执行处理"))) in
  Return (write_probes data override_probes sheet).

End Assembler.

(** The date [fill_sheet_basic] works with: the override, else the date
    read from the field of the report. *)
Definition chosen_of (data : gmap text text) (override_date : option datetime)
    : option datetime :=
  date_or override_date
    (match parse_cn_date (Some (get_text data (u "探伤日期"))) with
     | Return r => r
     | Raise _ => None
     end).

(** The estimate can be computed for the date: it is a date of the
    calendar and not one of December 9999. *)
Definition estimable (chosen : option datetime) : Prop :=
  match chosen with
  | None => True
  | Some dt => valid_date (year dt) (month dt) (day dt) = true
               /\ (month dt = 12 -> year dt < 9999)
  end.

(** The date lies between 12 March 2025 and 9 April 2025, both included. *)
Definition in_window (chosen : option datetime) : bool :=
  match chosen with
  | Some d => datetime_leb (mkdatetime 2025 3 12) d && datetime_leb d (mkdatetime 2025 4 9)
  | None => false
  end.


(** The addresses each part of [fill_sheet_basic] writes. *)
Definition header_cells : list string :=
  map col [u "仪器编号"; u "检测环境"; u "测试人"; u "K值角度"; u "表面补偿";
           u "检测灵敏度"; u "表面状况"; u "焊接方式"; u "检测时机"; u "坡口形式"].

Definition field_cells : list string :=
  map col [u "工程名称"; u "委托编号"; u "材质"; u "探伤日期"; u "质量等级"].

Definition scan_cells : list string := ["B11"; "C11"; col (u "备注")]%string.

Definition block_cells : list string := ["F6"; "H6"; "I6"; "B7:D7"; "B8:D8"]%string.

Definition probe_cells : list string := map b_cell (seq 13 8).



(** The sheet [fill_sheet_basic] returns, part by part, for the date it
    works with and the estimate for that date. *)
Definition assembled (str_upper : text -> text) (sheet : gmap string text)
    (data : gmap text text) (chosen : option datetime) (temp_number : text)
    (override_probes : option (list text)) : gmap string text :=
  write_probes data override_probes
    (write_detection_basis str_upper
       (write_blocks
          (write_scan data
             (write_word_fields data chosen
                (write_header (if in_window chosen then u "13-27" else u "22-72")
                              temp_number sheet))))
       (Some (get_text data (u "执行处理")))).

(** * Properties *)

(** ** The matcher *)

Lemma rep_matches_spec p lo hi s w r :
  In (w, r) (rep_matches p lo hi s) ->
  s = w ++ r /\ forallb p w = true /\ (lo <= List.length w)%nat.
Proof.
  revert lo hi w r. induction s as [|c s IH]; intros lo hi w r Hin.
  - simpl in Hin. destruct lo; simpl in Hin; [|tauto].
    destruct Hin as [Heq|[]]. inversion Heq; subst. repeat split; simpl; lia.
  - simpl in Hin.
    assert (Hstop : In (w, r) (match lo with O => [([], c :: s)] | S _ => [] end) ->
                    c :: s = w ++ r /\ forallb p w = true /\ (lo <= List.length w)%nat).
    { destruct lo; simpl; [|tauto]. intros [Heq|[]]. inversion Heq; subst.
      repeat split; simpl; lia. }
    destruct (p c && can_take hi) eqn:Hc; [|auto].
    apply in_app_or in Hin. destruct Hin as [Hin|Hin]; [|auto].
    apply in_map_iff in Hin. destruct Hin as [[w' r'] [Heq Hin]].
    simpl in Heq. inversion Heq; subst. apply IH in Hin.
    destruct Hin as (-> & Hall & Hlen). apply andb_prop in Hc as [Hp _].
    repeat split; simpl; [now rewrite Hp|lia].
Qed.

Lemma in_matches_cat r1 r2 s m :
  In m (matches (RCat r1 r2) s) ->
  exists w1 s1 g1 w2 s2 g2,
    In (w1, s1, g1) (matches r1 s) /\ In (w2, s2, g2) (matches r2 s1) /\
    m = (w1 ++ w2, s2, g1 ++ g2).
Proof.
  simpl. intros Hin. apply in_flat_map in Hin. destruct Hin as [[[w1 s1] g1] [H1 H2]].
  apply in_map_iff in H2. destruct H2 as [[[w2 s2] g2] [Heq H2]].
  exists w1, s1, g1, w2, s2, g2. auto.
Qed.

Lemma in_matches_group_rep p lo hi s m :
  In m (matches (RGroup (RRep p lo hi)) s) ->
  exists w r, m = (w, r, [w]) /\ s = w ++ r /\ forallb p w = true
              /\ (lo <= List.length w)%nat.
Proof.
  simpl. rewrite map_map. intros Hin. apply in_map_iff in Hin.
  destruct Hin as [[w r] [Heq Hin]]. simpl in Heq. exists w, r.
  split; [auto|]. now apply rep_matches_spec in Hin.
Qed.

Lemma in_matches_nogroup r s m :
  (match r with RChar _ | RSet _ | RRep _ _ _ => True | _ => False end) ->
  In m (matches r s) -> groups m = [].
Proof.
  destruct r; try tauto; intros _; simpl.
  - destruct s as [|x s]; [intros []|]. destruct (x =? c)%N; [|intros []].
    intros [<-|[]]. reflexivity.
  - destruct s as [|x s]; [intros []|]. destruct (p x); [|intros []].
    intros [<-|[]]. reflexivity.
  - intros Hin. apply in_map_iff in Hin. destruct Hin as [wr [<- _]]. reflexivity.
Qed.

Lemma search_In r s m : search r s = Some m -> exists s', In m (matches r s').
Proof.
  induction s as [|c s IH]; simpl; unfold match_here.
  - destruct (matches r []) eqn:E; [discriminate|]. intros [= <-].
    exists []. rewrite E. now left.
  - destruct (matches r (c :: s)) eqn:E; [auto|]. intros [= <-].
    exists (c :: s). rewrite E. now left.
Qed.

Lemma digits_value_total s : forall acc,
  forallb Text.is_digit s = true -> exists n, Text.digits_value acc s = Some n.
Proof.
  induction s as [|c s IH]; intros acc Hall; simpl; [eauto|].
  simpl in Hall. apply andb_prop in Hall as [Hc Hs]. unfold Text.is_digit in Hc.
  destruct (Text.decimal_value c); [|discriminate]. auto.
Qed.

Lemma int_digit_run g : digit_run g -> exists z, int g = Return z.
Proof.
  intros [Hne Hall]. unfold int, Text.to_int. destruct g as [|c g]; [congruence|].
  destruct (digits_value_total (c :: g) 0%N Hall) as [n ->]. simpl. eauto.
Qed.

Lemma digit_run_of_rep w lo :
  forallb Text.is_digit w = true -> (lo <= List.length w)%nat -> (1 <= lo)%nat ->
  digit_run w.
Proof.
  intros Hall Hlen Hlo. split; [|auto]. destruct w; simpl in *; [lia|discriminate].
Qed.

Lemma cn_date_groups s m :
  In m (matches cn_date_re s) ->
  exists g1 g2 g3, groups m = [g1; g2; g3] /\ digit_run g1 /\ digit_run g2 /\ digit_run g3.
Proof.
  unfold cn_date_re. intros H.
  apply in_matches_cat in H. destruct H as (w1 & s1 & c1 & ? & ? & ? & H1 & H & ->).
  apply in_matches_cat in H. destruct H as (w2 & s2 & c2 & ? & ? & ? & H2 & H & [= -> -> ->]).
  apply in_matches_cat in H. destruct H as (w3 & s3 & c3 & ? & ? & ? & H3 & H & [= -> -> ->]).
  apply in_matches_cat in H. destruct H as (w4 & s4 & c4 & ? & ? & ? & H4 & H & [= -> -> ->]).
  apply in_matches_cat in H. destruct H as (w5 & s5 & c5 & w6 & s6 & c6 & H5 & H6 & [= -> -> ->]).
  apply in_matches_group_rep in H1. destruct H1 as (g1 & ? & [= -> -> ->] & _ & Ha1 & Hl1).
  apply in_matches_group_rep in H3. destruct H3 as (g2 & ? & [= -> -> ->] & _ & Ha2 & Hl2).
  apply in_matches_group_rep in H5. destruct H5 as (g3 & ? & [= -> -> ->] & _ & Ha3 & Hl3).
  apply in_matches_nogroup in H2; [|exact I].
  apply in_matches_nogroup in H4; [|exact I].
  apply in_matches_nogroup in H6; [|exact I].
  unfold groups in *. simpl in *. subst. exists g1, g2, g3.
  split; [reflexivity|]. repeat split; eapply digit_run_of_rep; eauto.
Qed.

(** ** DateLexicon *)

Lemma ymd_of_cn_date_groups s m :
  In m (matches cn_date_re s) -> exists y mo d, ymd_of_groups (groups m) = Return (y, mo, d).
Proof.
  intros H. apply cn_date_groups in H. destruct H as (g1 & g2 & g3 & -> & H1 & H2 & H3).
  apply int_digit_run in H1, H2, H3. destruct H1 as [y Hy], H2 as [mo Hm], H3 as [d Hd].
  exists y, mo, d. unfold ymd_of_groups. rewrite Hy, Hm, Hd. reflexivity.
Qed.

(** [parse_cn_date] returns on every text: a match that is no calendar day
    gives [None]. *)
Lemma parse_cn_date_never_raises (s : option text) :
  exists r, parse_cn_date s = Return r.
Proof.
  unfold parse_cn_date. destruct (search cn_date_re (or_empty s)) as [m|] eqn:E; [|eauto].
  apply search_In in E. destruct E as [s' Hin].
  apply ymd_of_cn_date_groups in Hin. destruct Hin as (y & mo & d & ->). simpl.
  unfold datetime_new. destruct (valid_date y mo d); simpl; eauto.
Qed.

(** What [parse_cn_date_range] does on the number of matches, when the
    matches it converts are calendar days. *)
Lemma parse_cn_date_range_by_count (txt : option text) :
  let parts := findall cn_date_re (or_empty txt) in
  (parts = [] -> parse_cn_date_range txt = Return (None, None)) /\
  (forall p y m d,
     parts = [p] -> ymd_of_groups p = Return (y, m, d) -> valid_date y m d = true ->
     parse_cn_date_range txt = Return (Some (mkdatetime y m d), None)) /\
  (forall p1 p2 rest y1 m1 d1 y2 m2 d2,
     parts = p1 :: p2 :: rest ->
     ymd_of_groups p1 = Return (y1, m1, d1) -> valid_date y1 m1 d1 = true ->
     ymd_of_groups p2 = Return (y2, m2, d2) -> valid_date y2 m2 d2 = true ->
     parse_cn_date_range txt
     = Return (Some (mkdatetime y1 m1 d1), Some (mkdatetime y2 m2 d2))).
Proof.
  unfold parse_cn_date_range. cbv zeta. repeat split.
  - intros ->. reflexivity.
  - intros p y m d -> Hp Hv. rewrite Hp. simpl. unfold datetime_new. rewrite Hv. reflexivity.
  - intros p1 p2 rest y1 m1 d1 y2 m2 d2 -> Hp1 Hv1 Hp2 Hv2.
    rewrite Hp1. simpl. unfold datetime_new. rewrite Hv1. simpl.
    rewrite Hp2. simpl. rewrite Hv2. reflexivity.
Qed.

(** C1. The date-parsing functions are claimed never to raise, a text
    that looks like a date but is no calendar day giving the no-date
    result.  [parse_cn_date] does so; [parse_cn_date_range] builds the
    date outside any handler: on the text of one impossible day the first
    returns [None] and the second raises [ValueError]. *)
Theorem C1_range_raises_on_impossible_day :
  parse_cn_date (Some (u "2023年2月30日")) = Return None /\
  parse_cn_date_range (Some (u "2023年2月30日")) = Raise ValueError.
Proof. split; vm_compute; reflexivity. Qed.

(** C4. [parse_cn_date_range] is claimed to return, for every text, a
    pair chosen on the number of embedded dates.  On a text with two
    date-shaped parts of which the second is no calendar day it returns
    no pair at all: it raises [ValueError]; the third and later parts are
    indeed ignored. *)
Theorem C4_range_raises_on_second_impossible_day :
  findall cn_date_re (u "2025年3月31日至2025年4月31日")
    = [[u "2025"; u "3"; u "31"]; [u "2025"; u "4"; u "31"]] /\
  parse_cn_date_range (Some (u "2025年3月31日至2025年4月31日")) = Raise ValueError /\
  parse_cn_date_range (Some (u "2025年3月31日至2025年4月4日，2025年13月1日"))
    = Return (Some (mkdatetime 2025 3 31), Some (mkdatetime 2025 4 4)).
Proof. repeat split; vm_compute; reflexivity. Qed.

(** *** Heads of the alternatives: what a greedy match takes first *)

Lemma rep_matches_head p w : forall lo hi rest,
  forallb p w = true -> (lo <= List.length w)%nat ->
  match hi with Some n => (List.length w <= n)%nat | None => True end ->
  (hi = Some (List.length w) \/ match rest with [] => True | c :: _ => p c = false end) ->
  exists tl, rep_matches p lo hi (w ++ rest) = (w, rest) :: tl.
Proof.
  induction w as [|c w IH]; intros lo hi rest Hall Hlo Hhi Hend.
  - simpl in Hlo. assert (lo = O) as -> by lia. simpl.
    destruct rest as [|x rest]; [eauto|].
    destruct Hend as [->|Hx]; simpl.
    + rewrite andb_false_r. eauto.
    + rewrite Hx. eauto.
  - simpl in Hall. apply andb_prop in Hall as [Hc Hw]. simpl. rewrite Hc.
    assert (can_take hi = true) as ->.
    { destruct hi as [[|n]|]; simpl in *; auto; lia. }
    simpl.
    destruct (IH (Nat.pred lo) (option_map Nat.pred hi) rest Hw) as [tl ->].
    + simpl in Hlo. lia.
    + destruct hi as [n|]; simpl in *; lia.
    + destruct Hend as [->|Hx]; [left; reflexivity|right; exact Hx].
    + simpl. eauto.
Qed.

Lemma matches_group_rep_head p lo hi s w rest tl :
  rep_matches p lo hi s = (w, rest) :: tl ->
  exists tl', matches (RGroup (RRep p lo hi)) s = (w, rest, [w]) :: tl'.
Proof. intros H. simpl. rewrite H. simpl. eauto. Qed.

Lemma matches_char_head c s : matches (RChar c) (c :: s) = [([c], s, [])].
Proof. simpl. now rewrite N.eqb_refl. Qed.

Lemma matches_cat_head r1 r2 s w1 s1 g1 tl1 w2 s2 g2 tl2 :
  matches r1 s = (w1, s1, g1) :: tl1 ->
  matches r2 s1 = (w2, s2, g2) :: tl2 ->
  exists tl, matches (RCat r1 r2) s = (w1 ++ w2, s2, g1 ++ g2) :: tl.
Proof. intros H1 H2. simpl. rewrite H1. simpl. rewrite H2. simpl. eauto. Qed.

Lemma search_head r s m tl : matches r s = m :: tl -> search r s = Some m.
Proof. intros H. destruct s; simpl; unfold match_here; now rewrite H. Qed.

(** The date pattern matches a written date as a whole, whatever follows. *)
Lemma cn_date_matches_written ys ms ds rest :
  forallb Text.is_digit ys = true -> List.length ys = 4%nat ->
  forallb Text.is_digit ms = true -> (1 <= List.length ms <= 2)%nat ->
  forallb Text.is_digit ds = true -> (1 <= List.length ds <= 2)%nat ->
  exists w, search cn_date_re (ys ++ u "年" ++ ms ++ u "月" ++ ds ++ u "日" ++ rest)
            = Some (w, rest, [ys; ms; ds]).
Proof.
  intros Hys Ly Hms Lm Hds Ld.
  change (u "年") with [chr "年"]. change (u "月") with [chr "月"].
  change (u "日") with [chr "日"]. simpl app.
  destruct (rep_matches_head Text.is_digit ys 4 (Some 4%nat) (chr "年" :: ms ++ chr "月" :: ds ++ chr "日" :: rest))
    as [t1 H1]; [auto|lia|simpl; lia|left; now rewrite Ly|].
  destruct (rep_matches_head Text.is_digit ms 1 (Some 2%nat) (chr "月" :: ds ++ chr "日" :: rest))
    as [t2 H2]; [auto|lia|simpl; lia|right; reflexivity|].
  destruct (rep_matches_head Text.is_digit ds 1 (Some 2%nat) (chr "日" :: rest))
    as [t3 H3]; [auto|lia|simpl; lia|right; reflexivity|].
  apply matches_group_rep_head in H1, H2, H3.
  destruct H1 as [t1' H1], H2 as [t2' H2], H3 as [t3' H3].
  destruct (matches_cat_head _ _ _ _ _ _ _ _ _ _ _ H3 (matches_char_head (chr "日") rest)) as [t5 H5].
  destruct (matches_cat_head _ _ _ _ _ _ _ _ _ _ _ (matches_char_head (chr "月") _) H5) as [t6 H6].
  destruct (matches_cat_head _ _ _ _ _ _ _ _ _ _ _ H2 H6) as [t7 H7].
  destruct (matches_cat_head _ _ _ _ _ _ _ _ _ _ _ (matches_char_head (chr "年") _) H7) as [t8 H8].
  destruct (matches_cat_head _ _ _ _ _ _ _ _ _ _ _ H1 H8) as [t9 H9].
  eexists. apply (search_head _ _ _ _ H9).
Qed.

(** *** Decimal writing of the numbers of a date *)

Lemma in_range a b x : In x (range a b) <-> a <= x < b.
Proof.
  unfold range. rewrite in_map_iff. split.
  - intros [i [<- Hi]]. apply in_seq in Hi. lia.
  - intros H. exists (Z.to_nat (x - a)). split; [lia|]. apply in_seq. lia.
Qed.

Lemma written_ok_spec lo hi n :
  written_ok lo hi n = true ->
  forallb Text.is_digit (Text.of_int n) = true /\
  (lo <= List.length (Text.of_int n) <= hi)%nat /\
  int (Text.of_int n) = Return n.
Proof.
  unfold written_ok, int. intros H.
  apply andb_prop in H as [H H4]. apply andb_prop in H as [H H3].
  apply andb_prop in H as [H1 H2].
  apply Nat.leb_le in H2, H3. repeat split; auto.
  destruct (Text.to_int (Text.of_int n)); [|discriminate].
  apply Z.eqb_eq in H4. now subst.
Qed.

Lemma written_year y : 1000 <= y <= 9999 -> written_ok 4 4 y = true.
Proof.
  assert (H : forallb (written_ok 4 4) (range 1000 10000) = true) by (vm_compute; reflexivity).
  intros Hy. eapply forallb_forall in H; [exact H|]. apply in_range. lia.
Qed.

Lemma written_month_day n : 1 <= n <= 31 -> written_ok 1 2 n = true.
Proof.
  assert (H : forallb (written_ok 1 2) (range 1 32) = true) by (vm_compute; reflexivity).
  intros Hn. eapply forallb_forall in H; [exact H|]. apply in_range. lia.
Qed.

Lemma valid_date_bounds y m d :
  valid_date y m d = true -> 1 <= y <= 9999 /\ 1 <= m <= 12 /\ 1 <= d <= 31.
Proof.
  unfold valid_date. intros H. repeat (apply andb_prop in H as [H ?]).
  assert (days_in_month y m <= 31).
  { unfold days_in_month. destruct ((m =? 2) && is_leap y); [lia|].
    assert (Hm : exists k, (k <= 12)%nat /\ Z.to_nat m = k) by (exists (Z.to_nat m); lia).
    destruct Hm as [k [Hk ->]].
    do 13 (destruct k as [|k]; [simpl; lia|]). lia. }
  lia.
Qed.

(** C5, as the program has it.  Writing a calendar date whose year has
    four digits with [format_cn_date] and reading the text back with
    [parse_cn_date] returns that date. *)
Theorem C5_format_parse_round_trip (y m d : Z) :
  valid_date y m d = true -> 1000 <= y ->
  parse_cn_date (Some (format_cn_date (mkdatetime y m d)))
  = Return (Some (mkdatetime y m d)).
Proof.
  intros Hv Hy. destruct (valid_date_bounds _ _ _ Hv) as (By & Bm & Bd).
  destruct (written_ok_spec _ _ _ (written_year y ltac:(lia))) as (Dy & Ly & Iy).
  destruct (written_ok_spec _ _ _ (written_month_day m ltac:(lia))) as (Dm & Lm & Im).
  destruct (written_ok_spec _ _ _ (written_month_day d ltac:(lia))) as (Dd & Ld & Id).
  destruct (cn_date_matches_written (Text.of_int y) (Text.of_int m) (Text.of_int d) []
              Dy ltac:(lia) Dm Lm Dd Ld) as [w Hs].
  assert (Hf : or_empty (Some (format_cn_date (mkdatetime y m d)))
               = Text.of_int y ++ u "年" ++ Text.of_int m ++ u "月"
                 ++ Text.of_int d ++ u "日" ++ []).
  { unfold or_empty, format_cn_date. cbn [default year month day].
    now rewrite app_nil_r. }
  unfold parse_cn_date. rewrite Hf.
  rewrite Hs. unfold groups, ymd_of_groups. simpl snd. cbv beta iota.
  rewrite Iy, Im, Id. simpl.
  unfold datetime_new. rewrite Hv. reflexivity.
Qed.

Lemma C5_round_trip_witness :
  parse_cn_date (Some (format_cn_date (mkdatetime 2025 3 31)))
  = Return (Some (mkdatetime 2025 3 31)).
Proof. apply C5_format_parse_round_trip; [reflexivity|lia]. Defined.

(** C5, as the specification has it, fails for the years before 1000:
    the year is written without padding and the pattern asks for four
    digits. *)
Lemma C5_round_trip_fails_before_1000 :
  valid_date 999 1 1 = true /\
  parse_cn_date (Some (format_cn_date (mkdatetime 999 1 1)))
  <> Return (Some (mkdatetime 999 1 1)).
Proof. split; [reflexivity|]. vm_compute. discriminate. Qed.

(** ** TemperatureEstimator *)

Lemma div_int_zero b : Float.div_int 0 b = Finite 0.
Proof. reflexivity. Qed.

Lemma datetime_new_first_day y m :
  1 <= y <= 9999 -> 1 <= m <= 12 -> datetime_new y m 1 = Return (mkdatetime y m 1).
Proof.
  intros Hy Hm. unfold datetime_new, valid_date.
  assert (Hd : 1 <= days_in_month y m).
  { unfold days_in_month. destruct ((m =? 2) && is_leap y); [lia|].
    assert (Hk : exists k, (1 <= k <= 12)%nat /\ Z.to_nat m = k) by (exists (Z.to_nat m); lia).
    destruct Hk as [k [Hk ->]].
    destruct k as [|k]; [lia|]. do 12 (destruct k as [|k]; [simpl; lia|]). lia. }
  repeat match goal with |- context [?a <=? ?b] =>
    replace (a <=? b) with true by (symmetry; apply Z.leb_le; lia) end.
  reflexivity.
Qed.

(** On the first day of a month the estimate is the mean of the month
    plus the perturbation of day 1, for every month but December 9999. *)
Lemma beijing_temp_first_day y m :
  1 <= y <= 9999 -> 1 <= m <= 12 -> (m = 12 -> y < 9999) ->
  exists mean, month_mean !! m = Some mean /\
    beijing_temp_guess_number (Some (mkdatetime y m 1))
    = Return (Text.of_int (mean + ((1 * 37) mod 5 - 2))).
Proof.
  intros Hy Hm Hdec. unfold beijing_temp_guess_number. cbn [year month day].
  change (1 - 1) with 0.
  assert (Hcases : m = 1 \/ m = 2 \/ m = 3 \/ m = 4 \/ m = 5 \/ m = 6 \/ m = 7
                   \/ m = 8 \/ m = 9 \/ m = 10 \/ m = 11 \/ m = 12) by lia.
  repeat (destruct Hcases as [->|Hcases]); [..|subst m];
    cbn [Z.eqb Pos.eqb Z.add Pos.add Pos.succ];
    rewrite ?(datetime_new_first_day (y + 1)) by lia;
    rewrite !(datetime_new_first_day y) by lia;
    cbn [mbind py_bind]; rewrite div_int_zero;
    eexists; (split; [vm_compute; reflexivity|]); vm_compute; reflexivity.
Qed.

(** The estimate reads nothing but its argument. *)
Lemma beijing_temp_deterministic (d1 d2 : option datetime) :
  d1 = d2 -> beijing_temp_guess_number d1 = beijing_temp_guess_number d2.
Proof. intros ->. reflexivity. Qed.

(** C8. The estimate for day 1 of any month of any year is claimed to be
    the mean of the month plus the perturbation of day 1.  For December
    of the year 9999, a date [datetime] holds, the function asks for
    1 January 10000 to count the days of the month, and raises
    [ValueError]; the claim gives "-1". *)
Theorem C8_december_9999_raises :
  valid_date 9999 12 1 = true /\
  month_mean !! 12 = Some (-1) /\
  beijing_temp_guess_number (Some (mkdatetime 9999 12 1)) = Raise ValueError.
Proof. repeat split; vm_compute; reflexivity. Qed.

(** ** FieldExtractor *)

Lemma first_index_from (f : option text -> bool) pre x tl : forall k,
  (forall c, In c pre -> f c = false) -> f x = true ->
  exists more,
    map fst (List.filter (fun it : nat * option text => f (snd it))
                         (combine (seq k (List.length (pre ++ x :: tl))) (pre ++ x :: tl)))
    = (k + List.length pre)%nat :: more.
Proof.
  induction pre as [|c pre IH]; intros k Hpre Hx.
  - simpl. rewrite Hx. simpl. rewrite Nat.add_0_r. eauto.
  - simpl. rewrite (Hpre c) by now left. 
    destruct (IH (S k)) as [more Hm]; [intros; apply Hpre; now right|auto|].
    simpl in Hm. rewrite Hm. exists more. f_equal. lia.
Qed.

Lemma first_value_skips skipped v rest :
  (forall c, In c skipped ->
     nonempty (Text.strip (or_empty c)) = false
     \/ is_label (Some (Text.strip (or_empty c))) = true) ->
  nonempty (Text.strip (or_empty v)) = true ->
  is_label (Some (Text.strip (or_empty v))) = false ->
  first_value (skipped ++ v :: rest) = Some (Text.strip (or_empty v)).
Proof.
  intros Hs Hv Hl. induction skipped as [|c skipped IH]; simpl.
  - now rewrite Hv, Hl.
  - destruct (Hs c) as [H|H]; [now left|rewrite H|rewrite H].
    + simpl. apply IH. intros; apply Hs; now right.
    + rewrite andb_false_r. apply IH. intros; apply Hs; now right.
Qed.

(** C9. On the row ["委托编号"; ""; "2025-046111"] the value for the label
    "委托编号" is "2025-046111"; and in general, from the first cell that
    holds the label, the scan to the right passes over every cell whose
    stripped text is empty or a label and returns the stripped text of the
    first cell that is neither. *)
Theorem C9_value_after_label :
  value_after_label [Some (u "委托编号"); Some (u ""); Some (u "2025-046111")]
                    (u "委托编号")
  = Some (u "2025-046111")
  /\
  forall (label_sub : text) (pre skipped rest : list (option text))
         (lab v : option text),
    (forall c, In c pre -> Text.contains label_sub (or_empty c) = false) ->
    Text.contains label_sub (or_empty lab) = true ->
    (forall c, In c skipped ->
       nonempty (Text.strip (or_empty c)) = false
       \/ is_label (Some (Text.strip (or_empty c))) = true) ->
    nonempty (Text.strip (or_empty v)) = true ->
    is_label (Some (Text.strip (or_empty v))) = false ->
    value_after_label (pre ++ lab :: skipped ++ v :: rest) label_sub
    = Some (Text.strip (or_empty v)).
Proof.
  split; [vm_compute; reflexivity|].
  intros label_sub pre skipped rest lab v Hpre Hlab Hskip Hv Hl.
  unfold value_after_label, enumerate.
  destruct (first_index_from (fun c => Text.contains label_sub (or_empty c))
              pre lab (skipped ++ v :: rest) 0 Hpre Hlab) as [more ->].
  simpl Nat.add.
  replace (skipn (S (List.length pre)) (pre ++ lab :: skipped ++ v :: rest))
    with (skipped ++ v :: rest).
  - now apply first_value_skips.
  - change (S (List.length pre)) with (1 + List.length pre)%nat.
    rewrite <- skipn_skipn. rewrite skipn_app, skipn_all, Nat.sub_diag. reflexivity.
Qed.

Lemma C9_value_after_label_witness :
  value_after_label
    ([Some (u "报告")] ++ Some (u "委托编号：") :: [None; Some (u " 材质 ")]
       ++ Some (u " 2025-046111 ") :: [Some (u "Q355B")])
    (u "委托编号")
  = Some (u "2025-046111").
Proof.
  apply (proj2 C9_value_after_label (u "委托编号") [Some (u "报告")]
           [None; Some (u " 材质 ")] [Some (u "Q355B")]
           (Some (u "委托编号：")) (Some (u " 2025-046111 "))).
  - intros c [<-|[]]. vm_compute. reflexivity.
  - vm_compute. reflexivity.
  - intros c [<-|[<-|[]]]; [left|right]; vm_compute; reflexivity.
  - vm_compute. reflexivity.
  - vm_compute. reflexivity.
Defined.

(** ** ProbeSelector *)

(** The thickness read for a row, case by case on the primary cell. *)
Lemma row_thickness_cases (ws : worksheet) (r : Z) :
  (forall x, _to_float (cell_value ws r 4) = Some x -> Float.is_zero x = false ->
             row_thickness ws r = Some x) /\
  (forall x, _to_float (cell_value ws r 4) = Some x -> Float.is_zero x = true ->
             row_thickness ws r = _to_float (cell_value ws r 5)) /\
  (_to_float (cell_value ws r 4) = None ->
   row_thickness ws r = _to_float (cell_value ws r 5)).
Proof.
  unfold row_thickness, float_or. repeat split.
  - intros x -> ->. reflexivity.
  - intros x -> ->. reflexivity.
  - intros ->. reflexivity.
Qed.

(** C2. The primary cell is claimed to be used whenever it parses to a
    number, whatever the number.  A primary cell that parses to zero is
    false for [or]: the secondary cell is read in its place, and when the
    secondary cell has no number the row is skipped. *)
Theorem C2_zero_primary_falls_back :
  let ws := one_row_sheet (Some (u "D")) (Some (u "0")) (Some (u "20")) in
  let ws' := one_row_sheet (Some (u "D")) (Some (u "0")) None in
  _to_float (cell_value ws 2 4) = Some (Finite 0) /\
  row_thickness ws 2 = Some (Finite 20) /\
  choose_probes_for_segments Text.upper_ascii (Some ws) None = [u "A2.5P9×9A70°"] /\
  row_thickness ws' 2 = None.
Proof. repeat split; vm_compute; reflexivity. Qed.

Lemma match_rule_inside low high models rest q :
  (low <= q)%Q -> (q < high)%Q ->
  match_rule ((low, high, models) :: rest) (Finite q) = Some models.
Proof.
  intros H1 H2. simpl. apply Qle_bool_iff in H1. rewrite H1.
  destruct (Qle_bool high q) eqn:E; [|reflexivity].
  apply Qle_bool_iff in E. exfalso. apply (Qlt_not_le _ _ H2 E).
Qed.

Lemma match_rule_outside low high models rest q :
  (q < low)%Q \/ (high <= q)%Q ->
  match_rule ((low, high, models) :: rest) (Finite q) = match_rule rest (Finite q).
Proof.
  intros [H|H]; simpl.
  - destruct (Qle_bool low q) eqn:E; [|reflexivity].
    apply Qle_bool_iff in E. exfalso. apply (Qlt_not_le _ _ H E).
  - apply Qle_bool_iff in H. rewrite H. simpl. now rewrite andb_false_r.
Qed.

Lemma PROBE_RULES_tables weld rules :
  PROBE_RULES !! weld = Some rules ->
  weld = u "D" \/ weld = u "JD".
Proof.
  unfold PROBE_RULES. intros H. apply elem_of_list_to_map_2 in H.
  apply list_elem_of_In in H. destruct H as [H|[H|[]]]; inversion H; auto.
Qed.

(** In both tables a thickness within an interval, lower bound included
    and upper bound excluded, selects the models of that interval: a
    thickness at a lower bound selects its own interval, one at an upper
    bound the next interval. *)
Lemma match_rule_interval weld rules i low high models q :
  PROBE_RULES !! weld = Some rules ->
  nth_error rules i = Some (low, high, models) ->
  (low <= q)%Q -> (q < high)%Q ->
  match_rule rules (Finite q) = Some models.
Proof.
  intros Hw Hi Hl Hh.
  destruct (PROBE_RULES_tables _ _ Hw) as [->| ->];
    vm_compute in Hw; injection Hw as <-;
    do 7 (destruct i as [|i];
          [injection Hi as <- <- <-;
           repeat (rewrite match_rule_outside by (right; lra));
           apply match_rule_inside; lra|]);
    destruct i; discriminate.
Qed.

(** C3. Every thickness from 100 up is claimed to select the last
    interval, its upper bound standing for no bound.  The bound is the
    number 1e9: a thickness of 1e9 selects no interval and the row adds
    no model, where 100 selects the last interval. *)
Theorem C3_last_interval_ends_at_1e9 :
  let ws := one_row_sheet (Some (u "D")) (Some (u "1000000000")) None in
  row_thickness ws 2 = Some (Finite 1000000000) /\
  match PROBE_RULES !! u "D" with
  | Some rules =>
      match_rule rules (Finite 1000000000) = None /\
      match_rule rules (Finite 100) = Some (map u ["A2.5P13×13A60°"; "A2.5P13×13A45°"])
  | None => False
  end /\
  choose_probes_for_segments Text.upper_ascii (Some ws) None = [].
Proof. repeat split; vm_compute; reflexivity. Qed.

(** ** BasisCodeDispatcher *)

Lemma clear_slots_lookup (sheet : gmap string text) (addr : string) :
  (In addr basis_slots -> clear_slots sheet !! addr = Some []) /\
  (~ In addr basis_slots -> clear_slots sheet !! addr = sheet !! addr).
Proof.
  unfold clear_slots, basis_slots, put_value. simpl fold_left. split.
  - intros Hin. simpl in Hin.
    repeat (destruct Hin as [<-|Hin]; [by simplify_map_eq|]). destruct Hin.
  - intros Hnin. simpl in Hnin.
    rewrite !lookup_insert_ne; [reflexivity|..]; intros <-; tauto.
Qed.

Lemma address_map_elem n a :
  address_map !! n = Some a ->
  In (n, a) [(u "GB50205-2020",   "B12:B12"%string);
             (u "GB50661-2011",   "C12:C12"%string);
             (u "JG/T203-2007",   "D12:D12"%string);
             (u "GB/T50621-2010", "E12:E12"%string);
             (u "GB/T11345-2023", "F12:F12"%string);
             (u "GB/T29712-2023", "G12:G12"%string);
             (u "GB/T29711-2023", "H12:H12"%string)].
Proof.
  unfold address_map. intros H. apply elem_of_list_to_map_2 in H.
  now apply list_elem_of_In in H.
Qed.

Lemma address_map_inj n1 n2 a :
  address_map !! n1 = Some a -> address_map !! n2 = Some a -> n1 = n2.
Proof.
  intros H1 H2. apply address_map_elem in H1, H2. simpl in H1, H2.
  repeat (destruct H1 as [H1|H1];
          [inversion H1; subst; clear H1;
           repeat (destruct H2 as [H2|H2]; [inversion H2; subst; reflexivity|]);
           destruct H2|]).
  destruct H1.
Qed.

Lemma address_map_not_catch_all n a : address_map !! n = Some a -> a <> catch_all.
Proof.
  intros H. apply address_map_elem in H. simpl in H.
  repeat (destruct H as [H|H]; [injection H as <- <-; discriminate|]). destruct H.
Qed.

Section Dispatch.

Variable str_upper : text -> text.

Local Notation "'code'" := (token_code str_upper).
Local Notation "'step'" := (dispatch_token str_upper).

(** A code enters [used] only with a token that carries it. *)
Lemma used_from_tokens tokens : forall st n,
  n ∈ ds_used (fold_left step tokens st) ->
  n ∈ ds_used st \/ exists t, In t tokens /\ code t = n.
Proof.
  induction tokens as [|t tokens IH]; intros st n Hn; simpl in Hn; [auto|].
  apply IH in Hn. destruct Hn as [Hn|(t' & Hin & Ht')].
  - unfold dispatch_token in Hn.
    destruct (address_map !! code t) as [addr|]; simpl in Hn; [|auto].
    destruct (decide (code t ∈ ds_used st)); simpl in Hn; [auto|].
    apply elem_of_union in Hn. destruct Hn as [Hn|Hn]; [|auto].
    apply elem_of_singleton in Hn. right. exists t. split; [now left|auto].
  - right. exists t'. split; [now right|auto].
Qed.

(** [unknown_list] only grows. *)
Lemma unknown_grows tokens : forall st,
  exists more, ds_unknown (fold_left step tokens st) = ds_unknown st ++ more.
Proof.
  induction tokens as [|t tokens IH]; intros st; simpl.
  - exists []. now rewrite app_nil_r.
  - destruct (IH (step st t)) as [more ->]. unfold dispatch_token.
    destruct (address_map !! code t) as [addr|]; simpl;
      [destruct (decide (code t ∈ ds_used st)); simpl|];
      try (rewrite <- app_assoc; eauto); eauto.
Qed.

(** A slot whose code is used keeps its text, and the code stays used. *)
Lemma used_slot_kept tokens : forall st n addr,
  address_map !! n = Some addr -> n ∈ ds_used st ->
  ds_sheet (fold_left step tokens st) !! addr = ds_sheet st !! addr
  /\ n ∈ ds_used (fold_left step tokens st).
Proof.
  induction tokens as [|t tokens IH]; intros st n addr Ha Hn; simpl; [auto|].
  assert (Hstep : ds_sheet (step st t) !! addr = ds_sheet st !! addr
                  /\ n ∈ ds_used (step st t)).
  { unfold dispatch_token.
    destruct (address_map !! code t) as [addr'|] eqn:Ht; simpl; [|auto].
    destruct (decide (code t ∈ ds_used st)) as [Hu|Hu]; simpl; [auto|].
    split; [|apply elem_of_union; now right]. unfold put_value. apply lookup_insert_ne.
    intros ->. apply Hu. now rewrite (address_map_inj _ _ _ Ht Ha). }
  destruct Hstep as [Hs Hu]. destruct (IH (step st t) n addr Ha Hu) as [H1 H2].
  split; [now rewrite H1|auto].
Qed.

Lemma step_first st t addr :
  address_map !! code t = Some addr -> code t ∉ ds_used st ->
  ds_sheet (step st t) !! addr = Some (Text.strip t) /\ code t ∈ ds_used (step st t).
Proof.
  intros Ha Hu. unfold dispatch_token. rewrite Ha.
  destruct (decide (code t ∈ ds_used st)); [contradiction|]. simpl.
  split; [apply lookup_insert_eq|set_solver].
Qed.

Lemma step_repeat st t addr :
  address_map !! code t = Some addr -> code t ∈ ds_used st ->
  step st t = mkdispatch (ds_sheet st) (ds_unknown st ++ [Text.strip t]) (ds_used st).
Proof.
  intros Ha Hu. unfold dispatch_token. rewrite Ha.
  destruct (decide (code t ∈ ds_used st)); [reflexivity|contradiction].
Qed.

Lemma dispatch_duplicate sheet pre t1 mid t2 post addr :
  address_map !! code t1 = Some addr ->
  code t2 = code t1 ->
  (forall t, In t pre -> code t <> code t1) ->
  let st := dispatch_loop str_upper sheet (pre ++ t1 :: mid ++ t2 :: post) in
  ds_sheet st !! addr = Some (Text.strip t1) /\
  exists before after, ds_unknown st = before ++ Text.strip t2 :: after.
Proof.
  intros Ha H12 Hpre. unfold dispatch_loop. cbv zeta.
  rewrite fold_left_app. simpl fold_left. rewrite fold_left_app. simpl fold_left.
  set (st0 := mkdispatch sheet [] ∅).
  set (st_pre := fold_left step pre st0).
  assert (Hfresh : code t1 ∉ ds_used st_pre).
  { intros Hin. apply used_from_tokens in Hin. destruct Hin as [Hin|(t & Hin & Ht)].
    - simpl in Hin. set_solver.
    - now apply (Hpre t). }
  destruct (step_first st_pre t1 addr Ha Hfresh) as [Hs1 Hu1].
  set (st1 := step st_pre t1) in Hs1, Hu1 |- *.
  destruct (used_slot_kept mid st1 _ _ Ha Hu1) as [Hs2 Hu2].
  set (st_mid := fold_left step mid st1) in Hs2, Hu2 |- *.
  assert (Hrep := step_repeat st_mid t2 addr). rewrite H12 in Hrep.
  specialize (Hrep Ha Hu2). rewrite Hrep.
  set (st2 := mkdispatch (ds_sheet st_mid) (ds_unknown st_mid ++ [Text.strip t2])
                         (ds_used st_mid)).
  destruct (used_slot_kept post st2 _ _ Ha Hu2) as [Hs3 _].
  destruct (unknown_grows post st2) as [more Hmore].
  split.
  - rewrite Hs3. simpl. now rewrite Hs2.
  - exists (ds_unknown st_mid), more. rewrite Hmore. simpl. now rewrite <- app_assoc.
Qed.

End Dispatch.

Lemma basis_tokens_of_empty : basis_tokens [] = [].
Proof. reflexivity. Qed.

(** C6. On an empty input [write_detection_basis] sets every slot, the
    catch-all included, to the empty text and leaves every other address
    as it was; and when a token carries the code of an earlier token that
    took a slot, the slot keeps the text of the first one and the text of
    the later one is part of what is written to the catch-all slot. *)
Theorem C6_write_detection_basis (str_upper : text -> text) (sheet : gmap string text) :
  (forall basis_str (addr : string),
     or_empty basis_str = [] ->
     (In addr basis_slots ->
      write_detection_basis str_upper sheet basis_str !! addr = Some []) /\
     (~ In addr basis_slots ->
      write_detection_basis str_upper sheet basis_str !! addr = sheet !! addr))
  /\
  (forall (basis_str : text) (pre mid post : list text) (t1 t2 : text) (addr : string),
     basis_tokens basis_str = pre ++ t1 :: mid ++ t2 :: post ->
     address_map !! token_code str_upper t1 = Some addr ->
     token_code str_upper t2 = token_code str_upper t1 ->
     (forall t, In t pre -> token_code str_upper t <> token_code str_upper t1) ->
     write_detection_basis str_upper sheet (Some basis_str) !! addr
       = Some (Text.strip t1) /\
     exists before after,
       write_detection_basis str_upper sheet (Some basis_str) !! catch_all
       = Some (Text.join (u ", ") (before ++ Text.strip t2 :: after))).
Proof.
  split.
  - intros basis_str addr He. unfold write_detection_basis. rewrite He. simpl.
    apply clear_slots_lookup.
  - intros basis_str pre mid post t1 t2 addr Htok Ha H12 Hpre.
    unfold write_detection_basis. simpl or_empty.
    destruct basis_str as [|c basis_str].
    { rewrite basis_tokens_of_empty in Htok. now destruct pre. }
    cbn [nonempty negb]. cbv iota. rewrite Htok.
    destruct (dispatch_duplicate str_upper (clear_slots sheet) pre t1 mid t2 post addr
                Ha H12 Hpre) as [Hs (before & after & Hu)].
    rewrite Hu. destruct (before ++ Text.strip t2 :: after) eqn:E.
    { now destruct before. }
    rewrite <- E. unfold put_value. split.
    + rewrite lookup_insert_ne; [exact Hs|].
      intros Heq. symmetry in Heq. exact (address_map_not_catch_all _ _ Ha Heq).
    + exists before, after. apply lookup_insert_eq.
Qed.

(** ** DaySegmenter *)

Lemma marker_groups s m :
  In m (matches marker_re s) ->
  exists g1 g2, groups m = [g1; g2] /\ digit_run g1 /\ digit_run g2.
Proof.
  unfold marker_re. intros H.
  apply in_matches_cat in H. destruct H as (w1 & s1 & c1 & ? & ? & ? & H1 & H & ->).
  apply in_matches_cat in H. destruct H as (w2 & s2 & c2 & ? & ? & ? & H2 & H & [= -> -> ->]).
  apply in_matches_cat in H. destruct H as (w3 & s3 & c3 & ? & ? & ? & H3 & H & [= -> -> ->]).
  apply in_matches_cat in H. destruct H as (w4 & s4 & c4 & w5 & s5 & c5 & H4 & H5 & [= -> -> ->]).
  apply in_matches_group_rep in H1. destruct H1 as (g1 & ? & [= -> -> ->] & _ & Ha1 & Hl1).
  apply in_matches_group_rep in H5. destruct H5 as (g2 & ? & [= -> -> ->] & _ & Ha2 & Hl2).
  apply in_matches_nogroup in H2; [|exact I].
  apply in_matches_nogroup in H3; [|exact I].
  apply in_matches_nogroup in H4; [|exact I].
  unfold groups in *. simpl in *. subst. exists g1, g2.
  split; [reflexivity|]. split; eapply digit_run_of_rep; eauto.
Qed.

Lemma marker_of_never_raises val : exists o, marker_of val = Return o.
Proof.
  destruct val as [v|]; simpl; [|eauto].
  destruct (search marker_re _) as [m|] eqn:E; [|eauto].
  apply search_In in E. destruct E as [s' Hin]. apply marker_groups in Hin.
  destruct Hin as (g1 & g2 & -> & H1 & H2).
  apply int_digit_run in H1, H2. destruct H1 as [mo ->], H2 as [d ->]. simpl. eauto.
Qed.

Lemma scan_markers_spec ws rows :
  exists ms, scan_markers ws rows = Return ms /\
    forall r mo d, In (r, mo, d) ms ->
      In r rows /\ marker_of (cell_value ws r 6) = Return (Some (mo, d)).
Proof.
  induction rows as [|r rows (ms & IH & Hms)]; simpl.
  - exists []. split; [reflexivity|]. intros ? ? ? [].
  - destruct (marker_of_never_raises (cell_value ws r 6)) as [o Ho].
    rewrite Ho, IH. simpl. destruct o as [[mo d]|].
    + exists ((r, mo, d) :: ms). split; [reflexivity|].
      intros r' mo' d' [[= <- <- <-]|Hin]; [auto|].
      destruct (Hms _ _ _ Hin). auto.
    + exists ms. split; [reflexivity|]. intros r' mo' d' Hin.
      destruct (Hms _ _ _ Hin). auto.
Qed.

(** Every range of [ranges_per_day] ends at the row of a marker and
    carries the day of that marker. *)
Lemma split_ranges_end markers : forall prev key s e,
  In (key, (s, e)) (split_ranges prev markers) ->
  exists mo d, In (e, mo, d) markers /\ key = (mo, d).
Proof.
  induction markers as [|[[row mo] d] markers IH]; intros prev key s e Hin; simpl in Hin.
  - destruct Hin.
  - destruct Hin as [[= <- <- <-]|Hin].
    + exists mo, d. split; [now left|reflexivity].
    + destruct (IH _ _ _ _ Hin) as (mo' & d' & H1 & H2).
      exists mo', d'. split; [now right|assumption].
Qed.




Lemma dated_spec y d :
  exists out, dated y d = Return out /\
    forall dt ranges, In (dt, ranges) out -> exists key, In (key, ranges) d.
Proof.
  induction d as [|[[mo dy] ranges] d (out & IH & Hout)]; simpl.
  - exists []. split; [reflexivity|]. intros ? ? [].
  - rewrite IH. unfold datetime_new. destruct (valid_date y mo dy); simpl.
    + eexists. split; [reflexivity|]. intros dt rs [[= <- <-]|Hin]; [eauto|].
      destruct (Hout _ _ Hin) as [key Hk]. eauto.
    + exists out. split; [reflexivity|]. intros dt rs Hin.
      destruct (Hout _ _ Hin) as [key Hk]. eauto.
Qed.

(** *** The sort *)




Lemma insert_by_date_In x l y : In y (insert_by_date x l) <-> y = x \/ In y l.
Proof.
  induction l as [|z l IH]; simpl.
  - intuition.
  - destruct (datetime_leb (fst x) (fst z)); simpl; [intuition|].
    rewrite IH. intuition.
Qed.



Lemma sort_by_date_In l y : In y (sort_by_date l) <-> In y l.
Proof.
  induction l as [|x l IH]; simpl; [tauto|]. rewrite insert_by_date_In, IH. intuition.
Qed.

(** The segmenter always returns. *)
Lemma parse_day_ranges_returns now_year data_excel year_hint :
  exists out, parse_day_ranges_from_source now_year data_excel year_hint = Return out.
Proof.
  unfold parse_day_ranges_from_source. destruct data_excel as [ws|]; [|eauto].
  destruct (end_up_row ws 6 <? 2); [eauto|].
  destruct (scan_markers_spec ws (range 2 (end_up_row ws 6 + 1))) as (ms & -> & _).
  simpl. destruct ms as [|mk ms]; [eauto|].
  destruct (dated_spec (default now_year year_hint)
              (group_by_day (split_ranges 1 (mk :: ms)))) as (out & -> & _).
  simpl. eauto.
Qed.





Lemma C6_write_detection_basis_witness :
  let out := write_detection_basis Text.upper_ascii ∅
               (Some (u "GB50205-2020, gb50205—2020")) in
  write_detection_basis Text.upper_ascii ∅ None !! catch_all = Some [] /\
  out !! "B12:B12"%string = Some (u "GB50205-2020") /\
  exists before after,
    out !! catch_all = Some (Text.join (u ", ") (before ++ u "gb50205—2020" :: after)).
Proof.
  split.
  - apply (proj1 (C6_write_detection_basis Text.upper_ascii ∅) None catch_all).
    + reflexivity.
    + unfold catch_all. simpl. tauto.
  - apply (proj2 (C6_write_detection_basis Text.upper_ascii ∅)
             (u "GB50205-2020, gb50205—2020") [] [] []
             (u "GB50205-2020") (u "gb50205—2020") "B12:B12"%string).
    + vm_compute. reflexivity.
    + vm_compute. reflexivity.
    + vm_compute. reflexivity.
    + intros t [].
Defined.

(** * Further properties *)

(** ** The matcher, continued *)

Lemma rep_matches_upper p s : forall lo hi w r n,
  In (w, r) (rep_matches p lo hi s) -> hi = Some n -> (List.length w <= n)%nat.
Proof.
  induction s as [|c s IH]; intros lo hi w r n Hin ->.
  - simpl in Hin. destruct lo; simpl in Hin; [|tauto].
    destruct Hin as [[= <- <-]|[]]. simpl. lia.
  - simpl in Hin.
    assert (Hstop : In (w, r) (match lo with O => [([], c :: s)] | S _ => [] end) ->
                    (List.length w <= n)%nat).
    { destruct lo; simpl; [|tauto]. intros [[= <- <-]|[]]. simpl. lia. }
    destruct n as [|n]; [rewrite andb_false_r in Hin; auto|].
    destruct (p c); simpl in Hin; [|auto].
    apply in_app_or in Hin. destruct Hin as [Hin|Hin]; [|auto].
    apply in_map_iff in Hin. destruct Hin as [[w' r'] [[= <- <-] Hin]].
    apply (IH _ _ _ _ n) in Hin; [simpl; lia|reflexivity].
Qed.

Lemma in_matches_rep p lo hi s m :
  In m (matches (RRep p lo hi) s) ->
  exists w r, m = (w, r, []) /\ s = w ++ r /\ forallb p w = true
              /\ (lo <= List.length w)%nat
              /\ (forall n, hi = Some n -> (List.length w <= n)%nat).
Proof.
  simpl. intros Hin. apply in_map_iff in Hin. destruct Hin as [[w r] [<- Hin]].
  exists w, r. split; [reflexivity|].
  destruct (rep_matches_spec _ _ _ _ _ _ Hin) as (? & ? & ?).
  repeat split; auto. intros n Hn. eapply rep_matches_upper; eauto.
Qed.

Lemma in_matches_char c s m :
  In m (matches (RChar c) s) -> exists r, s = c :: r /\ m = ([c], r, []).
Proof.
  simpl. destruct s as [|x s]; [intros []|].
  destruct (x =? c)%N eqn:E; [|intros []]. apply N.eqb_eq in E. subst x.
  intros [<-|[]]. eauto.
Qed.

Lemma in_matches_group r s m :
  In m (matches (RGroup r) s) ->
  exists w r' g, In (w, r', g) (matches r s) /\ m = (w, r', w :: g).
Proof.
  simpl. intros Hin. apply in_map_iff in Hin. destruct Hin as [[[w r'] g] [<- Hin]].
  eauto 6.
Qed.

(** Erasing the groups of a pattern changes the captures and nothing else. *)
Lemma matches_erase r : forall s,
  matches (erase r) s = map (fun m : result => (fst (fst m), snd (fst m), [])) (matches r s).
Proof.
  induction r as [c|p|p lo hi|r IH|r1 IH1 r2 IH2|r IH]; intros s.
  - simpl. destruct s as [|x s]; [reflexivity|]. now destruct (x =? c)%N.
  - simpl. destruct s as [|x s]; [reflexivity|]. now destruct (p x).
  - simpl. rewrite map_map. reflexivity.
  - cbn [erase matches]. rewrite IH, map_app. reflexivity.
  - cbn [erase matches]. rewrite IH1.
    induction (matches r1 s) as [|[[w1 s1] g1] l IHl]; [reflexivity|].
    simpl. rewrite map_app, IHl. f_equal.
    rewrite IH2, !map_map. apply map_ext. intros [[w2 s2] g2]. reflexivity.
  - cbn [erase matches]. rewrite IH, map_map. apply map_ext.
    intros [[w s1] g]. reflexivity.
Qed.

Lemma search_map r r' (h : result -> result) :
  (forall s, matches r' s = map h (matches r s)) ->
  forall s, search r' s = option_map h (search r s).
Proof.
  intros H s. induction s as [|c s IH]; simpl; unfold match_here; rewrite H.
  - now destruct (matches r []).
  - destruct (matches r (c :: s)); [exact IH|reflexivity].
Qed.

Lemma search_Some_split r s m :
  search r s = Some m -> exists pre s' tl, s = pre ++ s' /\ matches r s' = m :: tl.
Proof.
  induction s as [|c s IH]; simpl; unfold match_here.
  - destruct (matches r []) eqn:E; [discriminate|]. intros [= <-].
    exists [], [], l. auto.
  - destruct (matches r (c :: s)) eqn:E.
    + intros H. destruct (IH H) as (pre & s' & tl & -> & Hm).
      exists (c :: pre), s', tl. auto.
    + intros [= <-]. exists [], (c :: s), l. auto.
Qed.

Lemma search_found_later r pre : forall s' m tl,
  matches r s' = m :: tl -> exists m', search r (pre ++ s') = Some m'.
Proof.
  induction pre as [|c pre IH]; intros s' m tl Hm.
  - exists m. simpl. eapply search_head; eauto.
  - simpl. unfold match_here. destruct (matches r (c :: pre ++ s')); [eauto|eauto].
Qed.

(** ** DateLexicon, continued *)

(** Every match of the date pattern is a written date, and captures its
    three numbers. *)
Lemma cn_date_shape s m :
  In m (matches cn_date_re s) ->
  exists ys ms ds rest,
    m = (written_date ys ms ds, rest, [ys; ms; ds]) /\
    s = written_date ys ms ds ++ rest /\ date_digits ys ms ds.
Proof.
  unfold cn_date_re. intros H.
  apply in_matches_cat in H. destruct H as (w1 & s1 & c1 & ? & ? & ? & H1 & H & ->).
  apply in_matches_cat in H. destruct H as (w2 & s2 & c2 & ? & ? & ? & H2 & H & [= -> -> ->]).
  apply in_matches_cat in H. destruct H as (w3 & s3 & c3 & ? & ? & ? & H3 & H & [= -> -> ->]).
  apply in_matches_cat in H. destruct H as (w4 & s4 & c4 & ? & ? & ? & H4 & H & [= -> -> ->]).
  apply in_matches_cat in H. destruct H as (w5 & s5 & c5 & w6 & s6 & c6 & H5 & H6 & [= -> -> ->]).
  apply in_matches_group in H1. destruct H1 as (ys & ? & ? & H1 & [= -> -> ->]).
  apply in_matches_group in H3. destruct H3 as (ms & ? & ? & H3 & [= -> -> ->]).
  apply in_matches_group in H5. destruct H5 as (ds & ? & ? & H5 & [= -> -> ->]).
  apply in_matches_rep in H1. destruct H1 as (? & ? & [= <- <- ->] & -> & Dy & Ly & Uy).
  apply in_matches_rep in H3. destruct H3 as (? & ? & [= <- <- ->] & -> & Dm & Lm & Um).
  apply in_matches_rep in H5. destruct H5 as (? & ? & [= <- <- ->] & -> & Dd & Ld & Ud).
  apply in_matches_char in H2. destruct H2 as (? & -> & [= -> <- ->]).
  apply in_matches_char in H4. destruct H4 as (? & -> & [= -> <- ->]).
  apply in_matches_char in H6. destruct H6 as (? & -> & [= -> <- ->]).
  specialize (Uy _ eq_refl). specialize (Um _ eq_refl). specialize (Ud _ eq_refl).
  exists ys, ms, ds, s6. unfold written_date, date_digits.
  change (u "年") with [chr "年"]. change (u "月") with [chr "月"].
  change (u "日") with [chr "日"].
  repeat split; auto; try lia.
  rewrite <- !app_assoc. reflexivity.
Qed.

Lemma first_date_matches s :
  matches first_date_re s
  = map (fun m : result => (fst (fst m), snd (fst m), [fst (fst m)])) (matches cn_date_re s).
Proof.
  change first_date_re with (RGroup (erase cn_date_re)).
  cbn [matches]. rewrite matches_erase, map_map. apply map_ext.
  intros [[w r] g]. reflexivity.
Qed.

Lemma first_date_str_search s :
  first_date_str s = match search cn_date_re (or_empty s) with
                     | Some m => matched m
                     | None => Text.strip (or_empty s)
                     end.
Proof.
  unfold first_date_str. rewrite (search_map _ _ _ first_date_matches).
  destruct (search cn_date_re (or_empty s)) as [[[w r] g]|]; reflexivity.
Qed.

Lemma search_app_pre r pre : forall s m,
  search r s = Some m -> exists m', search r (pre ++ s) = Some m'.
Proof.
  induction pre as [|c pre IH]; intros s m H; [eauto|].
  simpl. destruct (match_here r (c :: pre ++ s)); eauto.
Qed.

Lemma drop_while_suffix p s : exists l, s = l ++ Text.drop_while p s.
Proof.
  induction s as [|c s [l IH]]; simpl; [exists []; reflexivity|].
  destruct (p c); [|exists []; reflexivity].
  exists (c :: l). simpl. now rewrite <- IH.
Qed.

Lemma strip_infix s : exists l t, s = l ++ Text.strip s ++ t.
Proof.
  unfold Text.strip. destruct (drop_while_suffix Text.is_space s) as [l Hl].
  destruct (drop_while_suffix Text.is_space (rev (Text.drop_while Text.is_space s)))
    as [t Ht].
  exists l, (rev t). rewrite <- rev_app_distr, <- Ht, rev_involutive. exact Hl.
Qed.

(** A text without a date has none in any part of it. *)
Lemma search_cn_date_infix l mid t :
  search cn_date_re (l ++ mid ++ t) = None -> search cn_date_re mid = None.
Proof.
  intros Hnone. destruct (search cn_date_re mid) as [m|] eqn:E; [|reflexivity].
  exfalso. apply search_Some_split in E. destruct E as (pre & s' & tl & -> & Hm).
  assert (Hin : In m (matches cn_date_re s')) by (rewrite Hm; now left).
  apply cn_date_shape in Hin.
  destruct Hin as (ys & ms & ds & rest & _ & -> & (Dy & Ly & Dm & Lm & Dd & Ld)).
  destruct (cn_date_matches_written ys ms ds (rest ++ t) Dy Ly Dm Lm Dd Ld) as [w Hw].
  destruct (search_app_pre cn_date_re (l ++ pre) _ _ Hw) as [m' Hm'].
  unfold written_date in Hnone.
  rewrite <- !app_assoc in Hnone. rewrite <- !app_assoc in Hm'.
  rewrite Hm' in Hnone. discriminate.
Qed.

Lemma or_empty_Some (x : text) : or_empty (Some x) = x.
Proof. reflexivity. Qed.

Lemma search_written ys ms ds rest :
  date_digits ys ms ds ->
  search cn_date_re (written_date ys ms ds ++ rest)
  = Some (written_date ys ms ds, rest, [ys; ms; ds]).
Proof.
  intros (Dy & Ly & Dm & Lm & Dd & Ld).
  destruct (cn_date_matches_written ys ms ds rest Dy Ly Dm Lm Dd Ld) as [w Hw].
  unfold written_date at 1. rewrite <- !app_assoc. rewrite Hw.
  apply search_In in Hw. destruct Hw as [s' Hin]. apply cn_date_shape in Hin.
  destruct Hin as (ys' & ms' & ds' & rest' & [= -> -> -> -> ->] & _). reflexivity.
Qed.

(** X1. [parse_cn_date] returns on every text, and a date it returns is a
    day of the calendar. *)
Theorem parse_cn_date_returns_calendar_day (s : option text) :
  exists r, parse_cn_date s = Return r /\
    forall dt, r = Some dt -> valid_date (year dt) (month dt) (day dt) = true.
Proof.
  unfold parse_cn_date. destruct (search cn_date_re (or_empty s)) as [m|] eqn:E.
  2: { exists None. split; [reflexivity|discriminate]. }
  apply search_In in E. destruct E as [s' Hin].
  apply ymd_of_cn_date_groups in Hin. destruct Hin as (y & mo & d & ->). simpl.
  unfold datetime_new. destruct (valid_date y mo d) eqn:Hv; simpl.
  - eexists. split; [reflexivity|]. intros dt [= <-]. exact Hv.
  - exists None. split; [reflexivity|discriminate].
Qed.

(** X2. Cutting a text down to its first date with [first_date_str] does
    not change what [parse_cn_date] reads from it. *)
Theorem parse_cn_date_of_first_date_str (s : option text) :
  parse_cn_date (Some (first_date_str s)) = parse_cn_date s.
Proof.
  rewrite first_date_str_search. unfold parse_cn_date at 2.
  destruct (search cn_date_re (or_empty s)) as [m|] eqn:E.
  - apply search_Some_split in E. destruct E as (pre & s' & tl & _ & Hm).
    assert (Hin : In m (matches cn_date_re s')) by (rewrite Hm; now left).
    apply cn_date_shape in Hin.
    destruct Hin as (ys & ms & ds & rest & -> & _ & Hd).
    unfold parse_cn_date, matched. cbn [fst]. rewrite or_empty_Some.
    rewrite <- (app_nil_r (written_date ys ms ds)) at 1.
    rewrite (search_written _ _ _ [] Hd). reflexivity.
  - destruct (strip_infix (or_empty s)) as (l & t & Hs). rewrite Hs in E.
    apply search_cn_date_infix in E. unfold parse_cn_date.
    rewrite or_empty_Some, E. reflexivity.
Qed.

Lemma strip_idempotent s : Text.strip (Text.strip s) = Text.strip s.
Proof.
  assert (Hd : forall p t, Text.drop_while p (Text.drop_while p t) = Text.drop_while p t).
  { intros p t. induction t as [|c t IH]; simpl; [reflexivity|].
    destruct (p c) eqn:E; [exact IH|]. simpl. now rewrite E. }
  unfold Text.strip.
  set (a := rev (Text.drop_while Text.is_space (rev (Text.drop_while Text.is_space s)))).
  assert (Ha : Text.drop_while Text.is_space a = a).
  { subst a. destruct (Text.drop_while Text.is_space s) as [|c t] eqn:E; [reflexivity|].
    assert (Hc : Text.is_space c = false).
    { clear -E. induction s as [|x s IH]; simpl in E; [discriminate|].
      destruct (Text.is_space x) eqn:Ex; [auto|]. now injection E as <- _. }
    simpl rev.
    assert (Hlast : forall r, Text.drop_while Text.is_space (r ++ [c]) <> []).
    { induction r as [|x r IHr]; simpl; [now rewrite Hc|].
      destruct (Text.is_space x); [exact IHr|discriminate]. }
    specialize (Hlast (rev t)).
    destruct (drop_while_suffix Text.is_space (rev t ++ [c])) as [l Hl].
    assert (Hex : exists r', Text.drop_while Text.is_space (rev t ++ [c]) = r' ++ [c]).
    { destruct (Text.drop_while Text.is_space (rev t ++ [c])) as [|y q] eqn:Eq using rev_ind;
        [congruence|].
      rewrite app_assoc in Hl. apply app_inj_tail in Hl. destruct Hl as [_ <-]. eauto. }
    destruct Hex as [r' ->]. rewrite rev_app_distr. simpl. now rewrite Hc. }
  rewrite Ha. subst a. rewrite rev_involutive, Hd. reflexivity.
Qed.

Lemma first_date_str_twice (s : option text) :
  first_date_str (Some (first_date_str s)) = first_date_str s.
Proof.
  rewrite !first_date_str_search.
  destruct (search cn_date_re (or_empty s)) as [m|] eqn:E.
  - apply search_Some_split in E. destruct E as (pre & s' & tl & _ & Hm).
    assert (Hin : In m (matches cn_date_re s')) by (rewrite Hm; now left).
    apply cn_date_shape in Hin.
    destruct Hin as (ys & ms & ds & rest & -> & _ & Hd).
    unfold matched. cbn [fst]. rewrite or_empty_Some.
    rewrite <- (app_nil_r (written_date ys ms ds)) at 1.
    rewrite (search_written _ _ _ [] Hd). reflexivity.
  - destruct (strip_infix (or_empty s)) as (l & t & Hs). rewrite Hs in E.
    apply search_cn_date_infix in E. rewrite or_empty_Some, E.
    apply strip_idempotent.
Qed.

(** X3. [first_date_str] applied twice is [first_date_str]. *)
Theorem first_date_str_idempotent (s : option text) :
  first_date_str (Some (first_date_str s)) = first_date_str s.
Proof. apply first_date_str_twice. Qed.

(** The first entry of [findall] is the match [search] finds. *)
Lemma findall_search r s :
  match findall r s with
  | [] => search r s = None
  | g :: _ => exists m, search r s = Some m /\ groups m = g
  end.
Proof.
  unfold findall. induction s as [|c s IH]; simpl.
  - destruct (match_here r []) as [m|]; [eauto|reflexivity].
  - destruct (match_here r (c :: s)) as [m|]; [eauto|exact IH].
Qed.

(** X4. When [parse_cn_date_range] returns a pair, its first component is
    what [parse_cn_date] returns on the same text. *)
Theorem parse_cn_date_range_first_is_parse_cn_date (txt : option text)
    (a b : option datetime) :
  parse_cn_date_range txt = Return (a, b) -> parse_cn_date txt = Return a.
Proof.
  unfold parse_cn_date_range, parse_cn_date.
  pose proof (findall_search cn_date_re (or_empty txt)) as H.
  destruct (findall cn_date_re (or_empty txt)) as [|p1 [|p2 rest]].
  - rewrite H. now intros [= <- <-].
  - destruct H as (m & -> & ->).
    destruct (ymd_of_groups p1) as [[[y mo] d]|e]; simpl; [|discriminate].
    destruct (datetime_new y mo d) as [dt|e]; simpl; [|discriminate].
    now intros [= <- <-].
  - destruct H as (m & -> & ->).
    destruct (ymd_of_groups p1) as [[[y mo] d]|e]; simpl; [|discriminate].
    destruct (datetime_new y mo d) as [dt|e]; simpl; [|discriminate].
    destruct (ymd_of_groups p2) as [[[y2 m2] d2]|e]; simpl; [|discriminate].
    destruct (datetime_new y2 m2 d2) as [dt2|e]; simpl; [|discriminate].
    now intros [= <- <-].
Qed.

Lemma parse_cn_date_range_first_witness :
  parse_cn_date (Some (u "探伤日期：2025年3月31日至2025年4月4日"))
  = Return (Some (mkdatetime 2025 3 31)).
Proof.
  apply (parse_cn_date_range_first_is_parse_cn_date _ _ (Some (mkdatetime 2025 4 4))).
  vm_compute. reflexivity.
Defined.

(** ** TemperatureEstimator, continued *)

Lemma days_before_year_succ y :
  days_before_year (y + 1) = days_before_year y + 365 + (if is_leap y then 1 else 0).
Proof.
  unfold days_before_year, is_leap. replace (y + 1 - 1) with y by lia.
  destruct (y mod 4 =? 0) eqn:E4; destruct (y mod 100 =? 0) eqn:E100;
    destruct (y mod 400 =? 0) eqn:E400; cbn [andb orb negb];
    rewrite ?Z.eqb_eq, ?Z.eqb_neq in *; Z.to_euclidean_division_equations; lia.
Qed.

(** The length of the month, as the function counts it from two dates, is
    the length of the month in the calendar. *)
Lemma month_length_by_difference y m :
  1 <= m <= 12 ->
  days_between (if m =? 12 then mkdatetime (y + 1) 1 1 else mkdatetime y (m + 1) 1)
               (mkdatetime y m 1)
  = days_in_month y m.
Proof.
  intros Hm.
  assert (Hcases : m = 1 \/ m = 2 \/ m = 3 \/ m = 4 \/ m = 5 \/ m = 6 \/ m = 7
                   \/ m = 8 \/ m = 9 \/ m = 10 \/ m = 11 \/ m = 12) by lia.
  unfold days_between, toordinal, days_before_month, days_in_month.
  repeat (destruct Hcases as [->|Hcases]); [..|subst m];
    cbn [Z.eqb Pos.eqb year month day]; try rewrite days_before_year_succ;
    destruct (is_leap y); simpl; lia.
Qed.

Lemma beijing_temp_by_month_length y m d :
  valid_date y m d = true -> (m = 12 -> y < 9999) ->
  beijing_temp_guess_number (Some (mkdatetime y m d))
  = (n ← estimate_number m d (days_in_month y m); Return (Text.of_int n)).
Proof.
  intros Hv Hdec. destruct (valid_date_bounds _ _ _ Hv) as (Hy & Hm & Hd).
  unfold beijing_temp_guess_number, estimate_number. cbn [year month day].
  rewrite <- (month_length_by_difference y m Hm).
  destruct (m =? 12) eqn:E.
  - apply Z.eqb_eq in E. subst m.
    rewrite (datetime_new_first_day (y + 1)), (datetime_new_first_day y) by lia.
    cbn [mbind py_bind]. destruct (getitem month_mean 12); [|reflexivity].
    cbn [mbind py_bind]. destruct (getitem month_mean 1); reflexivity.
  - apply Z.eqb_neq in E.
    rewrite !(datetime_new_first_day y) by lia.
    cbn [mbind py_bind]. destruct (getitem month_mean m); [|reflexivity].
    cbn [mbind py_bind]. destruct (getitem month_mean (m + 1)); reflexivity.
Qed.

Lemma estimate_number_bounds m d l :
  1 <= m <= 12 -> 1 <= d <= 31 -> 28 <= l <= 31 ->
  estimate_within (-5) 28 (m, d, l) = true.
Proof.
  intros Hm Hd Hl.
  assert (H : forallb (estimate_within (-5) 28)
                (flat_map (fun m => flat_map (fun d => map (fun l => (m, d, l))
                                                           (range 28 32))
                                             (range 1 32))
                          (range 1 13)) = true) by (vm_compute; reflexivity).
  eapply forallb_forall in H; [exact H|].
  apply in_flat_map. exists m. split; [apply in_range; lia|].
  apply in_flat_map. exists d. split; [apply in_range; lia|].
  apply in_map_iff. exists l. split; [reflexivity|apply in_range; lia].
Qed.

Lemma days_in_month_bounds y m : 1 <= m <= 12 -> 28 <= days_in_month y m <= 31.
Proof.
  intros Hm. unfold days_in_month. destruct ((m =? 2) && is_leap y); [lia|].
  assert (Hcases : m = 1 \/ m = 2 \/ m = 3 \/ m = 4 \/ m = 5 \/ m = 6 \/ m = 7
                   \/ m = 8 \/ m = 9 \/ m = 10 \/ m = 11 \/ m = 12) by lia.
  repeat (destruct Hcases as [->|Hcases]); [..|subst m]; simpl; lia.
Qed.

(** The estimate of a date of the calendar, December 9999 apart. *)
Lemma beijing_temp_estimate (y m d : Z) :
  valid_date y m d = true -> (m = 12 -> y < 9999) ->
  exists n, beijing_temp_guess_number (Some (mkdatetime y m d))
            = Return (Text.of_int n) /\ -5 <= n <= 28.
Proof.
  intros Hv Hdec.
  destruct (valid_date_bounds _ _ _ Hv) as (Hy & Hm & Hd).
  rewrite (beijing_temp_by_month_length _ _ _ Hv Hdec).
  pose proof (estimate_number_bounds m d (days_in_month y m) Hm Hd
                (days_in_month_bounds y m Hm)) as H.
  unfold estimate_within in H.
  destruct (estimate_number m d (days_in_month y m)) as [n|e]; [|discriminate].
  exists n. split; [reflexivity|]. apply andb_prop in H as [H1 H2]. lia.
Qed.

(** X5. For every date of the calendar but those of December 9999, the
    estimate is returned and is the decimal writing of a whole number
    between -5 and 28; without a date it is the empty text. *)
Theorem beijing_temp_in_range (y m d : Z) :
  beijing_temp_guess_number None = Return [] /\
  (valid_date y m d = true -> (m = 12 -> y < 9999) ->
   exists n, beijing_temp_guess_number (Some (mkdatetime y m d))
             = Return (Text.of_int n) /\ -5 <= n <= 28).
Proof. split; [reflexivity|apply beijing_temp_estimate]. Qed.

Lemma beijing_temp_in_range_witness :
  exists n, beijing_temp_guess_number (Some (mkdatetime 2025 3 31))
            = Return (Text.of_int n) /\ -5 <= n <= 28.
Proof.
  apply (proj2 (beijing_temp_in_range 2025 3 31)); [reflexivity|lia].
Defined.

(** ** FieldExtractor, continued *)

Lemma first_index_split (f : option text -> bool) l : forall k j more,
  map fst (List.filter (fun it : nat * option text => f (snd it))
                       (combine (seq k (List.length l)) l)) = j :: more ->
  exists pre x post,
    l = pre ++ x :: post /\ j = (k + List.length pre)%nat /\
    (forall c, In c pre -> f c = false) /\ f x = true.
Proof.
  induction l as [|c l IH]; intros k j more H; simpl in H; [discriminate|].
  destruct (f c) eqn:E.
  - simpl in H. injection H as <- _. exists [], c, l.
    split; [reflexivity|]. split; [simpl; lia|]. split; [intros ? []|exact E].
  - destruct (IH _ _ _ H) as (pre & x & post & -> & -> & Hpre & Hx).
    exists (c :: pre), x, post.
    split; [reflexivity|]. split; [simpl; lia|]. split; [|exact Hx].
    intros c' [<-|Hin]; auto.
Qed.

Lemma first_index_none (f : option text -> bool) l : forall k,
  (forall c, In c l -> f c = false) ->
  map fst (List.filter (fun it : nat * option text => f (snd it))
                       (combine (seq k (List.length l)) l)) = [].
Proof.
  induction l as [|c l IH]; intros k H; simpl; [reflexivity|].
  rewrite (H c) by now left. apply IH. intros; apply H; now right.
Qed.

Lemma first_value_sound cells v :
  first_value cells = Some v ->
  exists c, In c cells /\ v = Text.strip (or_empty c) /\ nonempty v = true
            /\ is_label (Some v) = false.
Proof.
  induction cells as [|c cells IH]; simpl; [discriminate|].
  destruct (nonempty (Text.strip (or_empty c))) eqn:E1;
    [destruct (is_label (Some (Text.strip (or_empty c)))) eqn:E2|]; simpl.
  - intros H. destruct (IH H) as (c' & ? & ?). eauto.
  - intros [= <-]. exists c. auto.
  - intros H. destruct (IH H) as (c' & ? & ?). eauto.
Qed.

(** X6. A value [value_after_label] returns is never empty and never a
    label: it is the stripped text of a cell to the right of the first cell
    that holds the label.  When no cell holds the label there is no value. *)
Theorem value_after_label_sound (row_cells : list (option text)) (label_sub : text) :
  (forall v, value_after_label row_cells label_sub = Some v ->
     exists pre lab post c,
       row_cells = pre ++ lab :: post /\
       (forall c', In c' pre -> Text.contains label_sub (or_empty c') = false) /\
       Text.contains label_sub (or_empty lab) = true /\
       In c post /\ v = Text.strip (or_empty c) /\
       nonempty v = true /\ is_label (Some v) = false) /\
  ((forall c, In c row_cells -> Text.contains label_sub (or_empty c) = false) ->
   value_after_label row_cells label_sub = None).
Proof.
  unfold value_after_label, enumerate. split.
  - intros v H.
    destruct (map fst _) as [|j more] eqn:E; [discriminate|].
    apply (first_index_split (fun c => Text.contains label_sub (or_empty c))) in E.
    destruct E as (pre & lab & post & -> & -> & Hpre & Hlab).
    simpl Nat.add in H.
    replace (skipn (S (List.length pre)) (pre ++ lab :: post)) with post in H.
    + apply first_value_sound in H. destruct H as (c & Hin & Hv & Hn & Hl).
      exists pre, lab, post, c. auto 10.
    + change (S (List.length pre)) with (1 + List.length pre)%nat.
      rewrite <- skipn_skipn, skipn_app, skipn_all, Nat.sub_diag. reflexivity.
  - intros H.
    rewrite (first_index_none (fun c => Text.contains label_sub (or_empty c)) _ 0 H).
    reflexivity.
Qed.

Lemma value_after_label_sound_witness :
  exists pre lab post c,
    [Some (u "材质"); Some (u " "); Some (u "Q355B ")] = pre ++ lab :: post /\
    In c post /\ u "Q355B" = Text.strip (or_empty c).
Proof.
  destruct (proj1 (value_after_label_sound
                     [Some (u "材质"); Some (u " "); Some (u "Q355B ")] (u "材质"))
                  (u "Q355B") eq_refl)
    as (pre & lab & post & c & H1 & _ & _ & H4 & H5 & _).
  exists pre, lab, post, c. auto.
Defined.

(** ** BasisCodeDispatcher, continued *)

Lemma address_map_in_slots n a : address_map !! n = Some a -> In a basis_slots.
Proof.
  intros H. apply address_map_elem in H. simpl in H. unfold basis_slots. simpl.
  repeat (destruct H as [H|H]; [injection H as _ <-; tauto|]). destruct H.
Qed.

Section DispatchMore.

Variable str_upper : text -> text.

Local Notation "'code'" := (token_code str_upper).
Local Notation "'step'" := (dispatch_token str_upper).

(** The loop writes a slot only for a token that carries its code. *)
Lemma loop_keeps_other_addresses tokens : forall st (addr : string),
  (forall t a, In t tokens -> address_map !! code t = Some a -> a <> addr) ->
  ds_sheet (fold_left step tokens st) !! addr = ds_sheet st !! addr.
Proof.
  induction tokens as [|t tokens IH]; intros st addr H; simpl; [reflexivity|].
  rewrite IH by (intros t' a Hin; apply H; now right).
  unfold dispatch_token.
  destruct (address_map !! code t) as [a|] eqn:Ea; [|reflexivity].
  destruct (decide (code t ∈ ds_used st)); [reflexivity|]. simpl.
  unfold put_value. apply lookup_insert_ne. apply (H t a); [now left|exact Ea].
Qed.

(** After a token is handled its text is in its slot or in [unknown_list],
    and stays there. *)
Lemma loop_keeps_token pre t post st0 :
  let st := fold_left step (pre ++ t :: post) st0 in
  (exists addr, address_map !! code t = Some addr /\
                ds_sheet st !! addr = Some (Text.strip t)) \/
  (exists before after, ds_unknown st = before ++ Text.strip t :: after).
Proof.
  cbv zeta. rewrite fold_left_app. simpl fold_left.
  set (st1 := fold_left step pre st0).
  destruct (address_map !! code t) as [addr|] eqn:Ea.
  - destruct (decide (code t ∈ ds_used st1)) as [Hu|Hu].
    + right. rewrite (step_repeat str_upper st1 t addr Ea Hu).
      destruct (unknown_grows str_upper post
                  (mkdispatch (ds_sheet st1) (ds_unknown st1 ++ [Text.strip t])
                              (ds_used st1))) as [more ->].
      exists (ds_unknown st1), more. simpl. now rewrite <- app_assoc.
    + left. exists addr. split; [reflexivity|].
      destruct (step_first str_upper st1 t addr Ea Hu) as [Hs Hin].
      destruct (used_slot_kept str_upper post _ _ _ Ea Hin) as [-> _]. exact Hs.
  - right. unfold dispatch_token at 2. rewrite Ea.
    destruct (unknown_grows str_upper post
                (mkdispatch (ds_sheet st1) (ds_unknown st1 ++ [Text.strip t])
                            (ds_used st1))) as [more ->].
    exists (ds_unknown st1), more. simpl. now rewrite <- app_assoc.
Qed.

End DispatchMore.

(** Addresses that are no slot are left alone. *)
Lemma write_detection_basis_outside_slots (str_upper : text -> text)
    (sheet : gmap string text) (basis_str : option text) (addr : string) :
  ~ In addr basis_slots ->
  write_detection_basis str_upper sheet basis_str !! addr = sheet !! addr.
Proof.
  intros Hnin. unfold write_detection_basis.
  assert (Hloop : forall tokens,
            ds_sheet (dispatch_loop str_upper (clear_slots sheet) tokens) !! addr
            = sheet !! addr).
  { intros tokens. unfold dispatch_loop. rewrite loop_keeps_other_addresses.
    - simpl. now apply clear_slots_lookup.
    - intros t a _ Ha ->. apply Hnin. eapply address_map_in_slots; eauto. }
  destruct (negb (nonempty (or_empty basis_str))); [now apply clear_slots_lookup|].
  destruct (ds_unknown _); [apply Hloop|].
  unfold put_value. rewrite lookup_insert_ne; [apply Hloop|].
  intros <-. apply Hnin. unfold basis_slots, catch_all. simpl. tauto.
Qed.



(** X8. No token is lost: the stripped text of every token of the input is
    either the value of the slot of its code or a part of what is written
    to the catch-all slot. *)
Theorem write_detection_basis_keeps_every_token (str_upper : text -> text)
    (sheet : gmap string text) (basis_str : text) (t : text) :
  In t (basis_tokens basis_str) ->
  let out := write_detection_basis str_upper sheet (Some basis_str) in
  (exists addr, address_map !! token_code str_upper t = Some addr /\
                out !! addr = Some (Text.strip t)) \/
  (exists before after,
     out !! catch_all = Some (Text.join (u ", ") (before ++ Text.strip t :: after))).
Proof.
  intros Hin. cbv zeta. unfold write_detection_basis. rewrite or_empty_Some.
  destruct basis_str as [|c basis_str]; [destruct Hin|].
  cbn [nonempty negb]. cbv iota.
  apply in_split in Hin. destruct Hin as (pre & post & ->).
  unfold dispatch_loop.
  pose proof (loop_keeps_token str_upper pre t post
                (mkdispatch (clear_slots sheet) [] ∅)) as H.
  cbv zeta in H. destruct H as [(addr & Ha & Hs)|(before & after & Hu)].
  - left. exists addr. split; [exact Ha|].
    destruct (ds_unknown _); [exact Hs|].
    unfold put_value. rewrite lookup_insert_ne; [exact Hs|].
    intros Heq. symmetry in Heq. exact (address_map_not_catch_all _ _ Ha Heq).
  - right. exists before, after. rewrite Hu.
    destruct (before ++ Text.strip t :: after) eqn:E; [now destruct before|].
    rewrite <- E. apply lookup_insert_eq.
Qed.

Lemma write_detection_basis_keeps_every_token_witness :
  let out := write_detection_basis Text.upper_ascii ∅ (Some (u "GB50205-2020, Q/ABC")) in
  (exists addr, address_map !! token_code Text.upper_ascii (u "Q/ABC") = Some addr /\
                out !! addr = Some (Text.strip (u "Q/ABC"))) \/
  (exists before after,
     out !! catch_all
     = Some (Text.join (u ", ") (before ++ Text.strip (u "Q/ABC") :: after))).
Proof.
  apply (write_detection_basis_keeps_every_token Text.upper_ascii ∅
           (u "GB50205-2020, Q/ABC") (u "Q/ABC")).
  vm_compute. tauto.
Defined.

(** X9. A slot whose code no token of the input carries holds the empty
    text after [write_detection_basis]. *)
Theorem write_detection_basis_clears_unused_slot (str_upper : text -> text)
    (sheet : gmap string text) (basis_str : option text) (n : text) (addr : string) :
  address_map !! n = Some addr ->
  (forall t, In t (basis_tokens (or_empty basis_str)) -> token_code str_upper t <> n) ->
  write_detection_basis str_upper sheet basis_str !! addr = Some [].
Proof.
  intros Ha Hno. unfold write_detection_basis.
  pose proof (address_map_in_slots _ _ Ha) as Hslot.
  assert (Hloop :
            ds_sheet (dispatch_loop str_upper (clear_slots sheet)
                        (basis_tokens (or_empty basis_str))) !! addr = Some []).
  { unfold dispatch_loop. rewrite loop_keeps_other_addresses.
    - simpl. now apply clear_slots_lookup.
    - intros t a Hin Hta ->. apply (Hno t Hin). exact (address_map_inj _ _ _ Hta Ha). }
  destruct (negb (nonempty (or_empty basis_str))); [now apply clear_slots_lookup|].
  destruct (ds_unknown _); [exact Hloop|].
  unfold put_value. rewrite lookup_insert_ne; [exact Hloop|].
  intros Heq. symmetry in Heq. exact (address_map_not_catch_all _ _ Ha Heq).
Qed.

Lemma write_detection_basis_clears_unused_slot_witness :
  write_detection_basis Text.upper_ascii {[ "C12:C12"%string := u "old" ]}
    (Some (u "GB50205-2020")) !! "C12:C12"%string = Some [].
Proof.
  apply (write_detection_basis_clears_unused_slot Text.upper_ascii _ _ (u "GB50661-2011")).
  - vm_compute. reflexivity.
  - intros t Hin. vm_compute in Hin. destruct Hin as [<-|[]]. vm_compute. discriminate.
Defined.

(** ** ProbeSelector, continued *)

Section Picks.

Variable str_upper : text -> text.
Variable ws : worksheet.
Variable J : text -> Prop.

Lemma add_models_ok models : forall st,
  picks_ok J st -> (forall m, In m models -> J m) -> picks_ok J (add_models st models).
Proof.
  unfold add_models.
  induction models as [|m models IH]; intros [picked seen] Hok HJ; simpl; [exact Hok|].
  apply IH; [|intros; apply HJ; now right].
  cbn [fst snd]. destruct (decide (m ∈ seen)) as [Hin|Hnin]; [exact Hok|].
  destruct Hok as (Hnd & Hseen & Hj). simpl in *.
  unfold picks_ok. simpl. split; [|split].
  - apply NoDup_app. split; [exact Hnd|]. split; [|apply NoDup_singleton].
    intros x Hx Hm. apply list_elem_of_singleton in Hm. subst x.
    apply Hnin, Hseen. now apply list_elem_of_In.
  - intros x. rewrite elem_of_union, elem_of_singleton, in_app_iff, Hseen.
    simpl. intuition.
  - intros x Hx. apply in_app_or in Hx. destruct Hx as [Hx|[<-|[]]]; [auto|].
    apply HJ. now left.
Qed.

Lemma scan_row_ok st r :
  picks_ok J st -> (forall m, selected_by str_upper ws r m -> J m) ->
  picks_ok J (scan_row str_upper ws st r).
Proof.
  intros Hok HJ. unfold scan_row.
  destruct (_pick_weld_type str_upper (cell_value ws r 3) None) as [weld|] eqn:Ew;
    [|exact Hok].
  destruct (PROBE_RULES !! weld) as [rules|] eqn:Er; [|exact Hok].
  destruct (row_thickness ws r) as [th|] eqn:Et; [|exact Hok].
  destruct (match_rule rules th) as [models|] eqn:Em; [|exact Hok].
  apply add_models_ok; [exact Hok|]. intros m Hm. apply HJ.
  exists weld, rules, th, models. auto.
Qed.

Lemma scan_rows_ok rows : forall st,
  picks_ok J st ->
  (forall r m, In r rows -> selected_by str_upper ws r m -> J m) ->
  picks_ok J (fold_left (scan_row str_upper ws) rows st).
Proof.
  induction rows as [|r rows IH]; intros st Hok HJ; simpl; [exact Hok|].
  apply IH; [|intros r' m Hin; apply HJ; now right].
  apply scan_row_ok; [exact Hok|]. intros m. apply HJ. now left.
Qed.

Lemma scan_segments_ok last_row segments : forall st,
  picks_ok J st ->
  (forall r m, 2 <= r <= last_row -> selected_by str_upper ws r m -> J m) ->
  picks_ok J (fold_left (scan_segment str_upper ws last_row) segments st).
Proof.
  induction segments as [|[s e] segments IH]; intros st Hok HJ; simpl; [exact Hok|].
  apply IH; [|exact HJ]. unfold scan_segment. apply scan_rows_ok; [exact Hok|].
  intros r m Hin. apply in_range in Hin. apply HJ. simpl in Hin. lia.
Qed.

End Picks.

Lemma picks_ok_empty J : picks_ok J ([], ∅).
Proof.
  repeat split; simpl; [constructor|set_solver|tauto|tauto].
Qed.

(** X10. The list of probes [choose_probes_for_segments] returns has at
    most eight entries and no entry twice. *)
Theorem choose_probes_at_most_eight_distinct (str_upper : text -> text)
    (data_excel : option worksheet) (segments : option (list (Z * Z))) :
  (List.length (choose_probes_for_segments str_upper data_excel segments) <= 8)%nat /\
  NoDup (choose_probes_for_segments str_upper data_excel segments).
Proof.
  unfold choose_probes_for_segments. destruct data_excel as [ws|].
  2: { split; [simpl; lia|constructor]. }
  split; [apply firstn_le_length|].
  pose proof (scan_segments_ok str_upper ws (fun _ => True) (end_up_row ws 2)
                (default [(2, end_up_row ws 2)] segments) ([], ∅)
                (picks_ok_empty _) (fun _ _ _ _ => I)) as (Hnd & _).
  eapply sublist_NoDup; [exact Hnd|apply sublist_take].
Qed.

(** X11. Every probe model returned is selected by a data row between
    row 2 and the last filled row of column B: a row with a weld type and a
    thickness that falls in an interval of the rule table listing the
    model.  Without a data file nothing is returned. *)
Theorem choose_probes_come_from_rows (str_upper : text -> text)
    (ws : worksheet) (segments : option (list (Z * Z))) (m : text) :
  choose_probes_for_segments str_upper None segments = [] /\
  (In m (choose_probes_for_segments str_upper (Some ws) segments) ->
   exists r, 2 <= r <= end_up_row ws 2 /\ selected_by str_upper ws r m).
Proof.
  split; [reflexivity|]. unfold choose_probes_for_segments. intros Hin.
  pose proof (scan_segments_ok str_upper ws
                (fun m => exists r, 2 <= r <= end_up_row ws 2
                                    /\ selected_by str_upper ws r m)
                (end_up_row ws 2)
                (default [(2, end_up_row ws 2)] segments) ([], ∅)
                (picks_ok_empty _)) as H.
  destruct H as (_ & _ & HJ); [eauto|].
  apply HJ. rewrite <- (firstn_skipn 8). apply in_or_app. now left.
Qed.

Lemma choose_probes_come_from_rows_witness :
  exists r, 2 <= r <= 2 /\
    selected_by Text.upper_ascii
      (one_row_sheet (Some (u "JD-3")) (Some (u "30")) None) r (u "A2.5P9×9A60°").
Proof.
  apply (proj2 (choose_probes_come_from_rows Text.upper_ascii
                  (one_row_sheet (Some (u "JD-3")) (Some (u "30")) None) None
                  (u "A2.5P9×9A60°"))).
  vm_compute. tauto.
Defined.

(** X12. In both rule tables a thickness selects an interval exactly when
    it is at least 8 and below 1e9: a smaller thickness, a larger one, an
    infinite one or a NaN selects nothing. *)
Theorem match_rule_selects_from_8_below_1e9 (weld : text) (rules : list probe_rule)
    (q : Q) :
  PROBE_RULES !! weld = Some rules ->
  ((8 <= q)%Q /\ (q < 1000000000)%Q ->
   exists models, match_rule rules (Finite q) = Some models) /\
  ((q < 8)%Q \/ (1000000000 <= q)%Q -> match_rule rules (Finite q) = None) /\
  (forall s, match_rule rules (Infinite s) = None) /\
  match_rule rules NaN = None.
Proof.
  intros Hw.
  destruct (PROBE_RULES_tables _ _ Hw) as [->| ->];
    vm_compute in Hw; injection Hw as <-.
  all: split; [|split; [|split]].
  all: try (intros [|]; reflexivity). all: try reflexivity.
  all: try (intros [H|H];
            repeat (rewrite match_rule_outside by (first [left; lra|right; lra]));
            reflexivity).
  all: intros [H1 H2];
    destruct (Qlt_le_dec q 15); [eexists; apply match_rule_inside; lra|];
    rewrite match_rule_outside by (right; lra);
    destruct (Qlt_le_dec q 25); [eexists; apply match_rule_inside; lra|];
    rewrite match_rule_outside by (right; lra);
    destruct (Qlt_le_dec q 40); [eexists; apply match_rule_inside; lra|];
    rewrite match_rule_outside by (right; lra);
    destruct (Qlt_le_dec q 50); [eexists; apply match_rule_inside; lra|];
    rewrite match_rule_outside by (right; lra);
    destruct (Qlt_le_dec q 75); [eexists; apply match_rule_inside; lra|];
    rewrite match_rule_outside by (right; lra);
    destruct (Qlt_le_dec q 100); [eexists; apply match_rule_inside; lra|];
    rewrite match_rule_outside by (right; lra);
    eexists; apply match_rule_inside; lra.
Qed.

Lemma match_rule_selects_witness :
  exists models,
    match_rule
      [(8, 15, map u ["A2.5P9×9A70°"]);
       (15, 25, map u ["A2.5P9×9A70°"]);
       (25, 40, map u ["A2.5P9×9A70°"; "A2.5P9×9A45°"]);
       (40, 50, map u ["A2.5P9×9A60°"; "A2.5P9×9A45°"]);
       (50, 75, map u ["A2.5P13×13A70°"; "A2.5P13×13A45°"]);
       (75, 100, map u ["A2.5P13×13A60°"; "A2.5P13×13A45°"]);
       (100, 1000000000, map u ["A2.5P13×13A60°"; "A2.5P13×13A45°"])]%Q
      (Finite 12) = Some models.
Proof.
  apply (proj1 (match_rule_selects_from_8_below_1e9 (u "D") _ 12 eq_refl)).
  split; [discriminate|reflexivity].
Defined.

(** *** Reading a number *)

Lemma in_matches_opt r s m :
  In m (matches (ROpt r) s) -> In m (matches r s) \/ m = ([], s, []).
Proof.
  simpl. intros H. apply in_app_or in H. destruct H as [H|[<-|[]]]; auto.
Qed.

(** The text a match of the number pattern captures: an optional minus, a
    run of digits and an optional point with a run of digits. *)
Lemma number_shape s m :
  In m (matches number_re s) ->
  exists sign w1 frac rest,
    m = (sign ++ w1 ++ frac, rest, [sign ++ w1 ++ frac]) /\
    s = (sign ++ w1 ++ frac) ++ rest /\
    (sign = [] \/ sign = [chr "-"]) /\ digit_run w1 /\
    (frac = [] \/ exists w2, frac = chr "." :: w2 /\ digit_run w2).
Proof.
  unfold number_re. intros H.
  apply in_matches_group in H. destruct H as (w & r' & g & H & ->).
  apply in_matches_cat in H. destruct H as (w1 & s1 & c1 & ? & ? & ? & H1 & H & [= -> -> ->]).
  apply in_matches_cat in H. destruct H as (w2 & s2 & c2 & w3 & s3 & c3 & H2 & H3 & [= -> -> ->]).
  apply in_matches_rep in H2. destruct H2 as (? & ? & [= <- <- ->] & -> & D2 & L2 & _).
  assert (R2 : digit_run w2) by (eapply digit_run_of_rep; eauto).
  assert (Hsign : exists sign, (sign = [] \/ sign = [chr "-"]) /\ w1 = sign /\ c1 = []
                               /\ s = sign ++ w2 ++ s2).
  { apply in_matches_opt in H1. destruct H1 as [H1|[= -> <- ->]].
    - apply in_matches_char in H1. destruct H1 as (? & -> & [= -> <- ->]).
      exists [chr "-"]. auto.
    - exists []. auto. }
  destruct Hsign as (sign & Hs & -> & -> & ->).
  assert (Hfrac : exists frac, (frac = [] \/ exists w, frac = chr "." :: w /\ digit_run w)
                               /\ w3 = frac /\ c3 = [] /\ s2 = frac ++ s3).
  { apply in_matches_opt in H3. destruct H3 as [H3|[= -> <- ->]].
    - apply in_matches_cat in H3.
      destruct H3 as (w4 & s4 & c4 & w5 & s5 & c5 & H4 & H5 & [= -> -> ->]).
      apply in_matches_char in H4. destruct H4 as (? & -> & [= -> <- ->]).
      apply in_matches_rep in H5. destruct H5 as (? & ? & [= <- <- ->] & -> & D5 & L5 & _).
      exists (chr "." :: w5). repeat split; auto. right. exists w5.
      split; [reflexivity|]. eapply digit_run_of_rep; eauto.
    - exists []. auto. }
  destruct Hfrac as (frac & Hf & -> & -> & ->).
  exists sign, w2, frac, s3. simpl. rewrite <- !app_assoc. auto.
Qed.

Lemma take_drop_while_run (p : codepoint -> bool) w rest :
  forallb p w = true ->
  match rest with [] => True | c :: _ => p c = false end ->
  Text.take_while p (w ++ rest) = w /\ Text.drop_while p (w ++ rest) = rest.
Proof.
  intros Hw Hr. induction w as [|c w IH]; simpl.
  - destruct rest as [|x rest]; [auto|]. simpl. now rewrite Hr.
  - simpl in Hw. apply andb_prop in Hw as [Hc Hw]. rewrite Hc.
    destruct (IH Hw) as [-> ->]. auto.
Qed.

(** [float] accepts every text the number pattern captures. *)
Lemma of_text_number sign w1 frac :
  (sign = [] \/ sign = [chr "-"]) -> digit_run w1 ->
  (frac = [] \/ exists w2, frac = chr "." :: w2 /\ digit_run w2) ->
  exists f, Float.of_text (sign ++ w1 ++ frac) = Some f.
Proof.
  intros Hs [Hne Hd] Hf. unfold Float.of_text.
  match goal with
  | |- context [match ?M with (_, _) => _ end] =>
      replace M with (match sign with [] => false | _ => true end, w1 ++ frac)
  end.
  2: { destruct Hs as [-> | ->]; [|reflexivity].
       destruct w1 as [|c w1]; [congruence|]. simpl app.
       simpl in Hd. apply andb_prop in Hd as [Hc _].
       assert (c <> 45%N) by (intros ->; discriminate).
       destruct c as [|p]; [reflexivity|].
       do 7 (try (destruct p as [p|p|]); try reflexivity; try congruence). }
  assert (Hrest : match frac with [] => True | c :: _ => Text.is_digit c = false end).
  { destruct Hf as [-> | (w2 & -> & _)]; [exact I|reflexivity]. }
  destruct (take_drop_while_run Text.is_digit w1 frac Hd Hrest) as [-> ->].
  destruct w1 as [|c w1]; [congruence|].
  destruct (digits_value_total (c :: w1) 0%N Hd) as [iv ->].
  destruct Hf as [-> | (w2 & -> & Hne2 & Hd2)]; [eauto|].
  change (chr ".") with 46%N. cbv iota.
  destruct w2 as [|c2 w2]; [congruence|].
  destruct (digits_value_total (c2 :: w2) 0%N Hd2) as [fv ->]. eauto.
Qed.

Lemma rep_matches_zero_nonempty p hi s : rep_matches p 0 hi s <> [].
Proof.
  destruct s as [|c s]; simpl; [discriminate|].
  destruct (p c && can_take hi); [|discriminate].
  intros H. apply app_eq_nil in H. destruct H as [_ H]. discriminate.
Qed.

Lemma matches_opt_head r s : exists m tl, matches (ROpt r) s = m :: tl.
Proof. simpl. destruct (matches r s); simpl; eauto. Qed.

Lemma number_matches_at_digit d post :
  Text.is_digit d = true -> matches number_re (d :: post) <> [].
Proof.
  intros Hd.
  assert (H1 : matches (ROpt (RChar (chr "-"))) (d :: post) = [([], d :: post, [])]).
  { simpl. destruct (d =? chr "-")%N eqn:E; [|reflexivity].
    apply N.eqb_eq in E. subst d. discriminate. }
  assert (H2 : exists w r tl,
             matches (RRep Text.is_digit 1 None) (d :: post) = (w, r, []) :: tl).
  { simpl. rewrite Hd. simpl.
    destruct (rep_matches Text.is_digit 0 None post) as [|[w r] l] eqn:E;
      [now apply rep_matches_zero_nonempty in E|].
    simpl. eauto. }
  destruct H2 as (w & r & tl2 & H2).
  destruct (matches_opt_head (RCat (RChar (chr ".")) (RRep Text.is_digit 1 None)) r)
    as ([[w3 r3] g3] & tl3 & H3).
  destruct (matches_cat_head _ _ _ _ _ _ _ _ _ _ _ H2 H3) as [tl4 H4].
  destruct (matches_cat_head _ _ _ _ _ _ _ _ _ _ _ H1 H4) as [tl5 H5].
  unfold number_re. cbn [matches]. cbn [matches] in H5. rewrite H5. discriminate.
Qed.

Lemma existsb_split (p : codepoint -> bool) s :
  existsb p s = true -> exists pre d post, s = pre ++ d :: post /\ p d = true.
Proof.
  intros H. apply existsb_exists in H. destruct H as (d & Hin & Hd).
  apply in_split in Hin. destruct Hin as (pre & post & ->). eauto.
Qed.

Lemma space_not_digit c : Text.is_space c = true -> Text.is_digit c = false.
Proof.
  intros H. unfold Text.is_space in H.
  repeat rewrite ?orb_true_iff, ?andb_true_iff in H.
  rewrite ?N.leb_le, ?N.eqb_eq in H.
  assert (Hin : In c [9; 10; 11; 12; 13; 28; 29; 30; 31; 32; 133; 160; 5760; 8192;
                      8193; 8194; 8195; 8196; 8197; 8198; 8199; 8200; 8201; 8202;
                      8232; 8233; 8239; 8287; 12288]%N) by (simpl; lia).
  simpl in Hin. repeat (destruct Hin as [<-|Hin]; [reflexivity|]). destruct Hin.
Qed.

Lemma existsb_drop_spaces s :
  existsb Text.is_digit (Text.drop_while Text.is_space s) = existsb Text.is_digit s.
Proof.
  induction s as [|c s IH]; simpl; [reflexivity|].
  destruct (Text.is_space c) eqn:E; [|reflexivity].
  now rewrite (space_not_digit c E).
Qed.

Lemma existsb_rev_digit (s : text) :
  existsb Text.is_digit (rev s) = existsb Text.is_digit s.
Proof.
  induction s as [|c s IH]; simpl; [reflexivity|].
  rewrite existsb_app, IH. simpl. rewrite orb_false_r. apply orb_comm.
Qed.

Lemma existsb_strip s :
  existsb Text.is_digit (Text.strip s) = existsb Text.is_digit s.
Proof.
  unfold Text.strip.
  now rewrite existsb_rev_digit, existsb_drop_spaces, existsb_rev_digit,
    existsb_drop_spaces.
Qed.

(** X13. [_to_float] gives a number exactly when the text of the cell holds
    a decimal digit: the conversion of the captured text never fails.  An
    empty cell gives no number. *)
Theorem _to_float_number_iff_digit (t : text) :
  _to_float None = None /\
  (existsb Text.is_digit t = true -> exists f, _to_float (Some t) = Some f) /\
  (existsb Text.is_digit t = false -> _to_float (Some t) = None).
Proof.
  split; [reflexivity|]. unfold _to_float. rewrite <- existsb_strip.
  split; intros H.
  - apply existsb_split in H. destruct H as (pre & d & post & Hs & Hd).
    destruct (matches number_re (d :: post)) as [|m tl] eqn:Em;
      [now apply number_matches_at_digit in Em|].
    destruct (search_found_later number_re pre _ _ _ Em) as [m' Hm'].
    rewrite Hs, Hm'. apply search_In in Hm'. destruct Hm' as [s' Hin].
    apply number_shape in Hin.
    destruct Hin as (sign & w1 & frac & rest & -> & _ & Hsg & Hw & Hf).
    cbn [groups snd]. now apply of_text_number.
  - destruct (search number_re (Text.strip t)) as [m|] eqn:E; [|reflexivity].
    exfalso. apply search_Some_split in E. destruct E as (pre & s' & tl & Hs & Hm).
    assert (Hin : In m (matches number_re s')) by (rewrite Hm; now left).
    apply number_shape in Hin.
    destruct Hin as (sign & w1 & frac & rest & _ & -> & _ & [Hne Hd] & _).
    destruct w1 as [|c w1]; [congruence|]. simpl in Hd.
    apply andb_prop in Hd as [Hc _].
    assert (Ht : existsb Text.is_digit (Text.strip t) = true).
    { apply existsb_exists. exists c. split; [|exact Hc].
      rewrite Hs, !in_app_iff. simpl. auto 10. }
    congruence.
Qed.

Lemma _to_float_number_witness : exists f, _to_float (Some (u " t=12.5mm ")) = Some f.
Proof.
  apply (proj1 (proj2 (_to_float_number_iff_digit (u " t=12.5mm ")))).
  vm_compute. reflexivity.
Defined.




(** ** DaySegmenter, continued *)

Lemma increasing_weaken rows : forall p q, p <= q -> increasing q rows -> increasing p rows.
Proof. destruct rows; simpl; [tauto|]. intros p q Hpq [H1 H2]. split; [lia|exact H2]. Qed.

Lemma increasing_seq a n : forall k,
  increasing (a + Z.of_nat k - 1) (map (fun i => a + Z.of_nat i) (seq k n)).
Proof.
  induction n as [|n IH]; intros k; simpl; [exact I|].
  split; [lia|]. specialize (IH (S k)).
  replace (a + Z.of_nat (S k) - 1) with (a + Z.of_nat k) in IH by lia. exact IH.
Qed.

Lemma increasing_range a b : increasing (a - 1) (range a b).
Proof.
  unfold range. pose proof (increasing_seq a (Z.to_nat (b - a)) 0) as H.
  simpl in H. now rewrite Z.add_0_r in H.
Qed.

(** The markers found are the marker rows among the rows scanned, in the
    order of the rows. *)
Lemma scan_markers_full ws rows :
  exists ms, scan_markers ws rows = Return ms /\
    (forall r mo d, In (r, mo, d) ms <->
       In r rows /\ marker_of (cell_value ws r 6) = Return (Some (mo, d))) /\
    (forall prev, increasing prev rows -> increasing prev (map marker_row ms)).
Proof.
  induction rows as [|r rows (ms & IH & Hms & Hinc)]; simpl.
  - exists []. split; [reflexivity|]. split; [|auto].
    intros r mo d. simpl. tauto.
  - destruct (marker_of_never_raises (cell_value ws r 6)) as [o Ho].
    rewrite Ho, IH. simpl. destruct o as [[mo d]|].
    + exists ((r, mo, d) :: ms). split; [reflexivity|]. split.
      * intros r' mo' d'. simpl. rewrite Hms. split.
        -- intros [[= <- <- <-]|[H1 H2]]; auto.
        -- intros [[<-|H1] H2]; [left; congruence|auto].
      * intros prev [H1 H2]. simpl. split; [exact H1|]. now apply Hinc.
    + exists ms. split; [reflexivity|]. split.
      * intros r' mo' d'. rewrite Hms. split; [intros [H1 H2]; auto|].
        intros [[<-|H1] H2]; [congruence|auto].
      * intros prev [H1 H2]. apply Hinc. eapply increasing_weaken; [|exact H2]. lia.
Qed.



(** The ranges of [ranges_per_day] cover every row up to a marker. *)
Lemma split_ranges_cover ms : forall prev r,
  increasing prev (map marker_row ms) ->
  prev < r -> (exists m, In m ms /\ r <= marker_row m) ->
  exists k s e, In (k, (s, e)) (split_ranges prev ms) /\ s <= r <= e.
Proof.
  induction ms as [|[[row mo] d] ms IH]; intros prev r Hinc Hr (m & Hin & Hm);
    simpl in *.
  - destruct Hin.
  - change (marker_row (row, mo, d)) with row in Hinc. destruct Hinc as [Hp Hinc].
    destruct (Z_le_gt_dec r row) as [Hle|Hgt].
    + exists (mo, d), (prev + 1), row. split; [now left|lia].
    + destruct Hin as [<-|Hin]; [change (marker_row (row, mo, d)) with row in Hm; lia|].
      destruct (IH row r Hinc ltac:(lia) (ex_intro _ m (conj Hin Hm)))
        as (k & s & e & H1 & H2).
      exists k, s, e. split; [now right|exact H2].
Qed.

Lemma setdefault_append_keeps d key rng : forall k rs rng',
  In (k, rs) d -> In rng' rs ->
  exists rs', In (k, rs') (setdefault_append d key rng) /\ In rng' rs'.
Proof.
  induction d as [|[k0 rs0] d IH]; intros k rs rng' Hin Hr; simpl in *; [destruct Hin|].
  destruct (decide (k0 = key)) as [->|Hne].
  - destruct Hin as [[= <- <-]|Hin].
    + exists (rs0 ++ [rng]). split; [now left|apply in_or_app; now left].
    + exists rs. split; [now right|exact Hr].
  - destruct Hin as [[= <- <-]|Hin].
    + exists rs0. split; [now left|exact Hr].
    + destruct (IH _ _ _ Hin Hr) as (rs' & H1 & H2).
      exists rs'. split; [now right|exact H2].
Qed.

Lemma setdefault_append_adds d key rng :
  exists rs', In (key, rs') (setdefault_append d key rng) /\ In rng rs'.
Proof.
  induction d as [|[k0 rs0] d (rs' & H1 & H2)]; simpl.
  - exists [rng]. split; now left.
  - destruct (decide (k0 = key)) as [->|Hne].
    + exists (rs0 ++ [rng]). split; [now left|apply in_or_app; right; now left].
    + exists rs'. split; [now right|exact H2].
Qed.

Lemma setdefault_append_keys d key rng :
  NoDup (map fst d) -> NoDup (map fst (setdefault_append d key rng)) /\
  (forall k, In k (map fst (setdefault_append d key rng)) -> k = key \/ In k (map fst d)).
Proof.
  induction d as [|[k0 rs0] d IH]; intros Hnd; simpl.
  - split; [repeat constructor; apply not_elem_of_nil|]. intros k [<-|[]]. now left.
  - destruct (decide (k0 = key)) as [->|Hne]; simpl.
    + split; [exact Hnd|]. tauto.
    + simpl in Hnd. apply NoDup_cons in Hnd. destruct Hnd as [Hnin Hnd].
      destruct (IH Hnd) as [IH1 IH2]. split.
      * apply NoDup_cons. split; [|exact IH1]. intros Hin.
        apply list_elem_of_In in Hin. apply IH2 in Hin.
        destruct Hin as [->|Hin]; [congruence|]. apply Hnin. now apply list_elem_of_In.
      * intros k [<-|Hin]; [right; now left|].
        apply IH2 in Hin. tauto.
Qed.

Lemma group_by_day_fold rpd : forall d0,
  NoDup (map fst d0) ->
  let d := fold_left (fun d kr => setdefault_append d (fst kr) (snd kr)) rpd d0 in
  NoDup (map fst d) /\
  (forall k rs rng, In (k, rs) d0 -> In rng rs -> exists rs', In (k, rs') d /\ In rng rs') /\
  (forall k rng, In (k, rng) rpd -> exists rs', In (k, rs') d /\ In rng rs').
Proof.
  induction rpd as [|[key r] rpd IH]; intros d0 Hnd; simpl.
  - split; [exact Hnd|]. split; [eauto|]. intros ? ? [].
  - destruct (setdefault_append_keys d0 key r Hnd) as [Hnd' _].
    destruct (IH _ Hnd') as (H1 & H2 & H3). split; [exact H1|]. split.
    + intros k rs rng Hin Hr.
      destruct (setdefault_append_keeps d0 key r _ _ _ Hin Hr) as (rs' & Ha & Hb).
      eapply H2; eauto.
    + intros k rng [[= <- <-]|Hin]; [|eauto].
      destruct (setdefault_append_adds d0 key r) as (rs' & Ha & Hb).
      eapply H2; eauto.
Qed.

Lemma group_by_day_complete rpd :
  NoDup (map fst (group_by_day rpd)) /\
  (forall k rng, In (k, rng) rpd ->
     exists rs, In (k, rs) (group_by_day rpd) /\ In rng rs).
Proof.
  destruct (group_by_day_fold rpd [] (NoDup_nil_2)) as (H1 & _ & H3). auto.
Qed.

(** What the loop over the days keeps: the days that are calendar dates
    of the year, each with its ranges, in the order of the dict. *)
Lemma dated_full y d :
  exists out, dated y d = Return out /\
    (forall dt ranges, In (dt, ranges) out <->
       exists mo dy, In ((mo, dy), ranges) d /\ valid_date y mo dy = true
                     /\ dt = mkdatetime y mo dy) /\
    (NoDup (map fst d) -> NoDup (map fst out)).
Proof.
  induction d as [|[[mo dy] ranges] d (out & IH & Hout & Hnd)]; simpl.
  - exists []. split; [reflexivity|]. split; [|intros _; constructor].
    intros dt rs. simpl. split; [intros []|]. intros (? & ? & [] & _).
  - rewrite IH. unfold datetime_new. destruct (valid_date y mo dy) eqn:Hv; simpl.
    + eexists. split; [reflexivity|]. split.
      * intros dt rs. simpl. rewrite Hout. split.
        -- intros [[= <- <-]|(mo' & dy' & H1 & H2 & H3)]; [eauto 8|eauto 8].
        -- intros (mo' & dy' & [[= <- <- <-]|H1] & H2 & ->); [now left|eauto 8].
      * intros Hk. simpl in Hk. apply NoDup_cons in Hk. destruct Hk as [Hnin Hk].
        simpl. apply NoDup_cons. split; [|auto].
        intros Hin. apply list_elem_of_In, in_map_iff in Hin.
        destruct Hin as ([dt rs] & Heq & Hin). simpl in Heq. subst dt.
        apply Hout in Hin. destruct Hin as (mo' & dy' & H1 & _ & [= <- <-]).
        apply Hnin. apply list_elem_of_In, in_map_iff. exists ((mo, dy), rs). auto.
    + exists out. split; [reflexivity|]. split.
      * intros dt rs. rewrite Hout. split.
        -- intros (mo' & dy' & H1 & H2 & H3). eauto 8.
        -- intros (mo' & dy' & [[= <- <- <-]|H1] & H2 & ->); [congruence|eauto 8].
      * intros Hk. simpl in Hk. apply NoDup_cons in Hk. destruct Hk as [_ Hk]. auto.
Qed.

Lemma insert_by_date_dates x l :
  NoDup (map fst l) -> ~ In (fst x) (map fst l) -> NoDup (map fst (insert_by_date x l)).
Proof.
  induction l as [|y l IH]; intros Hnd Hx; simpl.
  - apply NoDup_singleton.
  - destruct (datetime_leb (fst x) (fst y)); simpl.
    + apply NoDup_cons. split; [|exact Hnd]. intros H. apply Hx.
      now apply list_elem_of_In.
    + simpl in Hnd, Hx. apply NoDup_cons in Hnd. destruct Hnd as [Hy Hnd].
      apply NoDup_cons. split; [|apply IH; tauto].
      intros H. apply list_elem_of_In, in_map_iff in H.
      destruct H as (z & Hz & Hin). apply insert_by_date_In in Hin.
      destruct Hin as [->|Hin]; [apply Hx; left; congruence|].
      apply Hy. apply list_elem_of_In, in_map_iff. eauto.
Qed.

Lemma sort_by_date_dates l : NoDup (map fst l) -> NoDup (map fst (sort_by_date l)).
Proof.
  induction l as [|x l IH]; simpl; intros Hnd; [constructor|].
  apply NoDup_cons in Hnd. destruct Hnd as [Hx Hnd].
  apply insert_by_date_dates; [auto|].
  intros H. apply in_map_iff in H. destruct H as (z & Hz & Hin).
  apply (proj1 (sort_by_date_In _ _)) in Hin. apply Hx.
  apply list_elem_of_In, in_map_iff. eauto.
Qed.

(** The parts of the segmenter's run, for a sheet read to its last row. *)
Lemma parse_day_ranges_run now_year ws year_hint :
  2 <= end_up_row ws 6 ->
  exists ms out,
    (forall r mo d, In (r, mo, d) ms <-> is_marker_row ws r mo d) /\
    increasing 1 (map marker_row ms) /\
    parse_day_ranges_from_source now_year (Some ws) year_hint = Return out /\
    (forall x, In x out <->
       ms <> [] /\
       exists mo dy, In ((mo, dy), snd x) (group_by_day (split_ranges 1 ms)) /\
                     valid_date (default now_year year_hint) mo dy = true /\
                     fst x = mkdatetime (default now_year year_hint) mo dy) /\
    NoDup (map fst out).
Proof.
  intros Hlast. unfold parse_day_ranges_from_source.
  destruct (end_up_row ws 6 <? 2) eqn:E; [apply Z.ltb_lt in E; lia|].
  destruct (scan_markers_full ws (range 2 (end_up_row ws 6 + 1))) as (ms & -> & Hms & Hinc).
  exists ms. simpl.
  assert (Hm : forall r mo d, In (r, mo, d) ms <-> is_marker_row ws r mo d).
  { intros r mo d. rewrite Hms, in_range. unfold is_marker_row.
    split; intros [H1 H2]; (split; [lia|exact H2]). }
  specialize (Hinc 1 (increasing_range 2 _)).
  destruct ms as [|mk ms].
  - exists []. split; [exact Hm|]. split; [exact I|]. split; [reflexivity|].
    split; [|constructor]. intros x. simpl. split; [tauto|]. intros [H _]. congruence.
  - destruct (dated_full (default now_year year_hint)
                (group_by_day (split_ranges 1 (mk :: ms)))) as (out & -> & Hout & Hnd).
    simpl. exists (sort_by_date out). split; [exact Hm|]. split; [exact Hinc|].
    split; [reflexivity|]. split.
    + intros [dt rs]. rewrite sort_by_date_In, Hout. simpl. split.
      * intros H. split; [discriminate|exact H].
      * intros [_ H]. exact H.
    + apply sort_by_date_dates, Hnd. apply group_by_day_complete.
Qed.

Lemma parse_day_ranges_short now_year ws year_hint :
  end_up_row ws 6 < 2 ->
  parse_day_ranges_from_source now_year (Some ws) year_hint = Return [].
Proof.
  intros H. unfold parse_day_ranges_from_source.
  apply Z.ltb_lt in H. now rewrite H.
Qed.

(** X15. Without a data file, and on a sheet whose column F holds no
    marker from row 2 to its last filled row, the segmenter returns the
    empty list. *)
Theorem parse_day_ranges_without_markers (now_year : Z) (ws : worksheet)
    (year_hint : option Z) :
  parse_day_ranges_from_source now_year None year_hint = Return [] /\
  ((forall r mo d, ~ is_marker_row ws r mo d) ->
   parse_day_ranges_from_source now_year (Some ws) year_hint = Return []).
Proof.
  split; [reflexivity|]. intros Hno.
  destruct (Z_lt_le_dec (end_up_row ws 6) 2) as [Hs|Hl];
    [now apply parse_day_ranges_short|].
  destruct (parse_day_ranges_run now_year ws year_hint Hl)
    as (ms & out & Hms & _ & -> & Hout & _).
  destruct ms as [|[[r mo] d] ms].
  - destruct out as [|x out]; [reflexivity|].
    destruct (proj1 (Hout x) (or_introl eq_refl)) as [H _]. congruence.
  - exfalso. apply (Hno r mo d), Hms. now left.
Qed.

Lemma parse_day_ranges_without_markers_witness :
  parse_day_ranges_from_source 2026
    (Some (mkworksheet (fun r c => if c =? 6 then Some (u "回波") else None)
                       (fun _ => 7)))
    (Some 2025)
  = Return [].
Proof.
  apply parse_day_ranges_without_markers.
  intros r mo d [_ H]. cbn [cell_value] in H. change (6 =? 6) with true in H.
  cbv iota in H. vm_compute in H. discriminate.
Defined.



Lemma increasing_all rows : forall prev x, increasing prev rows -> In x rows -> prev < x.
Proof.
  induction rows as [|r rows IH]; intros prev x Hinc Hin; simpl in *; [destruct Hin|].
  destruct Hinc as [H1 H2]. destruct Hin as [<-|Hin]; [exact H1|].
  specialize (IH _ _ H2 Hin). lia.
Qed.

(** The range of a marker runs from the row after the previous marker, or
    after [prev], to the row of the marker. *)
Lemma split_ranges_of_marker ms : forall prev r mo d,
  increasing prev (map marker_row ms) -> In (r, mo, d) ms ->
  exists s, In ((mo, d), (s, r)) (split_ranges prev ms) /\ prev < s <= r /\
    (s = prev + 1 \/ exists m0, In m0 ms /\ marker_row m0 = s - 1) /\
    (forall m, In m ms -> ~ (s <= marker_row m < r)).
Proof.
  induction ms as [|[[row mo0] d0] ms IH]; intros prev r mo d Hinc Hin; simpl in *;
    [destruct Hin|].
  change (marker_row (row, mo0, d0)) with row in Hinc. destruct Hinc as [Hp Hinc].
  destruct Hin as [[= -> -> ->]|Hin].
  - exists (prev + 1). split; [now left|]. split; [lia|]. split; [now left|].
    intros m [<-|Hm]; [change (marker_row (r, mo, d)) with r; lia|].
    pose proof (increasing_all _ _ (marker_row m) Hinc (in_map _ _ _ Hm)). lia.
  - destruct (IH row r mo d Hinc Hin) as (s & H1 & H2 & H3 & H4).
    exists s. split; [now right|]. split; [lia|]. split.
    + right. destruct H3 as [->|(m0 & Hm0 & Heq)].
      * exists (row, mo0, d0). split; [now left|]. unfold marker_row. simpl. lia.
      * exists m0. split; [now right|exact Heq].
    + intros m [<-|Hm]; [change (marker_row (row, mo0, d0)) with row; lia|].
      now apply H4.
Qed.

(** X17. A marker whose day is a calendar date of the year closes a range
    of that date: the range ends at the row of the marker, starts at row 2
    or right after the marker before it, and no other marker lies between. *)
Theorem parse_day_ranges_range_of_marker (now_year : Z) (ws : worksheet)
    (year_hint : option Z) (r mo d : Z) :
  is_marker_row ws r mo d ->
  valid_date (default now_year year_hint) mo d = true ->
  exists out s,
    parse_day_ranges_from_source now_year (Some ws) year_hint = Return out /\
    row_in_day out r (mkdatetime (default now_year year_hint) mo d) s r /\
    (s = 2 \/ exists mo0 d0, is_marker_row ws (s - 1) mo0 d0) /\
    (forall r' mo' d', is_marker_row ws r' mo' d' -> ~ (s <= r' < r)).
Proof.
  intros Hmark Hv.
  assert (Hl : 2 <= end_up_row ws 6) by (destruct Hmark as [H _]; lia).
  destruct (parse_day_ranges_run now_year ws year_hint Hl)
    as (ms & out & Hms & Hinc & -> & Hout & _).
  apply Hms in Hmark.
  destruct (split_ranges_of_marker ms 1 r mo d Hinc Hmark) as (s & H1 & H2 & H3 & H4).
  destruct (proj2 (group_by_day_complete (split_ranges 1 ms)) _ _ H1) as (rs & Hg & Hr).
  exists out, s. split; [reflexivity|]. split; [|split].
  - exists rs. split; [|split; [exact Hr|lia]].
    apply Hout. simpl. split; [intros ->; destruct Hmark|]. exists mo, d. auto.
  - destruct H3 as [->|([[r0 mo0] d0] & Hm0 & Heq)]; [now left|].
    right. exists mo0, d0. apply Hms. unfold marker_row in Heq. simpl in Heq.
    now subst r0.
  - intros r' mo' d' Hm'. apply Hms in Hm'. exact (H4 _ Hm').
Qed.

Lemma parse_day_ranges_range_of_marker_witness :
  exists out s,
    parse_day_ranges_from_source 2026 (Some two_marker_sheet) (Some 2025) = Return out /\
    row_in_day out 9 (mkdatetime 2025 4 4) s 9.
Proof.
  destruct (parse_day_ranges_range_of_marker 2026 two_marker_sheet (Some 2025) 9 4 4)
    as (out & s & H1 & H2 & _).
  - split; [change (end_up_row two_marker_sheet 6) with 9; lia|reflexivity].
  - reflexivity.
  - exists out, s. auto.
Defined.

(** X18. When every marker of the sheet is a calendar date of the year,
    every row from row 2 to a marker row lies in a range of the result. *)
Theorem parse_day_ranges_cover (now_year : Z) (ws : worksheet) (year_hint : option Z) :
  (forall r mo d, is_marker_row ws r mo d ->
                  valid_date (default now_year year_hint) mo d = true) ->
  exists out,
    parse_day_ranges_from_source now_year (Some ws) year_hint = Return out /\
    forall r r' mo d,
      is_marker_row ws r' mo d -> 2 <= r <= r' ->
      exists dt s e, row_in_day out r dt s e.
Proof.
  intros Hvalid.
  destruct (Z_lt_le_dec (end_up_row ws 6) 2) as [Hs|Hl].
  { exists []. split; [now apply parse_day_ranges_short|].
    intros r r' mo d [H _] Hr. lia. }
  destruct (parse_day_ranges_run now_year ws year_hint Hl)
    as (ms & out & Hms & Hinc & -> & Hout & _).
  exists out. split; [reflexivity|]. intros r r' mo d Hmark Hr.
  apply Hms in Hmark.
  destruct (split_ranges_cover ms 1 r Hinc ltac:(lia)
              (ex_intro _ (r', mo, d) (conj Hmark (proj2 Hr))))
    as ([mo1 d1] & s & e & H1 & H2).
  destruct (proj2 (group_by_day_complete (split_ranges 1 ms)) _ _ H1) as (rs & Hg & Hin).
  destruct (split_ranges_end _ _ _ _ _ H1) as (mo2 & d2 & Hm2 & [= -> ->]).
  exists (mkdatetime (default now_year year_hint) mo2 d2), s, e, rs.
  split; [|split; [exact Hin|exact H2]].
  apply Hout. simpl. split; [intros ->; destruct Hmark|].
  exists mo2, d2. split; [exact Hg|]. split; [|reflexivity].
  apply (Hvalid e). now apply Hms.
Qed.

Lemma parse_day_ranges_cover_witness :
  exists out,
    parse_day_ranges_from_source 2026 (Some two_marker_sheet) (Some 2025) = Return out /\
    exists dt s e, row_in_day out 3 dt s e.
Proof.
  destruct (parse_day_ranges_cover 2026 two_marker_sheet (Some 2025)) as (out & H1 & H2).
  - intros r mo d [Hr Hm]. change (end_up_row two_marker_sheet 6) with 9 in Hr.
    assert (Hc : r = 2 \/ r = 3 \/ r = 4 \/ r = 5 \/ r = 6 \/ r = 7 \/ r = 8 \/ r = 9)
      by lia.
    repeat (destruct Hc as [->|Hc]); [..|subst r];
      vm_compute in Hm; try discriminate; injection Hm as <- <-; reflexivity.
  - exists out. split; [exact H1|]. apply (H2 3 5 3 31); [|lia].
    split; [change (end_up_row two_marker_sheet 6) with 9; lia|reflexivity].
Defined.




(** ** FieldExtractor: the fields of a report *)

Ltac text_neq := let H := fresh in intros H; vm_compute in H; discriminate.

Lemma groupless_no_captures r : forall s m,
  groupless r = true -> In m (matches r s) -> groups m = [].
Proof.
  induction r as [c|p|p lo hi|r IH|r1 IH1 r2 IH2|r IH]; intros s m Hg Hin.
  - eapply in_matches_nogroup; [|exact Hin]. exact I.
  - eapply in_matches_nogroup; [|exact Hin]. exact I.
  - eapply in_matches_nogroup; [|exact Hin]. exact I.
  - apply in_matches_opt in Hin. destruct Hin as [Hin| ->]; [eauto|reflexivity].
  - simpl in Hg. apply andb_prop in Hg as [Hg1 Hg2].
    apply in_matches_cat in Hin.
    destruct Hin as (w1 & s1 & g1 & w2 & s2 & g2 & H1 & H2 & ->).
    apply (IH1 _ _ Hg1) in H1. apply (IH2 _ _ Hg2) in H2.
    unfold groups in *. simpl in *. now subst.
  - discriminate.
Qed.

Lemma in_matches_lit_then lit k : forall s m,
  In m (matches (lit_then lit k) s) ->
  exists s' m', In m' (matches k s') /\ groups m = groups m'.
Proof.
  induction lit as [|c lit IH]; intros s m Hin; [simpl in Hin; eauto|].
  change (lit_then (c :: lit) k) with (RCat (RChar c) (lit_then lit k)) in Hin.
  apply in_matches_cat in Hin.
  destruct Hin as (w1 & s1 & g1 & w2 & s2 & g2 & H1 & H2 & ->).
  apply in_matches_char in H1. destruct H1 as (r & -> & [= -> -> ->]).
  destruct (IH _ _ H2) as (s' & m' & H3 & H4). exists s', m'. auto.
Qed.

Lemma literal_groupless c s : groupless (literal c s) = true.
Proof. revert c. induction s as [|c' s IH]; intros c; simpl; auto. Qed.

Lemma in_matches_set p s m :
  In m (matches (RSet p) s) -> exists c r, s = c :: r /\ p c = true /\ m = ([c], r, []).
Proof.
  simpl. destruct s as [|x s]; [intros []|].
  destruct (p x) eqn:E; [|intros []]. intros [<-|[]]. eauto.
Qed.

(** The grade pattern captures one of the two grade characters. *)
Lemma grade_group s m :
  search grade_re s = Some m -> group1 m = u "一" \/ group1 m = u "二".
Proof.
  intros H. apply search_In in H. destruct H as [s' Hin].
  unfold grade_re in Hin. apply in_matches_lit_then in Hin.
  destruct Hin as (s2 & m' & Hin & Hg). unfold group1. rewrite Hg.
  apply in_matches_cat in Hin.
  destruct Hin as (w1 & s1 & g1 & w2 & s3 & g2 & H1 & H2 & ->).
  apply (groupless_no_captures _ _ _ (literal_groupless _ _)) in H2.
  unfold groups in H2. simpl in H2. subst g2.
  apply in_matches_group in H1. destruct H1 as (w & r' & g & H1 & [= -> -> ->]).
  apply in_matches_set in H1. destruct H1 as (c & r & -> & Hc & [= -> -> ->]).
  unfold groups. simpl. unfold one_of in Hc. simpl in Hc.
  rewrite !orb_true_iff in Hc. destruct Hc as [Hc|[Hc|Hc]]; [| |discriminate];
    apply N.eqb_eq in Hc; subst c; auto.
Qed.

(** *** The loop over the tables *)

Lemma value_after_label_nonempty row label v :
  value_after_label row label = Some v -> nonempty v = true.
Proof.
  unfold value_after_label. destruct (map fst _) as [|j more]; [discriminate|].
  intros H. apply first_value_sound in H. destruct H as (c & _ & _ & Hn & _). exact Hn.
Qed.

Lemma row_hit_value cells label :
  row_hit cells label = value_after_label (map Some cells) label.
Proof.
  unfold row_hit. destruct (value_after_label _ _) as [v|] eqn:E; [|reflexivity].
  now rewrite (value_after_label_nonempty _ _ _ E).
Qed.

Lemma extract_field_lookup cells result field k :
  extract_field cells result field !! k
  = if decide (k = fst field)
    then match result !! k with
         | Some v => Some v
         | None => row_hit cells (snd field)
         end
    else result !! k.
Proof.
  unfold extract_field, row_hit. destruct (decide (k = fst field)) as [->|Hne].
  - destruct (result !! fst field) as [v|] eqn:E; [exact E|].
    destruct (value_after_label _ _) as [v|]; [|exact E].
    destruct (nonempty v); [apply lookup_insert_eq|exact E].
  - destruct (result !! fst field); [reflexivity|].
    destruct (value_after_label _ _) as [v|]; [|reflexivity].
    destruct (nonempty v); [|reflexivity]. now apply lookup_insert_ne.
Qed.

Lemma extract_fields_lookup cells fields : forall result k,
  NoDup (map fst fields) ->
  fold_left (extract_field cells) fields result !! k
  = match result !! k with
    | Some v => Some v
    | None =>
        match List.find (fun f => bool_decide (k = fst f)) fields with
        | Some f => row_hit cells (snd f)
        | None => None
        end
    end.
Proof.
  induction fields as [|f fields IH]; intros result k Hnd; simpl.
  - now destruct (result !! k).
  - simpl in Hnd. apply NoDup_cons in Hnd. destruct Hnd as [Hf Hnd].
    rewrite (IH _ _ Hnd), extract_field_lookup.
    destruct (decide (k = fst f)) as [->|Hne].
    + rewrite bool_decide_eq_true_2 by reflexivity.
      destruct (result !! fst f) as [v|]; [reflexivity|].
      destruct (row_hit cells (snd f)); [reflexivity|].
      destruct (List.find _ fields) as [f'|] eqn:E; [|reflexivity].
      exfalso. apply find_some in E. destruct E as [Hin Heq].
      apply bool_decide_eq_true_1 in Heq. apply Hf. rewrite Heq.
      apply list_elem_of_In, in_map. exact Hin.
    + rewrite bool_decide_eq_false_2 by exact Hne. reflexivity.
Qed.

Lemma table_fields_distinct : NoDup (map fst table_fields).
Proof.
  apply NoDup_ListNoDup. unfold table_fields. simpl.
  repeat (constructor; [simpl; intros H;
                        repeat (destruct H as [H|H]; [vm_compute in H; discriminate|]);
                        destruct H|]).
  constructor.
Qed.

Lemma extract_rows_lookup rows : forall st k,
  snd (fold_left extract_row rows st) !! k
  = match snd st !! k with
    | Some v => Some v
    | None =>
        match List.find (fun f => bool_decide (k = fst f)) table_fields with
        | Some f => first_hit (snd f) rows
        | None => None
        end
    end.
Proof.
  induction rows as [|cells rows IH]; intros st k; cbn [fold_left].
  - destruct (snd st !! k); [reflexivity|].
    now destruct (List.find (fun f => bool_decide (k = fst f)) table_fields).
  - rewrite IH. unfold extract_row. cbn [snd].
    rewrite (extract_fields_lookup _ _ _ _ table_fields_distinct).
    destruct (snd st !! k); [reflexivity|].
    destruct (List.find (fun f => bool_decide (k = fst f)) table_fields) as [f|];
      [|reflexivity].
    rewrite row_hit_value. cbn [first_hit]. now destruct (value_after_label _ _).
Qed.

(** *** The steps after the tables: each one writes one key *)

Lemma add_grade_other ft result k :
  k <> u "质量等级" -> add_grade ft result !! k = result !! k.
Proof.
  intros Hk. unfold add_grade.
  destruct (search grade_re ft); [now apply lookup_insert_ne|].
  destruct (Text.contains (u "一级") ft); [now apply lookup_insert_ne|].
  destruct (Text.contains (u "二级") ft); [now apply lookup_insert_ne|reflexivity].
Qed.

Lemma add_date_other ft result k :
  k <> u "探伤日期" -> add_date ft result !! k = result !! k.
Proof.
  intros Hk. unfold add_date. destruct (has_field _ _); [reflexivity|].
  destruct (search _ ft); [now apply lookup_insert_ne|reflexivity].
Qed.

Lemma cut_date_other result k :
  k <> u "探伤日期" -> cut_date result !! k = result !! k.
Proof.
  intros Hk. unfold cut_date.
  destruct (has_field _ _); [now apply lookup_insert_ne|reflexivity].
Qed.

Lemma add_basis_other ft result k :
  k <> u "执行处理" -> add_basis ft result !! k = result !! k.
Proof.
  intros Hk. unfold add_basis. destruct (has_field _ _); [reflexivity|].
  destruct (search _ ft); [now apply lookup_insert_ne|reflexivity].
Qed.

Lemma add_raw_date_other ft result k :
  k <> u "_原始探伤日期串" -> add_raw_date ft result !! k = result !! k.
Proof. intros Hk. unfold add_raw_date. now apply lookup_insert_ne. Qed.

Lemma extract_unfold doc :
  exists ft,
    extract_data_from_word doc
    = add_raw_date ft (add_basis ft (cut_date (add_date ft
        (add_grade ft (snd (extract_tables doc)))))).
Proof.
  unfold extract_data_from_word. destruct (extract_tables doc) as [tt res]. eauto.
Qed.

(** X20. The field map holds only keys of the fixed set, and always holds
    the raw date context. *)
Theorem extract_data_keys (doc : document) :
  (forall k, is_Some (extract_data_from_word doc !! k) -> In k field_keys) /\
  is_Some (extract_data_from_word doc !! u "_原始探伤日期串").
Proof.
  destruct (extract_unfold doc) as [ft ->]. split.
  2: { unfold add_raw_date. rewrite lookup_insert_eq. eauto. }
  intros k Hk. unfold field_keys. simpl.
  destruct (decide (k = u "_原始探伤日期串")) as [->|N1]; [tauto|].
  rewrite add_raw_date_other in Hk by exact N1.
  destruct (decide (k = u "执行处理")) as [->|N2]; [tauto|].
  rewrite add_basis_other in Hk by exact N2.
  destruct (decide (k = u "探伤日期")) as [->|N3]; [tauto|].
  rewrite cut_date_other, add_date_other in Hk by exact N3.
  destruct (decide (k = u "质量等级")) as [->|N4]; [tauto|].
  rewrite add_grade_other in Hk by exact N4.
  unfold extract_tables in Hk. rewrite extract_rows_lookup in Hk.
  cbn [snd] in Hk. rewrite lookup_empty in Hk.
  destruct (List.find _ table_fields) as [f|] eqn:E;
    [|destruct Hk; discriminate].
  apply find_some in E. destruct E as [Hin Heq].
  apply bool_decide_eq_true_1 in Heq. subst k.
  unfold table_fields in Hin. simpl in Hin.
  repeat (destruct Hin as [<-|Hin]; [simpl; tauto|]). destruct Hin.
Qed.

Lemma extract_data_keys_witness : In (u "质量等级") field_keys.
Proof.
  apply (proj1 (extract_data_keys (mkdocument [u "本次检测共测试二级焊缝"] []))
               (u "质量等级")).
  vm_compute. eauto.
Defined.

(** X21. For the engagement number, the project name, the inspected part,
    the material and the probe model, the field is the value of the first
    table row, in the order of the document, that has one after its label:
    later rows never replace it, and without such a row the field is absent. *)
Theorem extract_data_first_row_wins (doc : document) (target label : text) :
  In (target, label) (firstn 5 table_fields) ->
  extract_data_from_word doc !! target = first_hit label (concat (doc_tables doc)).
Proof.
  intros Hin. destruct (extract_unfold doc) as [ft ->].
  assert (Hk : target <> u "_原始探伤日期串" /\ target <> u "执行处理" /\
               target <> u "探伤日期" /\ target <> u "质量等级" /\
               List.find (fun f => bool_decide (target = fst f)) table_fields
               = Some (target, label)).
  { simpl in Hin.
    repeat (destruct Hin as [[= <- <-]|Hin];
            [repeat split; try text_neq; vm_compute; reflexivity|]).
    destruct Hin. }
  destruct Hk as (N1 & N2 & N3 & N4 & Hfind).
  rewrite add_raw_date_other, add_basis_other, cut_date_other, add_date_other,
    add_grade_other by assumption.
  unfold extract_tables. rewrite extract_rows_lookup. cbn [snd].
  rewrite lookup_empty, Hfind. reflexivity.
Qed.

Lemma extract_data_first_row_wins_witness :
  extract_data_from_word
    (mkdocument [] [[[u "材质"; u "Q355B"]]; [[u "材质"; u "Q235"]]]) !! u "材质"
  = Some (u "Q355B").
Proof.
  rewrite (extract_data_first_row_wins _ (u "材质") (u "材质")); [reflexivity|].
  simpl. tauto.
Defined.

(** X22. The inspection date of the field map, when there is one, is left
    as it is by [first_date_str]: it is a first date already, or a text
    without a date and without blanks around it. *)
Theorem extract_data_date_is_first_date (doc : document) (v : text) :
  extract_data_from_word doc !! u "探伤日期" = Some v ->
  first_date_str (Some v) = v.
Proof.
  destruct (extract_unfold doc) as [ft ->].
  rewrite add_raw_date_other, add_basis_other by text_neq.
  unfold cut_date, has_field.
  destruct (add_date ft _ !! u "探伤日期") as [v0|] eqn:E.
  - destruct (nonempty v0) eqn:En.
    + rewrite lookup_insert_eq. intros [= <-]. apply first_date_str_twice.
    + rewrite E. intros [= <-]. destruct v0; [reflexivity|discriminate].
  - rewrite E. discriminate.
Qed.

Lemma extract_data_date_witness :
  first_date_str (Some (u "2025年3月31日")) = u "2025年3月31日".
Proof.
  apply (extract_data_date_is_first_date
           (mkdocument [u "探伤日期：2025年3月31日至2025年4月4日"] [])).
  vm_compute. reflexivity.
Defined.

(** X23. The quality grade of the field map, when there is one, is one of
    the two grades "一级" and "二级". *)
Theorem extract_data_grade (doc : document) (v : text) :
  extract_data_from_word doc !! u "质量等级" = Some v ->
  v = u "一级" \/ v = u "二级".
Proof.
  destruct (extract_unfold doc) as [ft ->].
  rewrite add_raw_date_other, add_basis_other, cut_date_other, add_date_other
    by text_neq.
  unfold add_grade. destruct (search grade_re ft) as [m|] eqn:E.
  - rewrite lookup_insert_eq. intros [= <-].
    destruct (grade_group _ _ E) as [-> | ->]; auto.
  - destruct (Text.contains (u "一级") ft);
      [rewrite lookup_insert_eq; intros [= <-]; auto|].
    destruct (Text.contains (u "二级") ft);
      [rewrite lookup_insert_eq; intros [= <-]; auto|].
    unfold extract_tables. rewrite extract_rows_lookup. cbn [snd].
    rewrite lookup_empty.
    replace (List.find (fun f => bool_decide (u "质量等级" = fst f)) table_fields)
      with (@None (text * text)) by (vm_compute; reflexivity).
    discriminate.
Qed.

Lemma extract_data_grade_witness : u "二级" = u "一级" \/ u "二级" = u "二级".
Proof.
  apply (extract_data_grade (mkdocument [u "本次检测共测试二级焊缝"] [])).
  vm_compute. reflexivity.
Defined.

(** ** ReportAssembler *)

Ltac eval_col :=
  repeat match goal with
         | |- context [col ?k] =>
             let v := eval vm_compute in (col k) in change (col k) with v
         end.

(** A closed membership of a list of addresses. *)
Ltac in_cells := vm_compute; repeat (first [left; reflexivity | right]).

(** A closed address is none of a list of addresses. *)
Ltac not_in_cells := vm_compute; intuition discriminate.

Lemma put_value_other (sheet : gmap string text) rng v a :
  a <> rng -> put_value sheet rng v !! a = sheet !! a.
Proof. intros H. unfold put_value. now rewrite lookup_insert_ne. Qed.

Lemma put_field_other data key (sheet : gmap string text) a :
  a <> col key -> put_field data key sheet !! a = sheet !! a.
Proof.
  intros H. unfold put_field. destruct (has_field data key); [|reflexivity].
  now apply put_value_other.
Qed.

Lemma write_header_other instrument temp_number (sheet : gmap string text) a :
  ~ In a header_cells ->
  write_header instrument temp_number sheet !! a = sheet !! a.
Proof.
  intros Hnin. unfold write_header. cbv zeta.
  destruct (nonempty temp_number);
    rewrite !put_value_other; try reflexivity;
    intros ->; apply Hnin; in_cells.
Qed.

Lemma write_word_fields_other data chosen (sheet : gmap string text) a :
  ~ In a field_cells ->
  write_word_fields data chosen sheet !! a = sheet !! a.
Proof.
  intros Hnin. unfold write_word_fields. cbv zeta.
  rewrite put_field_other by (intros ->; apply Hnin; in_cells).
  destruct chosen as [dt|].
  - rewrite put_value_other by (intros ->; apply Hnin; in_cells).
    rewrite !put_field_other; try reflexivity; intros ->; apply Hnin; in_cells.
  - rewrite !put_field_other; try reflexivity; intros ->; apply Hnin; in_cells.
Qed.

Lemma write_scan_other data (sheet : gmap string text) a :
  ~ In a scan_cells -> write_scan data sheet !! a = sheet !! a.
Proof.
  intros Hnin. unfold write_scan. cbv zeta.
  repeat match goal with |- context [if ?c then _ else _] => destruct c end;
    rewrite put_value_other by (intros ->; apply Hnin; in_cells);
    rewrite !lookup_insert_ne; try reflexivity; intros <-; apply Hnin; in_cells.
Qed.

Lemma write_blocks_other (sheet : gmap string text) a :
  ~ In a block_cells -> write_blocks sheet !! a = sheet !! a.
Proof.
  intros Hnin. unfold write_blocks. cbv zeta.
  rewrite !put_value_other by (intros ->; apply Hnin; in_cells).
  rewrite !lookup_insert_ne; try reflexivity; intros <-; apply Hnin; in_cells.
Qed.

(** The addresses [B13] to [B20] are eight different addresses. *)
Lemma b_cell_inj i j :
  (i < 8)%nat -> (j < 8)%nat -> b_cell (13 + i) = b_cell (13 + j) -> i = j.
Proof.
  intros Hi Hj.
  do 8 (destruct i as [|i]; [do 8 (destruct j as [|j];
                                   [vm_compute; congruence|]); lia|]); lia.
Qed.

Lemma in_probe_cells a :
  In a probe_cells <-> exists i, (i < 8)%nat /\ a = b_cell (13 + i).
Proof.
  unfold probe_cells. rewrite in_map_iff. split.
  - intros (n & <- & Hn). apply in_seq in Hn. exists (n - 13)%nat.
    split; [lia|]. f_equal. lia.
  - intros (i & Hi & ->). exists (13 + i)%nat. split; [reflexivity|].
    apply in_seq. lia.
Qed.

(** The loop that clears the probe cells. *)
Lemma clear_probes_lookup (sheet : gmap string text) a :
  (In a probe_cells ->
   fold_left (fun sh i => <[b_cell i := u ""]> sh) (seq 13 8) sheet !! a = Some []) /\
  (~ In a probe_cells ->
   fold_left (fun sh i => <[b_cell i := u ""]> sh) (seq 13 8) sheet !! a = sheet !! a).
Proof.
  assert (H : forall l (sh : gmap string text),
    (In a (map b_cell l) \/ sh !! a = Some [] ->
     fold_left (fun sh i => <[b_cell i := u ""]> sh) l sh !! a = Some []) /\
    (~ In a (map b_cell l) ->
     fold_left (fun sh i => <[b_cell i := u ""]> sh) l sh !! a = sh !! a)).
  { induction l as [|n l IH]; intros sh.
    - split; [intros [[]|H]; exact H|reflexivity].
    - cbn [fold_left map]. destruct (IH (<[b_cell n := u ""]> sh)) as [IH1 IH2].
      split.
      + intros H. apply IH1.
        destruct (string_dec (b_cell n) a) as [<-|Hne].
        * right. apply lookup_insert_eq.
        * destruct H as [[E|Hin]|Hs]; [contradiction|now left|].
          right. now rewrite lookup_insert_ne.
      + intros Hnin. rewrite IH2 by (intros Hin; apply Hnin; now right).
        apply lookup_insert_ne. intros E. apply Hnin. now left. }
  split; intros Ha; [apply H; now left|now apply H].
Qed.

(** The loop that writes the models, one cell after the other. *)
Lemma write_models_lookup (l : list text) : forall k (sh : gmap string text),
  (k + List.length l <= 8)%nat ->
  (forall a, ~ In a probe_cells ->
     fold_left (fun sh ip => <[b_cell (13 + fst ip) := snd ip]> sh)
               (combine (seq k (List.length l)) l) sh !! a = sh !! a) /\
  (forall i, (i < 8)%nat ->
     fold_left (fun sh ip => <[b_cell (13 + fst ip) := snd ip]> sh)
               (combine (seq k (List.length l)) l) sh !! b_cell (13 + i)
     = if (k <=? i)%nat && (i <? k + List.length l)%nat
       then Some (nth (i - k) l []) else sh !! b_cell (13 + i)).
Proof.
  induction l as [|p l IH]; intros k sh Hk.
  - split; [reflexivity|]. intros i Hi. simpl.
    destruct (k <=? i)%nat eqn:E1; [|reflexivity].
    apply Nat.leb_le in E1. simpl.
    replace (i <? k + 0)%nat with false; [reflexivity|].
    symmetry. apply Nat.ltb_ge. lia.
  - cbn [List.length seq combine fold_left fst snd].
    simpl in Hk. destruct (IH (S k) (<[b_cell (13 + k) := p]> sh)) as [IH1 IH2]; [lia|].
    split.
    + intros a Hnin. rewrite IH1 by exact Hnin. apply lookup_insert_ne.
      intros <-. apply Hnin. apply in_probe_cells. exists k. split; [lia|reflexivity].
    + intros i Hi. rewrite IH2 by exact Hi.
      destruct (decide (i = k)) as [->|Hne].
      * replace (S k <=? k)%nat with false by (symmetry; apply Nat.leb_gt; lia).
        replace (k <=? k)%nat with true by (symmetry; apply Nat.leb_le; lia).
        replace (k <? k + S (List.length l))%nat with true
          by (symmetry; apply Nat.ltb_lt; lia).
        rewrite Nat.sub_diag. simpl. apply lookup_insert_eq.
      * rewrite lookup_insert_ne
          by (intros E; apply b_cell_inj in E; [congruence|lia|lia]).
        destruct (S k <=? i)%nat eqn:E1.
        -- apply Nat.leb_le in E1.
           replace (k <=? i)%nat with true by (symmetry; apply Nat.leb_le; lia).
           replace (i <? k + S (List.length l))%nat
             with (i <? S k + List.length l)%nat by (f_equal; lia).
           simpl andb. destruct (i <? _)%nat; [|reflexivity].
           replace (i - k)%nat with (S (i - S k)) by lia. reflexivity.
        -- apply Nat.leb_gt in E1.
           replace (k <=? i)%nat with false by (symmetry; apply Nat.leb_gt; lia).
           reflexivity.
Qed.

Lemma probes_to_write_length data override_probes :
  (List.length (probes_to_write data override_probes) <= 8)%nat.
Proof.
  unfold probes_to_write. destruct override_probes; rewrite length_firstn; lia.
Qed.

Lemma write_probes_other data override_probes (sheet : gmap string text) a :
  ~ In a probe_cells -> write_probes data override_probes sheet !! a = sheet !! a.
Proof.
  intros Hnin. unfold write_probes, enumerate. cbv zeta.
  pose proof (probes_to_write_length data override_probes) as Hlen.
  rewrite (proj1 (write_models_lookup _ 0 _ Hlen)) by exact Hnin.
  now apply clear_probes_lookup.
Qed.

Lemma write_probes_cell data override_probes (sheet : gmap string text) i :
  (i < 8)%nat ->
  write_probes data override_probes sheet !! b_cell (13 + i)
  = Some (nth i (probes_to_write data override_probes) []).
Proof.
  intros Hi. unfold write_probes, enumerate. cbv zeta.
  pose proof (probes_to_write_length data override_probes) as Hlen.
  rewrite (proj2 (write_models_lookup _ 0 _ Hlen)) by exact Hi.
  simpl Nat.leb. simpl andb. rewrite Nat.sub_0_r.
  match goal with
  | |- context [Nat.ltb i ?n] => destruct (Nat.ltb i n) eqn:E
  end; [reflexivity|].
  apply Nat.ltb_ge in E.
  rewrite (proj1 (clear_probes_lookup _ _))
    by (apply in_probe_cells; exists i; split; [exact Hi|reflexivity]).
  rewrite nth_overflow by (simpl in E; lia). reflexivity.
Qed.

Section AssemblerFacts.

Variable str_upper : text -> text.

Lemma fill_sheet_basic_by_estimate sheet data override_date override_probes :
  fill_sheet_basic str_upper sheet data override_date override_probes
  = (temp_number ← beijing_temp_guess_number (chosen_of data override_date);
     Return (assembled str_upper sheet data (chosen_of data override_date) temp_number
                       override_probes)).
Proof.
  unfold fill_sheet_basic, chosen_of.
  destruct (parse_cn_date_never_raises (Some (get_text data (u "探伤日期"))))
    as [r ->].
  cbn [mbind py_bind]. reflexivity.
Qed.

Lemma fill_sheet_basic_returns sheet data override_date override_probes :
  estimable (chosen_of data override_date) ->
  exists temp_number,
    fill_sheet_basic str_upper sheet data override_date override_probes
    = Return (assembled str_upper sheet data (chosen_of data override_date) temp_number
                        override_probes) /\
    match chosen_of data override_date with
    | None => temp_number = []
    | Some _ => exists n, temp_number = Text.of_int n /\ -5 <= n <= 28
    end.
Proof.
  intros He. rewrite fill_sheet_basic_by_estimate.
  destruct (chosen_of data override_date) as [[y m d]|].
  - destruct He as [Hv Hdec]. cbn [year month day] in Hv, Hdec.
    destruct (beijing_temp_estimate y m d Hv Hdec) as (n & -> & Hn).
    exists (Text.of_int n). split; [reflexivity|]. exists n. now split.
  - exists []. split; reflexivity.
Qed.

End AssemblerFacts.

Lemma write_header_instrument instrument temp_number (sheet : gmap string text) :
  write_header instrument temp_number sheet !! "B3:D3"%string = Some instrument.
Proof.
  unfold write_header. cbv zeta.
  destruct (nonempty temp_number);
    rewrite !put_value_other by (eval_col; discriminate);
    eval_col; apply lookup_insert_eq.
Qed.

Lemma write_header_environment instrument temp_number (sheet : gmap string text) :
  write_header instrument temp_number sheet !! "B4:D4"%string
  = if nonempty temp_number then Some temp_number else sheet !! "B4:D4"%string.
Proof.
  unfold write_header. cbv zeta.
  destruct (nonempty temp_number);
    rewrite !put_value_other by (eval_col; discriminate); eval_col.
  - apply lookup_insert_eq.
  - reflexivity.
Qed.

Lemma write_word_fields_date data chosen (sheet : gmap string text) :
  write_word_fields data chosen sheet !! "F3:J3"%string
  = match chosen with
    | Some dt => Some (format_cn_date dt)
    | None => sheet !! "F3:J3"%string
    end.
Proof.
  unfold write_word_fields. cbv zeta.
  rewrite put_field_other by (eval_col; discriminate).
  destruct chosen as [dt|].
  - eval_col. unfold put_value. apply lookup_insert_eq.
  - rewrite !put_field_other by (eval_col; discriminate). reflexivity.
Qed.

Lemma estimate_text_nonempty n : -5 <= n <= 28 -> nonempty (Text.of_int n) = true.
Proof.
  intros Hn.
  assert (H : forallb (fun n => nonempty (Text.of_int n)) (range (-5) 29) = true)
    by (vm_compute; reflexivity).
  eapply forallb_forall in H; [exact H|]. apply in_range. lia.
Qed.

Lemma starts_with_contains sub s :
  Text.starts_with sub s = true -> Text.contains sub s = true.
Proof. intros H. destruct s; simpl; rewrite H; reflexivity. Qed.

(** A text that holds [c :: sub] holds [sub]. *)
Lemma contains_tail c sub s :
  Text.contains (c :: sub) s = true -> Text.contains sub s = true.
Proof.
  induction s as [|y s IH]; simpl; [discriminate|].
  destruct ((c =? y)%N && Text.starts_with sub s) eqn:E.
  - intros _. apply andb_prop in E as [_ E]. apply starts_with_contains in E.
    rewrite E. apply orb_true_r.
  - simpl. intros H. rewrite (IH H). apply orb_true_r.
Qed.

Lemma corner_weld_is_butt_weld part :
  Text.contains (u "角对接焊缝") part = true ->
  Text.contains (u "对接焊缝") part = true.
Proof. apply contains_tail. Qed.

Lemma write_scan_cells data (sheet : gmap string text) :
  if Text.contains (u "角对接焊缝") (get_text data (u "检测部位"))
  then write_scan data sheet !! "B11"%string = Some (u "单面单侧") /\
       write_scan data sheet !! "C11"%string = Some (u "单面双侧") /\
       write_scan data sheet !! "B21:J21"%string
       = Some (u "注：D表示对接、JD表示角对接")
  else write_scan data sheet !! "B11"%string = Some (u "单面双侧") /\
       write_scan data sheet !! "C11"%string = sheet !! "C11"%string /\
       write_scan data sheet !! "B21:J21"%string = Some (u "注：D表示对接").
Proof.
  unfold write_scan. cbv zeta.
  destruct (Text.contains (u "角对接焊缝") _) eqn:E.
  - rewrite (corner_weld_is_butt_weld _ E). simpl andb. cbv iota.
    unfold put_value. eval_col. repeat split.
    + rewrite !lookup_insert_ne by discriminate. apply lookup_insert_eq.
    + rewrite lookup_insert_ne by discriminate. apply lookup_insert_eq.
    + apply lookup_insert_eq.
  - simpl andb. cbv iota. unfold put_value. eval_col. repeat split.
    + rewrite lookup_insert_ne by discriminate. apply lookup_insert_eq.
    + now rewrite !lookup_insert_ne by discriminate.
    + apply lookup_insert_eq.
Qed.

(** X24. When the estimate can be computed for the date it works with,
    [fill_sheet_basic] returns, and the instrument cell holds "13-27" when
    there is a date and it lies between 12 March 2025 and 9 April 2025, both
    included, and "22-72" otherwise. *)
Theorem fill_sheet_basic_instrument (str_upper : text -> text)
    (sheet : gmap string text) (data : gmap text text)
    (override_date : option datetime) (override_probes : option (list text)) :
  estimable (chosen_of data override_date) ->
  exists out,
    fill_sheet_basic str_upper sheet data override_date override_probes = Return out /\
    out !! "B3:D3"%string
    = Some (if in_window (chosen_of data override_date) then u "13-27" else u "22-72").
Proof.
  intros He.
  destruct (fill_sheet_basic_returns str_upper sheet data override_date
              override_probes He) as (temp_number & -> & _).
  eexists. split; [reflexivity|]. unfold assembled.
  rewrite write_probes_other by not_in_cells.
  rewrite write_detection_basis_outside_slots by not_in_cells.
  rewrite write_blocks_other by not_in_cells.
  rewrite write_scan_other by not_in_cells.
  rewrite write_word_fields_other by not_in_cells.
  apply write_header_instrument.
Qed.

Lemma fill_sheet_basic_instrument_witness :
  exists out,
    fill_sheet_basic Text.upper_ascii ∅ ∅ (Some (mkdatetime 2025 4 9)) None
    = Return out /\
    out !! "B3:D3"%string
    = Some (if in_window (chosen_of ∅ (Some (mkdatetime 2025 4 9)))
            then u "13-27" else u "22-72").
Proof.
  apply (fill_sheet_basic_instrument Text.upper_ascii ∅ ∅
           (Some (mkdatetime 2025 4 9)) None).
  split; [reflexivity|simpl; lia].
Defined.

(** X25. With a date to work with, the override or else the date of the
    report, the date cell holds that date as [format_cn_date] writes it and
    the environment cell holds the writing of a whole number between -5 and
    28; without a date both cells keep their value. *)
Theorem fill_sheet_basic_date_and_environment (str_upper : text -> text)
    (sheet : gmap string text) (data : gmap text text)
    (override_date : option datetime) (override_probes : option (list text)) :
  estimable (chosen_of data override_date) ->
  exists out,
    fill_sheet_basic str_upper sheet data override_date override_probes = Return out /\
    match chosen_of data override_date with
    | Some dt =>
        out !! "F3:J3"%string = Some (format_cn_date dt) /\
        exists n, out !! "B4:D4"%string = Some (Text.of_int n) /\ -5 <= n <= 28
    | None =>
        out !! "F3:J3"%string = sheet !! "F3:J3"%string /\
        out !! "B4:D4"%string = sheet !! "B4:D4"%string
    end.
Proof.
  intros He.
  destruct (fill_sheet_basic_returns str_upper sheet data override_date
              override_probes He) as (temp_number & -> & Ht).
  eexists. split; [reflexivity|]. unfold assembled.
  assert (Hd : forall a, ~ In a probe_cells -> ~ In a basis_slots ->
                 ~ In a block_cells -> ~ In a scan_cells ->
                 forall sh,
                 write_probes data override_probes
                   (write_detection_basis str_upper
                      (write_blocks (write_scan data sh))
                      (Some (get_text data (u "执行处理")))) !! a = sh !! a).
  { intros a H1 H2 H3 H4 sh.
    rewrite write_probes_other by exact H1.
    rewrite write_detection_basis_outside_slots by exact H2.
    rewrite write_blocks_other by exact H3.
    now apply write_scan_other. }
  rewrite !Hd by not_in_cells.
  rewrite write_word_fields_date.
  rewrite write_word_fields_other by not_in_cells.
  rewrite write_header_environment.
  destruct (chosen_of data override_date) as [dt|].
  - split; [reflexivity|]. destruct Ht as (n & -> & Hn).
    exists n. rewrite (estimate_text_nonempty n Hn). now split.
  - subst temp_number. simpl.
    split; [|reflexivity].
    apply write_header_other. not_in_cells.
Qed.

Lemma fill_sheet_basic_date_and_environment_witness :
  exists out,
    fill_sheet_basic Text.upper_ascii ∅ ∅ (Some (mkdatetime 2025 3 31)) None
    = Return out /\
    match chosen_of ∅ (Some (mkdatetime 2025 3 31)) with
    | Some dt =>
        out !! "F3:J3"%string = Some (format_cn_date dt) /\
        exists n, out !! "B4:D4"%string = Some (Text.of_int n) /\ -5 <= n <= 28
    | None =>
        out !! "F3:J3"%string = (∅ : gmap string text) !! "F3:J3"%string /\
        out !! "B4:D4"%string = (∅ : gmap string text) !! "B4:D4"%string
    end.
Proof.
  apply (fill_sheet_basic_date_and_environment Text.upper_ascii ∅ ∅
           (Some (mkdatetime 2025 3 31)) None).
  split; [reflexivity|simpl; lia].
Defined.

(** X26. The scanning cells and the remark follow the inspected part: when
    it names a corner butt weld, [B11] holds one side scanning, [C11] two
    side scanning and the remark explains both D and JD; otherwise [B11]
    holds two side scanning, [C11] keeps its value and the remark explains
    D.  The remark that explains JD alone is never written, since a part
    that names a corner butt weld names a butt weld. *)
Theorem fill_sheet_basic_scan_and_remark (str_upper : text -> text)
    (sheet : gmap string text) (data : gmap text text)
    (override_date : option datetime) (override_probes : option (list text)) :
  estimable (chosen_of data override_date) ->
  exists out,
    fill_sheet_basic str_upper sheet data override_date override_probes = Return out /\
    if Text.contains (u "角对接焊缝") (get_text data (u "检测部位"))
    then out !! "B11"%string = Some (u "单面单侧") /\
         out !! "C11"%string = Some (u "单面双侧") /\
         out !! "B21:J21"%string = Some (u "注：D表示对接、JD表示角对接")
    else out !! "B11"%string = Some (u "单面双侧") /\
         out !! "C11"%string = sheet !! "C11"%string /\
         out !! "B21:J21"%string = Some (u "注：D表示对接").
Proof.
  intros He.
  destruct (fill_sheet_basic_returns str_upper sheet data override_date
              override_probes He) as (temp_number & -> & _).
  eexists. split; [reflexivity|]. unfold assembled.
  assert (Hd : forall a, ~ In a probe_cells -> ~ In a basis_slots ->
                 ~ In a block_cells ->
                 forall sh,
                 write_probes data override_probes
                   (write_detection_basis str_upper (write_blocks sh)
                      (Some (get_text data (u "执行处理")))) !! a = sh !! a).
  { intros a H1 H2 H3 sh.
    rewrite write_probes_other by exact H1.
    rewrite write_detection_basis_outside_slots by exact H2.
    now apply write_blocks_other. }
  rewrite !Hd by not_in_cells.
  match goal with
  | |- context [write_scan data ?sh] => pose proof (write_scan_cells data sh) as Hs
  end.
  destruct (Text.contains (u "角对接焊缝") _).
  - exact Hs.
  - destruct Hs as (H1 & H2 & H3). repeat split; [exact H1| |exact H3].
    rewrite H2. rewrite write_word_fields_other by not_in_cells.
    apply write_header_other. not_in_cells.
Qed.

Lemma fill_sheet_basic_scan_and_remark_witness :
  exists out,
    fill_sheet_basic Text.upper_ascii ∅ {[ u "检测部位" := u "钢梁角对接焊缝" ]}
      None None = Return out /\
    if Text.contains (u "角对接焊缝")
         (get_text {[ u "检测部位" := u "钢梁角对接焊缝" ]} (u "检测部位"))
    then out !! "B11"%string = Some (u "单面单侧") /\
         out !! "C11"%string = Some (u "单面双侧") /\
         out !! "B21:J21"%string = Some (u "注：D表示对接、JD表示角对接")
    else out !! "B11"%string = Some (u "单面双侧") /\
         out !! "C11"%string = (∅ : gmap string text) !! "C11"%string /\
         out !! "B21:J21"%string = Some (u "注：D表示对接").
Proof.
  apply (fill_sheet_basic_scan_and_remark Text.upper_ascii ∅
           {[ u "检测部位" := u "钢梁角对接焊缝" ]} None None).
  vm_compute. exact I.
Defined.

(** X27. The cells [B13] to [B20] hold, in order, the first eight probe
    models, those of the override when there is one and else the pieces of
    the field of the report that are not empty; the cells after the last
    model are empty. *)
Theorem fill_sheet_basic_probe_cells (str_upper : text -> text)
    (sheet : gmap string text) (data : gmap text text)
    (override_date : option datetime) (override_probes : option (list text)) :
  estimable (chosen_of data override_date) ->
  exists out,
    fill_sheet_basic str_upper sheet data override_date override_probes = Return out /\
    forall i, (i < 8)%nat ->
      out !! b_cell (13 + i)
      = Some (nth i match override_probes with
                    | Some probes => probes
                    | None =>
                        List.filter nonempty
                          (split probe_sep_re
                             (Text.strip (get_text data (u "探头型号"))))
                    end []).
Proof.
  intros He.
  destruct (fill_sheet_basic_returns str_upper sheet data override_date
              override_probes He) as (temp_number & -> & _).
  eexists. split; [reflexivity|]. intros i Hi. unfold assembled.
  rewrite write_probes_cell by exact Hi. f_equal.
  unfold probes_to_write.
  destruct override_probes; rewrite nth_firstn;
    (replace (i <? 8)%nat with true by (symmetry; apply Nat.ltb_lt; lia));
    reflexivity.
Qed.

Lemma fill_sheet_basic_probe_cells_witness :
  exists out,
    fill_sheet_basic Text.upper_ascii ∅ {[ u "探头型号" := u "A1、A2 A3;;A4" ]}
      None None = Return out /\
    forall i, (i < 8)%nat ->
      out !! b_cell (13 + i)
      = Some (nth i (List.filter nonempty
                       (split probe_sep_re
                          (Text.strip (get_text {[ u "探头型号" := u "A1、A2 A3;;A4" ]}
                                         (u "探头型号"))))) []).
Proof.
  apply (fill_sheet_basic_probe_cells Text.upper_ascii ∅
           {[ u "探头型号" := u "A1、A2 A3;;A4" ]} None None).
  vm_compute. exact I.
Defined.



(** X29. When the date [fill_sheet_basic] works with lies in December
    9999, it raises [ValueError] instead of returning a sheet. *)
Theorem fill_sheet_basic_december_9999 (str_upper : text -> text)
    (sheet : gmap string text) (data : gmap text text)
    (override_date : option datetime) (override_probes : option (list text))
    (dt : datetime) :
  chosen_of data override_date = Some dt -> year dt = 9999 -> month dt = 12 ->
  fill_sheet_basic str_upper sheet data override_date override_probes
  = Raise ValueError.
Proof.
  intros Hc Hy Hm. rewrite fill_sheet_basic_by_estimate, Hc.
  destruct dt as [y m d]. cbn [year month] in Hy, Hm. subst y m. reflexivity.
Qed.

Lemma fill_sheet_basic_december_9999_witness :
  fill_sheet_basic Text.upper_ascii ∅ ∅ (Some (mkdatetime 9999 12 31)) None
  = Raise ValueError.
Proof.
  apply (fill_sheet_basic_december_9999 Text.upper_ascii ∅ ∅
           (Some (mkdatetime 9999 12 31)) None (mkdatetime 9999 12 31));
    reflexivity.
Defined.
